(** * electric-piano: the MIDI SysEx bootloader (src/firmware/bootloader.cpp)

    A shallow embedding of the bootloader's protocol engine: the byte-wise
    parser in [loop], the nibble-encoded reply writer [send_msg], the command
    dispatcher [process_msg] and the three flash commands.  The firmware's
    globals and the locals of [loop] become one record that is threaded
    through the functions; everything the firmware does to the outside world
    (bytes written to the UART, self-programming operations, the jump into the
    resident program) is appended to an event trace. *)

From Stdlib Require Import ZArith Lia List.
From stdpp Require Import base list list_numbers.
Import ListNotations.
Local Open Scope Z_scope.

(** ** Fixed-width integers

    avr-gcc: [int] is 16 bits wide, two's complement. *)

Definition uint8_t (z : Z) : Z := z mod 256.
Definition uint16_t (z : Z) : Z := z mod 65536.
Definition uint32_t (z : Z) : Z := z mod 4294967296.
Definition int (z : Z) : Z := (z + 32768) mod 65536 - 32768.

Definition is_byte (b : Z) : Prop := 0 <= b < 256.

(** ** The device header <avr/io.h>

    [FLASHEND] and [SPM_PAGESIZE] come from the device header, which is chosen
    at compile time.  The embedding covers the devices whose flash addresses
    fit [int] (so that [FLASHEND + 1] and [page_no * SPM_PAGESIZE] are computed
    without overflow) and whose page size fits the [uint8_t] parameter of
    [send_msg]. *)

Class avr_io := {
  FLASHEND : Z;
  SPM_PAGESIZE : Z;
  FLASHEND_range : 0 <= FLASHEND < 32767;
  SPM_PAGESIZE_range : 0 < SPM_PAGESIZE < 255
}.

Definition attiny2313 : avr_io.
Proof. refine {| FLASHEND := 0x07ff; SPM_PAGESIZE := 32 |}; lia. Defined.

Definition atmega8 : avr_io.
Proof. refine {| FLASHEND := 0x1fff; SPM_PAGESIZE := 64 |}; lia. Defined.

Definition atmega16 : avr_io.
Proof. refine {| FLASHEND := 0x3fff; SPM_PAGESIZE := 128 |}; lia. Defined.

(** ** Constants and enumerations *)

Definition MIDI_ID : Z := 0x70.
Definition VERSION : Z := 0x01.

Inductive state_t :=
| STATE_IDLE
| STATE_MATCHING_HEADER
| STATE_READING_BODY
| STATE_EXPECTING_END.

(** The enumerators' values, for [state < STATE_READING_BODY]. *)
Definition state_value (s : state_t) : Z :=
  match s with
  | STATE_IDLE => 0
  | STATE_MATCHING_HEADER => 1
  | STATE_READING_BODY => 2
  | STATE_EXPECTING_END => 3
  end.

Definition state_eqb (a b : state_t) : bool := state_value a =? state_value b.

Definition COMMAND_PING : Z := 0x10.
Definition COMMAND_WRITE : Z := 0x11.
Definition COMMAND_READ : Z := 0x12.
Definition COMMAND_VERIFY : Z := 0x13.
Definition COMMAND_QUIT : Z := 0x14.
Definition REPLY_SUCCESS : Z := 0x20.
Definition REPLY_ERROR : Z := 0x21.
Definition REPLY_READ : Z := 0x22.
Definition REPLY_VERIFY : Z := 0x23.

Inductive error_t :=
| ERROR_NONE
| ERROR_HEADER_MISMATCH
| ERROR_INVALID_FORMAT
| ERROR_INCOMPLETE_MESSAGE
| ERROR_INVALID_NIBBLE
| ERROR_INVALID_CHECKSUM
| ERROR_UNKNOWN_COMMAND
| ERROR_INVALID_PAYLOAD_SIZE
| ERROR_INVALID_PAGE_NUMBER.

Definition error_value (e : error_t) : Z :=
  match e with
  | ERROR_NONE => 0
  | ERROR_HEADER_MISMATCH => 1
  | ERROR_INVALID_FORMAT => 2
  | ERROR_INCOMPLETE_MESSAGE => 3
  | ERROR_INVALID_NIBBLE => 4
  | ERROR_INVALID_CHECKSUM => 5
  | ERROR_UNKNOWN_COMMAND => 6
  | ERROR_INVALID_PAYLOAD_SIZE => 7
  | ERROR_INVALID_PAGE_NUMBER => 8
  end.

(** ** Data model *)

(** [message_t]: the three header bytes and the union.  The union is kept as
    its raw view [buffer]; the typed views are offsets into it:
    [command] is [buffer[0]], [checksum], [error] and [page_no] are
    [buffer[1]], and [page_data] starts at [buffer[2]]. *)
Record message_t := {
  header : list Z;
  buffer : list Z
}.

Definition sizeof_header : Z := 3.
Definition sizeof_command : Z := 1.
Definition sizeof_page_no : Z := 1.
Definition sizeof_error : Z := 1.
Definition sizeof_checksum : Z := 1.
Definition offsetof_command : Z := 0.
Definition offsetof_page_no : Z := 1.
Definition offsetof_error : Z := 1.
Definition offsetof_checksum : Z := 1.
Definition offsetof_page_data : Z := 2.

(** The flash array as the self-programming hardware presents it: the
    program memory, read by [pgm_read_byte], and the temporary page buffer
    that [boot_page_fill] loads and [boot_page_write] commits. *)
Record flash_t := {
  pgm : Z -> Z;
  page_buffer : Z -> Z
}.

Inductive event :=
| ev_uart_putc (byte : Z)
| ev_page_erase (page : Z)
| ev_page_fill (addr w : Z)
| ev_page_write (page : Z)
| ev_rww_enable
| ev_program_main.

(** The globals [state], [msg], [payload_size], the locals [checksum] and
    [bytes_read] of [loop], the flash and the trace. *)
Record firmware := {
  state : state_t;
  msg : message_t;
  payload_size : Z;
  checksum : Z;
  bytes_read : Z;
  flash : flash_t;
  trace : list event
}.

Definition set_state (s : state_t) (m : firmware) : firmware :=
  {| state := s; msg := msg m; payload_size := payload_size m;
     checksum := checksum m; bytes_read := bytes_read m;
     flash := flash m; trace := trace m |}.

Definition set_buffer (b : list Z) (m : firmware) : firmware :=
  {| state := state m;
     msg := {| header := header (msg m); buffer := b |};
     payload_size := payload_size m;
     checksum := checksum m; bytes_read := bytes_read m;
     flash := flash m; trace := trace m |}.

Definition set_header (h : list Z) (m : firmware) : firmware :=
  {| state := state m;
     msg := {| header := h; buffer := buffer (msg m) |};
     payload_size := payload_size m;
     checksum := checksum m; bytes_read := bytes_read m;
     flash := flash m; trace := trace m |}.

Definition set_payload_size (n : Z) (m : firmware) : firmware :=
  {| state := state m; msg := msg m; payload_size := n;
     checksum := checksum m; bytes_read := bytes_read m;
     flash := flash m; trace := trace m |}.

Definition set_checksum (c : Z) (m : firmware) : firmware :=
  {| state := state m; msg := msg m; payload_size := payload_size m;
     checksum := c; bytes_read := bytes_read m;
     flash := flash m; trace := trace m |}.

Definition set_bytes_read (n : Z) (m : firmware) : firmware :=
  {| state := state m; msg := msg m; payload_size := payload_size m;
     checksum := checksum m; bytes_read := n;
     flash := flash m; trace := trace m |}.

Definition set_flash (f : flash_t) (m : firmware) : firmware :=
  {| state := state m; msg := msg m; payload_size := payload_size m;
     checksum := checksum m; bytes_read := bytes_read m;
     flash := f; trace := trace m |}.

Definition emit (e : event) (m : firmware) : firmware :=
  {| state := state m; msg := msg m; payload_size := payload_size m;
     checksum := checksum m; bytes_read := bytes_read m;
     flash := flash m; trace := trace m ++ [e] |}.

(** ** Outcomes

    A function of the firmware either returns, or indexes an array outside
    its bounds, or runs a loop that never exits. *)

Inductive outcome (A : Type) :=
| Ok (a : A)
| OutOfBounds
| Diverges.

Arguments Ok {A} a.
Arguments OutOfBounds {A}.
Arguments Diverges {A}.

Definition bind {A B : Type} (c : outcome A) (k : A -> outcome B) : outcome B :=
  match c with
  | Ok a => k a
  | OutOfBounds => OutOfBounds
  | Diverges => Diverges
  end.

Notation "x <- c ;; k" := (bind c (fun x => k))
  (at level 100, c at next level, right associativity).

(** Array accesses, with the index checked against the array's size. *)

Definition array_get (a : list Z) (i : Z) : outcome Z :=
  if i <? 0 then OutOfBounds
  else match a !! Z.to_nat i with
       | Some v => Ok v
       | None => OutOfBounds
       end.

Definition array_set (a : list Z) (i : Z) (v : Z) : outcome (list Z) :=
  if i <? 0 then OutOfBounds
  else if (Z.to_nat i <? length a)%nat then Ok (<[Z.to_nat i := v]> a)
  else OutOfBounds.

Definition get_buffer (i : Z) (m : firmware) : outcome Z :=
  array_get (buffer (msg m)) i.

Definition put_buffer (i : Z) (v : Z) (m : firmware) : outcome firmware :=
  b <- array_set (buffer (msg m)) i v ;; Ok (set_buffer b m).

Definition get_header (i : Z) (m : firmware) : outcome Z :=
  array_get (header (msg m)) i.

(** A [for] loop whose counter is an [uint16_t] either exits within 65536
    iterations or never. *)
Definition UINT16_RANGE : nat := Z.to_nat 65536.

(** ** The firmware *)

Section Firmware.

Context {dev : avr_io}.

Definition NUM_PAGES : Z := (FLASHEND + 1) / SPM_PAGESIZE.

(** [sizeof(msg.buffer)] *)
Definition sizeof_buffer : Z :=
  SPM_PAGESIZE + sizeof_page_no + sizeof_command + 1.

(** *** UART *)

Definition uart_putc (byte : Z) (m : firmware) : firmware :=
  emit (ev_uart_putc byte) m.

(** *** Self-programming primitives of <avr/boot.h> and <avr/pgmspace.h>

    A flash page is the block of [SPM_PAGESIZE] bytes an address lies in.
    Erasing a page sets its bytes to 0xff; a page write can only clear bits,
    so it leaves the bitwise AND of the old contents and the temporary page
    buffer, and the hardware then resets the temporary buffer. *)

Definition same_page (a page : Z) : bool :=
  a / SPM_PAGESIZE =? page / SPM_PAGESIZE.

Definition flash_erase (page : Z) (f : flash_t) : flash_t :=
  {| pgm := fun a => if same_page a page then 0xff else pgm f a;
     page_buffer := page_buffer f |}.

Definition flash_fill (addr w : Z) (f : flash_t) : flash_t :=
  {| pgm := pgm f;
     page_buffer := fun o =>
       if o =? addr then Z.land w 0xff
       else if o =? addr + 1 then Z.shiftr w 8
       else page_buffer f o |}.

Definition flash_write (page : Z) (f : flash_t) : flash_t :=
  {| pgm := fun a =>
       if same_page a page
       then Z.land (pgm f a) (page_buffer f (a mod SPM_PAGESIZE))
       else pgm f a;
     page_buffer := fun _ => 0xff |}.

Definition boot_page_erase (page : Z) (m : firmware) : firmware :=
  emit (ev_page_erase page) (set_flash (flash_erase page (flash m)) m).

Definition boot_page_fill (addr w : Z) (m : firmware) : firmware :=
  emit (ev_page_fill addr w) (set_flash (flash_fill addr w (flash m)) m).

Definition boot_page_write (page : Z) (m : firmware) : firmware :=
  emit (ev_page_write page) (set_flash (flash_write page (flash m)) m).

Definition boot_rww_enable (m : firmware) : firmware :=
  emit ev_rww_enable m.

Definition pgm_read_byte (addr : Z) (m : firmware) : Z :=
  uint8_t (pgm (flash m) addr).

(** *** send_msg and the replies *)

(** The body loop of [send_msg]:
    [for(uint16_t i = 0; i < msg_size; ++i)], threading [checksum]. *)
Fixpoint send_msg_loop (fuel : nat) (msg_size i : Z) (sum : Z) (m : firmware)
  : outcome (Z * firmware) :=
  if i <? msg_size then
    match fuel with
    | O => Diverges
    | S fuel' =>
        b <- get_buffer i m ;;
        let m := uart_putc (Z.shiftr b 4) m in
        let m := uart_putc (Z.land b 0x0f) m in
        send_msg_loop fuel' msg_size (uint16_t (i + 1)) (Z.lxor sum b) m
    end
  else Ok (sum, m).

(** The header loop runs for [i] = 0, 1, 2 = [sizeof(msg.header) - 1]. *)
Definition send_msg (params_size : Z) (m : firmware) : outcome firmware :=
  let params_size := uint8_t params_size in
  let m := uart_putc 0xf0 m in
  h0 <- get_header 0 m ;;
  let m := uart_putc h0 m in
  h1 <- get_header 1 m ;;
  let m := uart_putc h1 m in
  h2 <- get_header 2 m ;;
  let m := uart_putc h2 m in
  let msg_size := uint8_t (sizeof_command + params_size) in
  r <- send_msg_loop UINT16_RANGE msg_size 0 0 m ;;
  let sum := fst r in
  let m := snd r in
  let m := uart_putc (Z.shiftr sum 4) m in
  let m := uart_putc (Z.land sum 0x0f) m in
  Ok (uart_putc 0xf7 m).

Definition reply_success (m : firmware) : outcome firmware :=
  m <- put_buffer offsetof_command REPLY_SUCCESS m ;;
  send_msg 0 m.

Definition reply_error (error : Z) (m : firmware) : outcome firmware :=
  m <- put_buffer offsetof_command REPLY_ERROR m ;;
  m <- put_buffer offsetof_error (uint8_t error) m ;;
  send_msg sizeof_error m.

Definition reply_data (command : Z) (data_size : Z) (m : firmware)
  : outcome firmware :=
  m <- put_buffer offsetof_command (uint8_t command) m ;;
  send_msg (uint16_t data_size) m.

(** *** Commands *)

(** [uint32_t page = msg.page_no * SPM_PAGESIZE]: the product is an [int]. *)
Definition page_address (m : firmware) : outcome Z :=
  page_no <- get_buffer offsetof_page_no m ;;
  Ok (uint32_t (int (page_no * SPM_PAGESIZE))).

(** [for(uint16_t addr = 0; addr < SPM_PAGESIZE; addr += 2)], with [buffer]
    the offset of the pointer into [msg.buffer]. *)
Fixpoint command_write_loop (fuel : nat) (addr buffer : Z) (m : firmware)
  : outcome firmware :=
  if addr <? SPM_PAGESIZE then
    match fuel with
    | O => Diverges
    | S fuel' =>
        lo <- get_buffer buffer m ;;
        let w := uint16_t lo in
        hi <- get_buffer (buffer + 1) m ;;
        let w := uint16_t (w + int (Z.shiftl hi 8)) in
        command_write_loop fuel' (uint16_t (addr + 2)) (buffer + 2)
          (boot_page_fill addr w m)
    end
  else Ok m.

Definition command_write (m : firmware) : outcome firmware :=
  page <- page_address m ;;
  let buffer := offsetof_page_data in
  let m := boot_page_erase page m in
  m <- command_write_loop UINT16_RANGE 0 buffer m ;;
  let m := boot_page_write page m in
  Ok (boot_rww_enable m).

(** [for(uint16_t addr = page; addr < page + SPM_PAGESIZE; ++addr)] *)
Fixpoint command_read_loop (fuel : nat) (page addr buffer : Z) (m : firmware)
  : outcome firmware :=
  if addr <? uint32_t (page + SPM_PAGESIZE) then
    match fuel with
    | O => Diverges
    | S fuel' =>
        m <- put_buffer buffer (pgm_read_byte addr m) m ;;
        command_read_loop fuel' page (uint16_t (addr + 1)) (buffer + 1) m
    end
  else Ok m.

Definition command_read (m : firmware) : outcome firmware :=
  page <- page_address m ;;
  let buffer := offsetof_page_no in
  command_read_loop UINT16_RANGE page (uint16_t page) buffer m.

Fixpoint command_verify_loop (fuel : nat) (page addr : Z) (m : firmware)
  : outcome firmware :=
  if addr <? uint32_t (page + SPM_PAGESIZE) then
    match fuel with
    | O => Diverges
    | S fuel' =>
        c <- get_buffer offsetof_checksum m ;;
        m <- put_buffer offsetof_checksum (Z.lxor c (pgm_read_byte addr m)) m ;;
        command_verify_loop fuel' page (uint16_t (addr + 1)) m
    end
  else Ok m.

Definition command_verify (m : firmware) : outcome firmware :=
  page <- page_address m ;;
  m <- put_buffer offsetof_checksum 0 m ;;
  command_verify_loop UINT16_RANGE page (uint16_t page) m.

(** [program_main()]: the call into the resident program at address 0 is
    recorded; what that program does is not part of the firmware. *)
Definition program_main (m : firmware) : firmware :=
  emit ev_program_main m.

(** *** The dispatcher *)

(** The macro [CHECK(EXPR, ERR)]; [k] is the rest of the [case]. *)
Definition CHECK (EXPR : bool) (ERR : error_t) (m : firmware)
    (k : outcome firmware) : outcome firmware :=
  if negb EXPR then reply_error (error_value ERR) m else k.

Definition process_msg (m : firmware) : outcome firmware :=
  command <- get_buffer offsetof_command m ;;
  if command =? COMMAND_PING then
    CHECK (payload_size m =? 0) ERROR_INVALID_PAYLOAD_SIZE m
      (reply_success m)
  else if command =? COMMAND_WRITE then
    CHECK (payload_size m =? SPM_PAGESIZE + sizeof_page_no)
      ERROR_INVALID_PAYLOAD_SIZE m
      (page_no <- get_buffer offsetof_page_no m ;;
       CHECK (page_no <? NUM_PAGES) ERROR_INVALID_PAGE_NUMBER m
         (m <- command_write m ;;
          reply_success m))
  else if command =? COMMAND_VERIFY then
    CHECK (payload_size m =? sizeof_page_no) ERROR_INVALID_PAYLOAD_SIZE m
      (page_no <- get_buffer offsetof_page_no m ;;
       CHECK (page_no <? NUM_PAGES) ERROR_INVALID_PAGE_NUMBER m
         (m <- command_verify m ;;
          reply_data REPLY_VERIFY 1 m))
  else if command =? COMMAND_READ then
    CHECK (payload_size m =? sizeof_page_no) ERROR_INVALID_PAYLOAD_SIZE m
      (page_no <- get_buffer offsetof_page_no m ;;
       CHECK (page_no <? NUM_PAGES) ERROR_INVALID_PAGE_NUMBER m
         (m <- command_read m ;;
          reply_data REPLY_READ SPM_PAGESIZE m))
  else if command =? COMMAND_QUIT then
    CHECK (payload_size m =? 0) ERROR_INVALID_PAYLOAD_SIZE m
      (m <- reply_success m ;;
       Ok (program_main m))
  else
    reply_error (error_value ERROR_UNKNOWN_COMMAND) m.

(** *** The parser: one iteration of [for(;;)] in [loop], [byte] being the
    value [uart_getc()] returned. *)

Definition loop_body (byte : Z) (m : firmware) : outcome firmware :=
  if byte <? 0x80 then
    match state m with
    | STATE_MATCHING_HEADER =>
        h <- get_header (bytes_read m) m ;;
        let m := set_bytes_read (uint16_t (bytes_read m + 1)) m in
        if negb (byte =? h) then
          m <- reply_error (error_value ERROR_HEADER_MISMATCH) m ;;
          Ok (set_state STATE_IDLE m)
        else if bytes_read m =? sizeof_header then
          let m := set_state STATE_READING_BODY m in
          Ok (set_bytes_read 0 m)
        else Ok m
    | STATE_READING_BODY =>
        if byte >? 0xf then
          m <- reply_error (error_value ERROR_INVALID_NIBBLE) m ;;
          Ok (set_state STATE_IDLE m)
        else
          let odd := negb (Z.land (bytes_read m) 1 =? 0) in
          let m := set_bytes_read (uint16_t (bytes_read m + 1)) m in
          m <- (if odd then
                  old <- get_buffer (payload_size m) m ;;
                  m <- put_buffer (payload_size m) (uint8_t (old + byte)) m ;;
                  b <- get_buffer (payload_size m) m ;;
                  let m := set_payload_size (uint16_t (payload_size m + 1)) m in
                  Ok (set_checksum (Z.lxor (checksum m) b) m)
                else
                  put_buffer (payload_size m) (uint8_t (Z.shiftl byte 4)) m) ;;
          if payload_size m =? sizeof_buffer then
            Ok (set_state STATE_EXPECTING_END m)
          else Ok m
    | STATE_EXPECTING_END =>
        m <- reply_error (error_value ERROR_INVALID_PAYLOAD_SIZE) m ;;
        Ok (set_state STATE_IDLE m)
    | STATE_IDLE => Ok m
    end
  else if byte =? 0xf0 then
    m <- (if negb (state_eqb (state m) STATE_IDLE) then
            reply_error (error_value ERROR_INCOMPLETE_MESSAGE) m
          else Ok m) ;;
    let m := set_state STATE_MATCHING_HEADER m in
    let m := set_checksum 0 m in
    let m := set_bytes_read 0 m in
    Ok (set_payload_size 0 m)
  else if byte =? 0xf7 then
    if negb (state_eqb (state m) STATE_IDLE) then
      m <- (if (state_value (state m) <? state_value STATE_READING_BODY)
               || (payload_size m <=? sizeof_command) then
              reply_error (error_value ERROR_INVALID_FORMAT) m
            else if negb (checksum m =? 0) then
              reply_error (error_value ERROR_INVALID_CHECKSUM) m
            else
              let m := set_payload_size
                (uint16_t (payload_size m - (sizeof_command + sizeof_checksum))) m in
              process_msg m) ;;
      Ok (set_state STATE_IDLE m)
    else Ok m
  else Ok m.

(** The iterations of [for(;;)] for the bytes [input] received in turn. *)
Fixpoint loop_from (input : list Z) (m : firmware) : outcome firmware :=
  match input with
  | [] => Ok m
  | byte :: input' => m <- loop_body byte m ;; loop_from input' m
  end.

(** The firmware at the first iteration of [loop]: the globals are
    zero-initialised, [msg.header] and [state] are assigned, the locals
    [checksum] and [bytes_read] hold whatever the stack held. *)
Definition loop_init (checksum0 bytes_read0 : Z) (f : flash_t) : firmware :=
  {| state := STATE_IDLE;
     msg := {| header := [0x00; MIDI_ID; VERSION];
               buffer := replicate (Z.to_nat sizeof_buffer) 0 |};
     payload_size := 0;
     checksum := checksum0;
     bytes_read := bytes_read0;
     flash := f;
     trace := [] |}.

Definition loop (checksum0 bytes_read0 : Z) (f : flash_t) (input : list Z)
  : outcome firmware :=
  loop_from input (loop_init checksum0 bytes_read0 f).

End Firmware.

(** ** The wire format and well-formed firmware states *)

Definition HEADER : list Z := [0x00; MIDI_ID; VERSION].

(** Every byte becomes its high nibble followed by its low nibble. *)
Definition nibbles (bs : list Z) : list Z :=
  flat_map (fun b => [Z.shiftr b 4; Z.land b 0x0f]) bs.

Definition xor_bytes (bs : list Z) : Z := fold_left Z.lxor bs 0.

(** A frame on the wire: start delimiter, header, the nibbles of the command
    byte, of the parameters and of the XOR checksum of both, end delimiter. *)
Definition sysex (payload : list Z) : list Z :=
  0xf0 :: HEADER ++ nibbles (payload ++ [xor_bytes payload]) ++ [0xf7].

Definition sent (bytes : list Z) : list event := map ev_uart_putc bytes.

Definition emits (es : list event) (m : firmware) : firmware :=
  {| state := state m; msg := msg m; payload_size := payload_size m;
     checksum := checksum m; bytes_read := bytes_read m;
     flash := flash m; trace := trace m ++ es |}.

(** The bytes written to the UART, in order. *)
Definition uart_output (es : list event) : list Z :=
  flat_map (fun e => match e with ev_uart_putc b => [b] | _ => [] end) es.

Section Wellformed.

Context {dev : avr_io}.

(** The contents of the flash page that starts at address [page]. *)
Definition page_contents (f : flash_t) (page : Z) : list Z :=
  map (fun a => uint8_t (pgm f a)) (seqZ page SPM_PAGESIZE).

(** What the C types guarantee of [msg]: the sizes of its arrays, and that
    their elements are bytes; and that [msg.header] holds what [loop] stored. *)
Record wf (m : firmware) : Prop := {
  wf_header : header (msg m) = HEADER;
  wf_length : Z.of_nat (length (buffer (msg m))) = sizeof_buffer;
  wf_bytes : Forall is_byte (buffer (msg m))
}.

(** The relation between the parser's state and its counters. *)
Definition parser_inv (m : firmware) : Prop :=
  match state m with
  | STATE_IDLE => True
  | STATE_MATCHING_HEADER =>
      0 <= bytes_read m < sizeof_header /\ payload_size m = 0 /\ checksum m = 0
  | STATE_READING_BODY =>
      0 <= payload_size m < sizeof_buffer /\
      (bytes_read m = 2 * payload_size m \/
       bytes_read m = 2 * payload_size m + 1)
  | STATE_EXPECTING_END => payload_size m = sizeof_buffer
  end.

End Wellformed.


(** ** Start-up: [uart_init], [bootloader_active] and [main] *)

Definition BAUD_RATE : Z := 31250.

(** [_BV(bit)] is [1 << bit]; the port D pin numbers are those of
    <avr/portpins.h>. *)
Definition _BV (bit : Z) : Z := Z.shiftl 1 bit.

Definition PD3 : Z := 3.
Definition PD4 : Z := 4.
Definition PD5 : Z := 5.
Definition PD6 : Z := 6.

(** The I/O registers the start-up code writes. *)
Record io_t := {
  DDRD : Z;
  PORTD : Z;
  UBRRH : Z;
  UBRRL : Z;
  UCSRB : Z
}.

Section Startup.

Context {dev : avr_io}.

(** The clock frequency [F_CPU] is given on the compiler's command line; the
    bit numbers [RXEN] and [TXEN] come from the device header. *)
Variables F_CPU RXEN TXEN : Z.

(** The divisor is computed in [unsigned long] and stored in an [uint16_t]. *)
Definition uart_init (io : io_t) : io_t :=
  let baud :=
    uint16_t
      (uint32_t
         (uint32_t (uint32_t F_CPU + uint32_t (8 * BAUD_RATE))
          / uint32_t (16 * BAUD_RATE) - 1)) in
  {| DDRD := DDRD io;
     PORTD := PORTD io;
     UBRRH := uint8_t (Z.shiftr baud 8);
     UBRRL := uint8_t baud;
     UCSRB := uint8_t (Z.lor (_BV RXEN) (_BV TXEN)) |}.

(** [PIND] is the value read from the pins after the delay. *)
Definition bootloader_active (PIND : Z) (io : io_t) : bool * io_t :=
  let io :=
    {| DDRD := uint8_t (Z.lor (_BV PD5) (_BV PD6));
       PORTD := PORTD io;
       UBRRH := UBRRH io; UBRRL := UBRRL io; UCSRB := UCSRB io |} in
  let io :=
    {| DDRD := DDRD io;
       PORTD := uint8_t (Z.lor (_BV PD3) (_BV PD4));
       UBRRH := UBRRH io; UBRRL := UBRRL io; UCSRB := UCSRB io |} in
  (Z.land PIND (Z.lor (_BV PD3) (_BV PD4)) =? 0, io).

(** The firmware when [main] is entered: the globals are zero, and the
    stack holds [checksum0] and [bytes_read0] where the locals of [loop]
    will be. *)
Definition reset_firmware (checksum0 bytes_read0 : Z) (f : flash_t)
  : firmware :=
  {| state := STATE_IDLE;
     msg := {| header := [0; 0; 0];
               buffer := replicate (Z.to_nat sizeof_buffer) 0 |};
     payload_size := 0;
     checksum := checksum0;
     bytes_read := bytes_read0;
     flash := f;
     trace := [] |}.

(** The assignments of [loop] before its [for(;;)]. *)
Definition loop_enter (m : firmware) : firmware :=
  set_state STATE_IDLE (set_header [0x00; MIDI_ID; VERSION] m).

Definition main (io : io_t) (PIND : Z) (checksum0 bytes_read0 : Z)
    (f : flash_t) (input : list Z) : io_t * outcome firmware :=
  let io := uart_init io in
  let r := bootloader_active PIND io in
  let io := snd r in
  let m := reset_firmware checksum0 bytes_read0 f in
  let m := if negb (fst r) then program_main m else m in
  (io, loop_from input (loop_enter m)).

End Startup.

(** During the step from [m] to [m'] the firmware transmitted exactly one
    frame, with the given payload. *)
Definition replies (payload : list Z) (m m' : firmware) : Prop :=
  exists es, trace m' = trace m ++ es /\ uart_output es = sysex payload.

(** [m'] has the parser registers of [m]. *)
Definition same_regs (m m' : firmware) : Prop :=
  state m' = state m /\ payload_size m' = payload_size m /\
  checksum m' = checksum m /\ bytes_read m' = bytes_read m.

Section Decoding.

Context {dev : avr_io}.

(** The parser [m] after the bytes [bs] have been decoded into [msg.buffer]
    behind the [payload_size m] bytes already there. *)
Definition decoded (bs : list Z) (m : firmware) : firmware :=
  {| state := if payload_size m + Z.of_nat (length bs) =? sizeof_buffer
              then STATE_EXPECTING_END else state m;
     msg := {| header := header (msg m);
               buffer := take (Z.to_nat (payload_size m)) (buffer (msg m))
                         ++ bs
                         ++ drop (Z.to_nat (payload_size m) + length bs)
                              (buffer (msg m)) |};
     payload_size := payload_size m + Z.of_nat (length bs);
     checksum := Z.lxor (checksum m) (xor_bytes bs);
     bytes_read := bytes_read m + 2 * Z.of_nat (length bs);
     flash := flash m;
     trace := trace m |}.

(** The parser [m] once the three header bytes of a frame have matched. *)
Definition header_matched (m : firmware) : firmware :=
  set_bytes_read 0 (set_state STATE_READING_BODY m).

End Decoding.

(** The malformed input was answered by exactly one [Error] reply with the
    code [e], nothing else happened, and the parser is back in [STATE_IDLE]. *)
Definition aborts (e : error_t) (m : firmware) (o : outcome firmware) : Prop :=
  exists m', o = Ok m'
    /\ state m' = STATE_IDLE
    /\ trace m' = trace m ++ sent (sysex [REPLY_ERROR; error_value e])
    /\ flash m' = flash m.

(** Observations of an outcome. *)
Definition trace_of (o : outcome firmware) : option (list event) :=
  match o with Ok m => Some (trace m) | _ => None end.

Definition output_of (o : outcome firmware) : option (list Z) :=
  match o with Ok m => Some (uart_output (trace m)) | _ => None end.

(** A flash in which every byte is erased. *)
Definition erased_flash : flash_t :=
  {| pgm := fun _ => 0xff; page_buffer := fun _ => 0xff |}.

Section Checks.

Context {dev : avr_io}.

(** [wf], as a test. *)
Definition wf_check (m : firmware) : bool :=
  forallb (fun p => fst p =? snd p) (zip (header (msg m)) HEADER)
  && (length (header (msg m)) =? length HEADER)%nat
  && (Z.of_nat (length (buffer (msg m))) =? sizeof_buffer)
  && forallb (fun b => (0 <=? b) && (b <? 256)) (buffer (msg m)).

(** The firmware after the bytes [input], as [loop] leaves it. *)
Definition after (input : list Z) : firmware :=
  match loop 0 0 erased_flash input with
  | Ok m => m
  | _ => loop_init 0 0 erased_flash
  end.

End Checks.

(** The self-programming operations among the events. *)
Definition spm_event (e : event) : bool :=
  match e with
  | ev_page_erase _ | ev_page_fill _ _ | ev_page_write _ => true
  | _ => false
  end.

(** The reply code that answers an accepted page command. *)
Definition reply_to (command : Z) : Z :=
  if command =? COMMAND_WRITE then REPLY_SUCCESS
  else if command =? COMMAND_READ then REPLY_READ
  else REPLY_VERIFY.

Section Dispatch.

Context {dev : avr_io}.

(** Modelled from the spec: the flash range reserved for the resident
    application.  The source does not say where the bootloader resides;
    [boot_start] is the first address of its region, so a page belongs to the
    application when it starts below [boot_start]. *)
Definition in_application_range (boot_start page_no : Z) : Prop :=
  0 <= page_no * SPM_PAGESIZE < boot_start.

(** The dispatcher's table: what [process_msg] emits for the command byte
    [c], the byte [p] that follows it, the payload size [n] and the flash
    [f], in every case but that of a [Write] of the right size. *)
Definition dispatch_table (c p n : Z) (f : flash_t) : list event :=
  let error e := sent (sysex [REPLY_ERROR; error_value e]) in
  if c =? COMMAND_PING then
    if n =? 0 then sent (sysex [REPLY_SUCCESS])
    else error ERROR_INVALID_PAYLOAD_SIZE
  else if c =? COMMAND_WRITE then error ERROR_INVALID_PAYLOAD_SIZE
  else if c =? COMMAND_VERIFY then
    if n =? sizeof_page_no then
      if p <? NUM_PAGES then
        sent (sysex [REPLY_VERIFY;
                     xor_bytes (page_contents f (p * SPM_PAGESIZE))])
      else error ERROR_INVALID_PAGE_NUMBER
    else error ERROR_INVALID_PAYLOAD_SIZE
  else if c =? COMMAND_READ then
    if n =? sizeof_page_no then
      if p <? NUM_PAGES then
        sent (sysex (REPLY_READ :: page_contents f (p * SPM_PAGESIZE)))
      else error ERROR_INVALID_PAGE_NUMBER
    else error ERROR_INVALID_PAYLOAD_SIZE
  else if c =? COMMAND_QUIT then
    if n =? 0 then sent (sysex [REPLY_SUCCESS]) ++ [ev_program_main]
    else error ERROR_INVALID_PAYLOAD_SIZE
  else error ERROR_UNKNOWN_COMMAND.

End Dispatch.

Section Requests.

Context {dev : avr_io}.

(** The idle parser [m] after a start delimiter. *)
Definition frame_started (m : firmware) : firmware :=
  set_payload_size 0
    (set_bytes_read 0
       (set_checksum 0 (set_state STATE_MATCHING_HEADER m))).

(** The firmware as the dispatcher finds it when the idle parser [m] has
    received the frame [sysex payload]: the buffer holds the payload and its
    checksum, and [payload_size] counts the parameters. *)
Definition received (payload : list Z) (m : firmware) : firmware :=
  set_payload_size (Z.of_nat (length payload) - 1)
    (decoded (payload ++ [xor_bytes payload])
       (header_matched (frame_started m))).

End Requests.

(** ** Further vocabulary *)

(** The [boot_page_fill] operations that load the bytes [bytes] into the
    temporary page buffer from offset [addr] on: one little-endian word for
    every two bytes. *)
Fixpoint fill_events (addr : Z) (bytes : list Z) : list event :=
  match bytes with
  | lo :: hi :: rest =>
      ev_page_fill addr (lo + 256 * hi) :: fill_events (addr + 2) rest
  | _ => []
  end.

(** Every call of [program_main] in the trace [t] comes directly after a
    complete [Success] reply. *)
Definition jumps_after_success (t : list event) : Prop :=
  forall pre post, t = pre ++ ev_program_main :: post ->
    exists pre', pre = pre' ++ sent (sysex [REPLY_SUCCESS]).

(** The reply codes. *)
Definition is_reply_code (c : Z) : Prop :=
  c = REPLY_SUCCESS \/ c = REPLY_ERROR \/ c = REPLY_READ \/ c = REPLY_VERIFY.

(** The payload of a reply: a reply code, then bytes. *)
Definition reply_frame (payload : list Z) : Prop :=
  exists code rest,
    payload = code :: rest /\ is_reply_code code /\ Forall is_byte rest.

(** A byte that MIDI allows inside a System-Exclusive message. *)
Definition seven_bit (b : Z) : Prop := 0 <= b < 0x80.

(** Two firmware states that differ at most in the locals [checksum] and
    [bytes_read] of [loop], and in those only while the parser is idle. *)
Definition same_but_locals (m1 m2 : firmware) : Prop :=
  state m1 = state m2 /\ msg m1 = msg m2
  /\ payload_size m1 = payload_size m2
  /\ flash m1 = flash m2 /\ trace m1 = trace m2
  /\ (state m1 = STATE_IDLE
      \/ (checksum m1 = checksum m2 /\ bytes_read m1 = bytes_read m2)).

Section ProgrammingSequence.

Context {dev : avr_io}.

(** The self-programming operations of a [Write] of the page [page_no] from
    the buffer [b]: erase, fill word by word, write, re-enable the RWW
    section. *)
Definition write_events (page_no : Z) (b : list Z) : list event :=
  [ev_page_erase (page_no * SPM_PAGESIZE)]
  ++ fill_events 0
       (take (2 * Z.to_nat ((SPM_PAGESIZE + 1) / 2))
          (drop (Z.to_nat offsetof_page_data) b))
  ++ [ev_page_write (page_no * SPM_PAGESIZE); ev_rww_enable].

(** What the firmware can add to the trace while it handles one received
    byte. *)
Definition step_events (es : list event) : Prop :=
  es = []
  \/ (exists e, es = sent (sysex [REPLY_ERROR; error_value e]))
  \/ (exists c p n f, es = dispatch_table c p n f)
  \/ (exists p b, es = write_events p b ++ sent (sysex [REPLY_SUCCESS])).

End ProgrammingSequence.

(** ** Concrete requests and parser states, on an ATtiny2313 *)

(** A [Read] request for the last page of an ATtiny2313, as the parser hands
    it to the dispatcher. *)
Definition read_last_page : firmware :=
  set_payload_size 1
    (@after attiny2313
       (0xf0 :: HEADER ++ nibbles [COMMAND_READ; 63; Z.lxor COMMAND_READ 63])).

(** A [Write] request whose payload is one byte short. *)
Definition short_write : firmware :=
  set_payload_size 32
    (@after attiny2313
       (0xf0 :: HEADER
        ++ nibbles (COMMAND_WRITE :: 5 :: replicate 31 0xaa ++ [0]))).

(** The parser after [F0 00 70 01 02 01]: one byte, 0x21, is decoded. *)
Definition lone_reply_byte : firmware :=
  @after attiny2313 [0xf0; 0x00; 0x70; 0x01; 0x02; 0x01].

(** The parser after [F0 00 70 01 00 00]: one byte, 0x00, is decoded. *)
Definition lone_zero_byte : firmware :=
  @after attiny2313 [0xf0; 0x00; 0x70; 0x01; 0x00; 0x00].

(** A sender whose buffer holds the payload [22 ab cd]. *)
Definition sender : firmware :=
  set_buffer ([0x22; 0xab; 0xcd] ++ replicate 32 0)
    (@loop_init attiny2313 0 0 erased_flash).

(** A parser that has just matched a frame header. *)
Definition receiver : firmware := @after attiny2313 (0xf0 :: HEADER).

(** The data of a page: two halves of 16 bytes. *)
Definition page_3_data : list Z := replicate 16 0x12 ++ replicate 16 0xe7.

(** A [Write] frame of full length, up to its end delimiter. *)
Definition full_frame : list Z :=
  0xf0 :: HEADER
  ++ nibbles (COMMAND_WRITE :: 63 :: replicate 32 0xaa
              ++ [Z.lxor COMMAND_WRITE 63]).

(** The parser after the header and the body of a [Ping] frame. *)
Definition ping_body : firmware :=
  @after attiny2313 (0xf0 :: HEADER ++ nibbles [COMMAND_PING; COMMAND_PING]).

(** The parser that has received a whole [Write] frame but its end
    delimiter. *)
Definition full_write_pending : firmware := @after attiny2313 full_frame.

(** The firmware of an ATtiny2313 with an erased flash as [loop] starts. *)
Definition fresh : firmware := @loop_init attiny2313 0 0 erased_flash.

(** Bytes that hold no start delimiter. *)
Definition line_noise : list Z := [0x00; 0x7f; 0xf7; 0x80; 0x0a; 0xff].

(** The I/O registers after reset. *)
Definition io_reset : io_t :=
  {| DDRD := 0; PORTD := 0; UBRRH := 0; UBRRL := 0; UCSRB := 0 |}.
(** * Properties *)

Ltac fw_simpl :=
  cbn [state msg payload_size checksum bytes_read flash trace header buffer
       pgm page_buffer
       set_state set_buffer set_header set_payload_size set_checksum
       set_bytes_read set_flash emit emits bind fst snd
       uart_putc boot_page_erase boot_page_fill boot_page_write
       boot_rww_enable program_main] in *.

(** ** Fixed-width arithmetic *)

Lemma uint8_t_id b : is_byte b -> uint8_t b = b.
Proof. unfold is_byte, uint8_t. intros H. apply Z.mod_small. lia. Qed.

Lemma uint8_t_is_byte z : is_byte (uint8_t z).
Proof. unfold is_byte, uint8_t. apply Z.mod_pos_bound. lia. Qed.

Lemma uint16_t_id z : 0 <= z < 65536 -> uint16_t z = z.
Proof. unfold uint16_t. intros H. apply Z.mod_small. lia. Qed.

Lemma uint32_t_id z : 0 <= z < 4294967296 -> uint32_t z = z.
Proof. unfold uint32_t. intros H. apply Z.mod_small. lia. Qed.

Lemma int_id z : -32768 <= z < 32768 -> int z = z.
Proof. unfold int. intros H. rewrite Z.mod_small; lia. Qed.

Lemma shiftr4 b : Z.shiftr b 4 = b / 16.
Proof. now rewrite Z.shiftr_div_pow2. Qed.

Lemma land15 b : Z.land b 0x0f = b mod 16.
Proof. change 0x0f with (Z.ones 4). now rewrite Z.land_ones. Qed.

Lemma shiftl4 b : Z.shiftl b 4 = b * 16.
Proof. now rewrite Z.shiftl_mul_pow2. Qed.

Lemma byte_testbit_high a n : is_byte a -> 8 <= n -> Z.testbit a n = false.
Proof.
  unfold is_byte. intros Ha Hn.
  rewrite <- (Z.mod_small a (2 ^ 8)) by (change (2 ^ 8) with 256; lia).
  apply Z.mod_pow2_bits_high. lia.
Qed.

Lemma lxor_is_byte a b : is_byte a -> is_byte b -> is_byte (Z.lxor a b).
Proof.
  intros Ha Hb.
  assert (Hm : Z.lxor a b mod 2 ^ 8 = Z.lxor a b).
  { apply Z.bits_inj'. intros n Hn.
    destruct (Z.lt_ge_cases n 8) as [Hlt|Hge].
    - now rewrite Z.mod_pow2_bits_low.
    - rewrite Z.mod_pow2_bits_high by lia.
      rewrite Z.lxor_spec, !byte_testbit_high; auto. }
  unfold is_byte. rewrite <- Hm. change (2 ^ 8) with 256.
  apply Z.mod_pos_bound. lia.
Qed.

(** The two nibbles [send_msg] transmits for a byte are valid data bytes of a
    body, and reassembling them as [loop] does gives the byte back. *)
Lemma nibble_hi_range b : is_byte b -> 0 <= Z.shiftr b 4 <= 0xf.
Proof.
  unfold is_byte. intros H. rewrite shiftr4.
  split; [apply Z.div_pos; lia|].
  apply Z.lt_succ_r. apply Z.div_lt_upper_bound; lia.
Qed.

Lemma nibble_lo_range b : 0 <= Z.land b 0x0f <= 0xf.
Proof.
  rewrite land15. pose proof (Z.mod_pos_bound b 16). lia.
Qed.

Lemma nibble_pair b :
  is_byte b ->
  uint8_t (uint8_t (Z.shiftl (Z.shiftr b 4) 4) + Z.land b 0x0f) = b.
Proof.
  unfold is_byte. intros H.
  rewrite shiftr4, shiftl4, land15. unfold uint8_t.
  pose proof (Z.div_mod b 16 ltac:(lia)).
  pose proof (Z.mod_pos_bound b 16 ltac:(lia)).
  assert (0 <= b / 16 < 16).
  { split; [apply Z.div_pos; lia|apply Z.div_lt_upper_bound; lia]. }
  rewrite (Z.mod_small (b / 16 * 16)) by lia.
  rewrite Z.mod_small; lia.
Qed.

(** ** Arrays and traces *)

Lemma array_get_Ok (a : list Z) i v :
  0 <= i -> a !! Z.to_nat i = Some v -> array_get a i = Ok v.
Proof.
  intros Hi Hv. unfold array_get.
  destruct (Z.ltb_spec i 0); [lia|]. now rewrite Hv.
Qed.


Lemma array_set_Ok (a : list Z) i v :
  0 <= i < Z.of_nat (length a) ->
  array_set a i v = Ok (<[Z.to_nat i := v]> a).
Proof.
  intros Hi. unfold array_set.
  destruct (Z.ltb_spec i 0); [lia|].
  destruct (Nat.ltb_spec (Z.to_nat i) (length a)); [reflexivity|lia].
Qed.


Lemma emits_nil m : emits [] m = m.
Proof. destruct m. unfold emits. fw_simpl. now rewrite app_nil_r. Qed.

Lemma emits_emits es1 es2 m : emits es2 (emits es1 m) = emits (es1 ++ es2) m.
Proof. unfold emits. fw_simpl. now rewrite app_assoc. Qed.

Lemma emit_emits e m : emit e m = emits [e] m.
Proof. reflexivity. Qed.

Lemma nibbles_app a b : nibbles (a ++ b) = nibbles a ++ nibbles b.
Proof. unfold nibbles. now rewrite !flat_map_app. Qed.

Lemma xor_bytes_snoc bs b : xor_bytes (bs ++ [b]) = Z.lxor (xor_bytes bs) b.
Proof. unfold xor_bytes. now rewrite fold_left_app. Qed.

Lemma fold_lxor_from bs c : fold_left Z.lxor bs c = Z.lxor c (xor_bytes bs).
Proof.
  unfold xor_bytes. revert c.
  induction bs as [|b bs IH]; intros c; cbn [fold_left].
  - now rewrite Z.lxor_0_r.
  - rewrite (IH (Z.lxor c b)), (IH (Z.lxor 0 b)).
    now rewrite Z.lxor_0_l, Z.lxor_assoc.
Qed.

Lemma xor_bytes_is_byte bs : Forall is_byte bs -> is_byte (xor_bytes bs).
Proof.
  induction bs as [|b bs IH] using rev_ind; intros H.
  - unfold xor_bytes, is_byte. simpl. lia.
  - apply Forall_app in H as [H1 H2]. rewrite xor_bytes_snoc.
    apply lxor_is_byte; [auto|]. now inversion H2.
Qed.

Lemma xor_bytes_cons b bs : xor_bytes (b :: bs) = Z.lxor b (xor_bytes bs).
Proof.
  unfold xor_bytes at 1. cbn [fold_left].
  now rewrite fold_lxor_from, Z.lxor_0_l.
Qed.

(** ** The firmware's functions *)

Section Proofs.

Context {dev : avr_io}.

Lemma sizeof_buffer_eq : sizeof_buffer = SPM_PAGESIZE + 3.
Proof. unfold sizeof_buffer, sizeof_page_no, sizeof_command. lia. Qed.

Lemma sizeof_buffer_range : 3 < sizeof_buffer < 258.
Proof. rewrite sizeof_buffer_eq. pose proof SPM_PAGESIZE_range. lia. Qed.

Lemma get_buffer_Ok i v m :
  0 <= i -> buffer (msg m) !! Z.to_nat i = Some v -> get_buffer i m = Ok v.
Proof. apply array_get_Ok. Qed.

Lemma put_buffer_Ok i v m :
  0 <= i < Z.of_nat (length (buffer (msg m))) ->
  put_buffer i v m = Ok (set_buffer (<[Z.to_nat i := v]> (buffer (msg m))) m).
Proof.
  intros Hi. unfold put_buffer. now rewrite array_set_Ok.
Qed.

Lemma wf_lookup m i :
  wf m -> 0 <= i < sizeof_buffer ->
  exists v, buffer (msg m) !! Z.to_nat i = Some v /\ is_byte v.
Proof.
  intros [_ Hl Hb] Hi.
  destruct (lookup_lt_is_Some_2 (buffer (msg m)) (Z.to_nat i)) as [v Hv];
    [lia|].
  exists v. split; [assumption|].
  eapply Forall_lookup_1; eassumption.
Qed.

Lemma wf_msg m m' : msg m' = msg m -> wf m -> wf m'.
Proof. intros E [H1 H2 H3]. split; rewrite E; assumption. Qed.

Lemma wf_set_buffer b m :
  wf m -> Z.of_nat (length b) = sizeof_buffer -> Forall is_byte b ->
  wf (set_buffer b m).
Proof. intros [H1 H2 H3] Hl Hb. split; fw_simpl; assumption. Qed.

Lemma wf_insert i v m :
  wf m -> is_byte v -> wf (set_buffer (<[i := v]> (buffer (msg m))) m).
Proof.
  intros H Hv. apply wf_set_buffer; [assumption| |].
  - rewrite length_insert. apply H.
  - apply Forall_insert; [apply H|assumption].
Qed.

(** *** send_msg *)

Lemma UINT16_RANGE_ge (k : nat) : Z.of_nat k <= 65536 -> (k <= UINT16_RANGE)%nat.
Proof. unfold UINT16_RANGE. lia. Qed.


Lemma send_msg_loop_spec (k : nat) : forall fuel msg_size i sum m,
  (k <= fuel)%nat -> 0 <= i -> i + Z.of_nat k = msg_size ->
  msg_size < 65536 ->
  msg_size <= Z.of_nat (length (buffer (msg m))) ->
  send_msg_loop fuel msg_size i sum m =
    Ok (Z.lxor sum (xor_bytes (take k (drop (Z.to_nat i) (buffer (msg m))))),
        emits (sent (nibbles (take k (drop (Z.to_nat i) (buffer (msg m))))))
          m).
Proof.
  induction k as [|k IH]; intros fuel msg_size i sum m Hf Hi Hk Hm Hl.
  - assert (E : (i <? msg_size) = false) by (apply Z.ltb_ge; lia).
    rewrite take_0. cbn [nibbles flat_map sent map].
    rewrite emits_nil. unfold xor_bytes. cbn [fold_left]. rewrite Z.lxor_0_r.
    destruct fuel; cbn [send_msg_loop]; now rewrite E.
  - destruct fuel as [|fuel]; [lia|].
    cbn [send_msg_loop].
    assert (E : (i <? msg_size) = true) by (apply Z.ltb_lt; lia).
    rewrite E.
    destruct (lookup_lt_is_Some_2 (buffer (msg m)) (Z.to_nat i)) as [b Hb];
      [lia|].
    rewrite (get_buffer_Ok i b m) by (lia || assumption).
    fw_simpl.
    rewrite uint16_t_id by lia.
    rewrite (IH fuel msg_size (i + 1)) by (fw_simpl; lia).
    fw_simpl.
    replace (Z.to_nat (i + 1)) with (S (Z.to_nat i)) by lia.
    rewrite (drop_S _ _ _ Hb). rewrite firstn_cons.
    f_equal. f_equal.
    + now rewrite xor_bytes_cons, Z.lxor_assoc.
    + unfold emits. fw_simpl. f_equal.
      rewrite <- !app_assoc. reflexivity.
Qed.

Lemma get_header_wf i v m :
  wf m -> HEADER !! Z.to_nat i = Some v -> 0 <= i -> get_header i m = Ok v.
Proof.
  intros H Hv Hi. unfold get_header. apply array_get_Ok; [assumption|].
  now rewrite (wf_header _ H).
Qed.

Lemma send_msg_spec params_size m :
  wf m ->
  uint8_t (sizeof_command + uint8_t params_size) <= sizeof_buffer ->
  send_msg params_size m =
    Ok (emits
          (sent (sysex
             (take (Z.to_nat (uint8_t (sizeof_command + uint8_t params_size)))
                   (buffer (msg m)))))
          m).
Proof.
  intros H Hn. unfold send_msg.
  set (n := uint8_t (sizeof_command + uint8_t params_size)) in *.
  assert (Hn' : 0 <= n < 256) by apply uint8_t_is_byte.
  rewrite (get_header_wf 0 0) by (reflexivity || lia || (eapply wf_msg; [|exact H]; reflexivity)).
  fw_simpl.
  rewrite (get_header_wf 1 MIDI_ID) by (reflexivity || lia || (eapply wf_msg; [|exact H]; reflexivity)).
  fw_simpl.
  rewrite (get_header_wf 2 VERSION) by (reflexivity || lia || (eapply wf_msg; [|exact H]; reflexivity)).
  fw_simpl.
  rewrite (send_msg_loop_spec (Z.to_nat n));
    [|apply UINT16_RANGE_ge; lia|lia|lia|lia
     |fw_simpl; rewrite (wf_length _ H); lia].
  fw_simpl. rewrite drop_0, Z.lxor_0_l.
  unfold uart_putc. rewrite !emit_emits, !emits_emits.
  f_equal. f_equal.
  unfold sysex. rewrite nibbles_app. unfold sent, HEADER.
  cbn [nibbles flat_map map app].
  rewrite !List.map_app. cbn [map app].
  rewrite <- !app_assoc. reflexivity.
Qed.


(** *** The replies *)

Lemma take1_insert0 (b : list Z) c :
  (1 <= length b)%nat -> take 1 (<[0%nat := c]> b) = [c].
Proof. destruct b as [|b0 b]; cbn; [lia|reflexivity]. Qed.

Lemma take2_insert01 (b : list Z) c e :
  (2 <= length b)%nat ->
  take 2 (<[1%nat := e]> (<[0%nat := c]> b)) = [c; e].
Proof. destruct b as [|b0 [|b1 b]]; cbn; (lia || reflexivity). Qed.

Lemma reply_success_spec m :
  wf m ->
  reply_success m =
    Ok (emits (sent (sysex [REPLY_SUCCESS]))
          (set_buffer (<[0%nat := REPLY_SUCCESS]> (buffer (msg m))) m)).
Proof.
  intros H. pose proof sizeof_buffer_range as Hs.
  pose proof (wf_length _ H) as Hl.
  unfold reply_success.
  rewrite put_buffer_Ok by (unfold offsetof_command; lia).
  fw_simpl. change (Z.to_nat offsetof_command) with 0%nat.
  assert (Hw : wf (set_buffer (<[0%nat := REPLY_SUCCESS]> (buffer (msg m))) m)).
  { apply wf_insert; [assumption|]. unfold is_byte, REPLY_SUCCESS. lia. }
  rewrite send_msg_spec; [|assumption|].
  - change (Z.to_nat (uint8_t (sizeof_command + uint8_t 0))) with 1%nat.
    fw_simpl. rewrite take1_insert0 by lia. reflexivity.
  - change (uint8_t (sizeof_command + uint8_t 0)) with 1. lia.
Qed.

Lemma reply_error_spec error m :
  wf m ->
  reply_error error m =
    Ok (emits (sent (sysex [REPLY_ERROR; uint8_t error]))
          (set_buffer
             (<[1%nat := uint8_t error]>
                (<[0%nat := REPLY_ERROR]> (buffer (msg m)))) m)).
Proof.
  intros H. pose proof sizeof_buffer_range as Hs.
  pose proof (wf_length _ H) as Hl.
  unfold reply_error.
  rewrite put_buffer_Ok by (unfold offsetof_command; lia).
  fw_simpl. change (Z.to_nat offsetof_command) with 0%nat.
  rewrite put_buffer_Ok
    by (fw_simpl; rewrite length_insert; unfold offsetof_error; lia).
  fw_simpl. change (Z.to_nat offsetof_error) with 1%nat.
  match goal with |- send_msg _ ?m1 = _ => assert (Hw : wf m1) end.
  { apply (wf_insert 1%nat _ (set_buffer _ m));
      [apply wf_insert; [assumption|]|apply uint8_t_is_byte].
    unfold is_byte, REPLY_ERROR. lia. }
  rewrite send_msg_spec; [|assumption|].
  - change (Z.to_nat (uint8_t (sizeof_command + uint8_t sizeof_error)))
      with 2%nat.
    fw_simpl. rewrite take2_insert01 by lia. reflexivity.
  - change (uint8_t (sizeof_command + uint8_t sizeof_error)) with 2. lia.
Qed.

Lemma reply_data_spec command data_size m :
  wf m -> is_byte command -> 0 <= data_size < 255 ->
  data_size + 1 <= sizeof_buffer ->
  reply_data command data_size m =
    Ok (emits
          (sent (sysex (command ::
             take (Z.to_nat data_size) (drop 1 (buffer (msg m))))))
          (set_buffer (<[0%nat := command]> (buffer (msg m))) m)).
Proof.
  intros H Hc Hd Hs. pose proof (wf_length _ H) as Hl.
  unfold reply_data.
  rewrite put_buffer_Ok by (unfold offsetof_command; lia).
  fw_simpl. change (Z.to_nat offsetof_command) with 0%nat.
  rewrite (uint8_t_id command) by assumption.
  assert (Hw : wf (set_buffer (<[0%nat := command]> (buffer (msg m))) m)).
  { now apply wf_insert. }
  assert (E : uint8_t (sizeof_command + uint8_t (uint16_t data_size))
              = data_size + 1).
  { rewrite uint16_t_id by lia.
    rewrite (uint8_t_id data_size) by (unfold is_byte; lia).
    unfold sizeof_command. rewrite uint8_t_id by (unfold is_byte; lia). lia. }
  rewrite send_msg_spec; [|assumption|rewrite E; lia].
  rewrite E. fw_simpl.
  replace (Z.to_nat (data_size + 1)) with (S (Z.to_nat data_size)) by lia.
  destruct (buffer (msg m)) as [|b0 b]; [cbn in Hl; lia|].
  reflexivity.
Qed.


(** *** Page addresses *)

Lemma NUM_PAGES_bound p :
  0 <= p < NUM_PAGES -> p * SPM_PAGESIZE + SPM_PAGESIZE <= FLASHEND + 1.
Proof.
  intros Hp. unfold NUM_PAGES in Hp.
  pose proof SPM_PAGESIZE_range as Hs.
  pose proof (Z.mul_div_le (FLASHEND + 1) SPM_PAGESIZE (proj1 Hs)).
  nia.
Qed.

Lemma NUM_PAGES_iff p :
  0 <= p ->
  (p < NUM_PAGES <-> p * SPM_PAGESIZE + SPM_PAGESIZE <= FLASHEND + 1).
Proof.
  intros Hp. pose proof SPM_PAGESIZE_range as Hs. split.
  - intros H. apply NUM_PAGES_bound. lia.
  - intros H. unfold NUM_PAGES.
    apply Z.lt_le_trans with (m := (p * SPM_PAGESIZE + SPM_PAGESIZE) / SPM_PAGESIZE).
    + replace (p * SPM_PAGESIZE + SPM_PAGESIZE) with ((p + 1) * SPM_PAGESIZE) by ring.
      rewrite Z.div_mul by lia. lia.
    + apply Z.div_le_mono; lia.
Qed.

Lemma page_address_spec p m :
  buffer (msg m) !! 1%nat = Some p -> 0 <= p < NUM_PAGES ->
  page_address m = Ok (p * SPM_PAGESIZE).
Proof.
  intros Hp Hr. unfold page_address.
  rewrite (get_buffer_Ok offsetof_page_no p) by (unfold offsetof_page_no; (lia || assumption)).
  fw_simpl. f_equal.
  pose proof (NUM_PAGES_bound p Hr). pose proof FLASHEND_range.
  pose proof SPM_PAGESIZE_range.
  rewrite int_id by nia. apply uint32_t_id. nia.
Qed.

Lemma same_page_mul p a :
  0 <= p -> same_page a (p * SPM_PAGESIZE) = (a / SPM_PAGESIZE =? p).
Proof.
  intros Hp. unfold same_page. pose proof SPM_PAGESIZE_range.
  now rewrite Z.div_mul by lia.
Qed.

Lemma same_page_offset p o :
  0 <= o < SPM_PAGESIZE ->
  same_page (p * SPM_PAGESIZE + o) (p * SPM_PAGESIZE) = true
  /\ (p * SPM_PAGESIZE + o) mod SPM_PAGESIZE = o.
Proof.
  intros Ho. unfold same_page. pose proof SPM_PAGESIZE_range.
  rewrite Z.div_mul by lia.
  rewrite (Z.add_comm (p * _)), Z.div_add, Z_mod_plus_full by lia.
  rewrite Z.div_small, Z.mod_small by lia. split; [apply Z.eqb_eq; lia|lia].
Qed.

(** *** command_write *)

Lemma word_of_bytes lo hi :
  is_byte lo -> is_byte hi ->
  uint16_t (uint16_t lo + int (Z.shiftl hi 8)) = lo + 256 * hi.
Proof.
  unfold is_byte, uint16_t, int. intros Hl Hh.
  rewrite Z.shiftl_mul_pow2 by lia. change (2 ^ 8) with 256.
  rewrite (Z.mod_small lo) by lia.
  Z.div_mod_to_equations. lia.
Qed.

Lemma word_lo lo hi :
  is_byte lo -> is_byte hi -> Z.land (lo + 256 * hi) 0xff = lo.
Proof.
  unfold is_byte. intros Hl Hh. change 0xff with (Z.ones 8).
  rewrite Z.land_ones by lia. change (2 ^ 8) with 256.
  replace (lo + 256 * hi) with (lo + hi * 256) by lia.
  rewrite Z_mod_plus_full. apply Z.mod_small. lia.
Qed.

Lemma word_hi lo hi :
  is_byte lo -> is_byte hi -> Z.shiftr (lo + 256 * hi) 8 = hi.
Proof.
  unfold is_byte. intros Hl Hh.
  rewrite Z.shiftr_div_pow2 by lia. change (2 ^ 8) with 256.
  replace (lo + 256 * hi) with (hi * 256 + lo) by lia.
  rewrite Z.div_add_l by lia.
  rewrite Z.div_small; lia.
Qed.

Lemma land_erased v : is_byte v -> Z.land 0xff v = v.
Proof.
  unfold is_byte. intros H. rewrite Z.land_comm. change 0xff with (Z.ones 8).
  rewrite Z.land_ones by lia. apply Z.mod_small. change (2 ^ 8) with 256. lia.
Qed.

Lemma command_write_loop_spec (k : nat) : forall fuel addr m,
  wf m -> (k <= fuel)%nat -> 0 <= addr ->
  SPM_PAGESIZE <= addr + 2 * Z.of_nat k < SPM_PAGESIZE + 2 ->
  exists f es,
    command_write_loop fuel addr (offsetof_page_data + addr) m =
      Ok (emits es (set_flash f m))
    /\ uart_output es = []
    /\ pgm f = pgm (flash m)
    /\ (forall o, addr <= o < addr + 2 * Z.of_nat k ->
          buffer (msg m) !! Z.to_nat (offsetof_page_data + o)
          = Some (page_buffer f o))
    /\ (forall o, o < addr -> page_buffer f o = page_buffer (flash m) o).
Proof.
  pose proof SPM_PAGESIZE_range as Hs.
  pose proof sizeof_buffer_eq as Hsz.
  induction k as [|k IH]; intros fuel addr m H Hf Ha Hk.
  - exists (flash m), [].
    assert (E : (addr <? SPM_PAGESIZE) = false) by (apply Z.ltb_ge; lia).
    split; [|split; [reflexivity|split; [reflexivity|split; [lia|reflexivity]]]].
    destruct m. unfold emits, set_flash. fw_simpl. rewrite app_nil_r.
    destruct fuel; cbn [command_write_loop]; now rewrite E.
  - destruct fuel as [|fuel]; [lia|].
    cbn [command_write_loop].
    assert (E : (addr <? SPM_PAGESIZE) = true) by (apply Z.ltb_lt; lia).
    rewrite E. unfold offsetof_page_data in *.
    destruct (wf_lookup m (2 + addr) H ltac:(lia)) as (lo & Hlo & Blo).
    destruct (wf_lookup m (2 + addr + 1) H ltac:(lia)) as (hi & Hhi & Bhi).
    rewrite (get_buffer_Ok _ lo) by (lia || assumption). fw_simpl.
    rewrite (get_buffer_Ok _ hi) by (lia || assumption). fw_simpl.
    rewrite word_of_bytes by assumption.
    rewrite uint16_t_id by lia.
    set (m1 := boot_page_fill _ _ _).
    assert (H1 : wf m1) by (eapply wf_msg; [|exact H]; reflexivity).
    destruct (IH fuel (addr + 2) m1 H1 ltac:(lia) ltac:(lia) ltac:(lia))
      as (f & es & Hrun & Hes & Hpgm & Hin & Hout).
    replace (2 + addr + 2) with (2 + (addr + 2)) by lia.
    rewrite Hrun.
    exists f, (ev_page_fill addr (lo + 256 * hi) :: es).
    split; [|split; [exact Hes|split; [exact Hpgm|split]]].
    + unfold m1, boot_page_fill, emits, set_flash, emit. fw_simpl.
      now rewrite <- app_assoc.
    + intros o Ho.
      destruct (Z.lt_ge_cases o (addr + 2)) as [Hlt|Hge].
      * rewrite (Hout o Hlt). subst m1. fw_simpl. unfold flash_fill. fw_simpl.
        destruct (Z.eqb_spec o addr) as [->|Hne].
        { rewrite word_lo by assumption. exact Hlo. }
        destruct (Z.eqb_spec o (addr + 1)) as [->|Hne'].
        { rewrite word_hi by assumption.
          replace (2 + (addr + 1)) with (2 + addr + 1) by lia. exact Hhi. }
        lia.
      * apply (Hin o). lia.
    + intros o Ho. rewrite (Hout o) by lia.
      subst m1. fw_simpl. unfold flash_fill. fw_simpl.
      destruct (Z.eqb_spec o addr); [lia|].
      destruct (Z.eqb_spec o (addr + 1)); [lia|reflexivity].
Qed.


Lemma uart_output_app a b : uart_output (a ++ b) = uart_output a ++ uart_output b.
Proof. unfold uart_output. apply flat_map_app. Qed.

Lemma uart_output_sent bs : uart_output (sent bs) = bs.
Proof.
  induction bs as [|b bs IH]; [reflexivity|].
  cbn. f_equal. exact IH.
Qed.

Lemma command_write_spec p m :
  wf m -> buffer (msg m) !! 1%nat = Some p -> 0 <= p < NUM_PAGES ->
  exists f es,
    command_write m = Ok (emits es (set_flash f m))
    /\ uart_output es = []
    /\ head es = Some (ev_page_erase (p * SPM_PAGESIZE))
    /\ (forall o v, 0 <= o < SPM_PAGESIZE ->
          buffer (msg m) !! Z.to_nat (offsetof_page_data + o) = Some v ->
          pgm f (p * SPM_PAGESIZE + o) = v)
    /\ (forall a, a / SPM_PAGESIZE <> p -> pgm f a = pgm (flash m) a).
Proof.
  intros H Hp Hr. pose proof SPM_PAGESIZE_range as Hs.
  unfold command_write. rewrite (page_address_spec p) by assumption.
  fw_simpl.
  set (page := p * SPM_PAGESIZE).
  set (m0 := boot_page_erase page m).
  assert (H0 : wf m0) by (eapply wf_msg; [|exact H]; reflexivity).
  set (k := Z.to_nat ((SPM_PAGESIZE + 1) / 2)).
  assert (Hk : SPM_PAGESIZE <= 0 + 2 * Z.of_nat k < SPM_PAGESIZE + 2).
  { unfold k. rewrite Z2Nat.id by (apply Z.div_pos; lia).
    Z.div_mod_to_equations. lia. }
  destruct (command_write_loop_spec k UINT16_RANGE 0 m0 H0)
    as (f & es & Hrun & Hes & Hpgm & Hin & _);
    [apply UINT16_RANGE_ge; lia|lia|exact Hk|].
  change (offsetof_page_data + 0) with offsetof_page_data in Hrun.
  rewrite Hrun. fw_simpl.
  exists (flash_write page f),
    (ev_page_erase page :: es ++ [ev_page_write page; ev_rww_enable]).
  split; [|split; [|split; [reflexivity|split]]].
  - unfold boot_rww_enable, boot_page_write, m0, boot_page_erase,
      emits, emit, set_flash. fw_simpl.
    rewrite <- !app_assoc. reflexivity.
  - change (ev_page_erase page :: es ++ [ev_page_write page; ev_rww_enable])
      with ([ev_page_erase page] ++ es ++ [ev_page_write page; ev_rww_enable]).
    rewrite !uart_output_app, Hes. reflexivity.
  - intros o v Ho Hv.
    destruct (same_page_offset p o Ho) as [Esame Emod].
    unfold flash_write. fw_simpl. unfold page. rewrite Esame, Emod, Hpgm.
    unfold m0. fw_simpl. unfold flash_erase. fw_simpl.
    unfold page. rewrite Esame.
    assert (Hv' : page_buffer f o = v).
    { specialize (Hin o ltac:(lia)). fw_simpl.
      unfold m0 in Hin. fw_simpl. congruence. }
    rewrite Hv'. apply land_erased.
    destruct H as [_ _ Hb]. eapply Forall_lookup_1; eassumption.
  - intros a Ha. unfold flash_write. fw_simpl.
    unfold page. rewrite same_page_mul by lia.
    destruct (Z.eqb_spec (a / SPM_PAGESIZE) p) as [|_]; [contradiction|].
    rewrite Hpgm. unfold m0. fw_simpl. unfold flash_erase. fw_simpl.
    unfold page. rewrite same_page_mul by lia.
    destruct (Z.eqb_spec (a / SPM_PAGESIZE) p) as [|_]; [contradiction|].
    reflexivity.
Qed.

(** *** command_read *)

Lemma set_buffer_id m : set_buffer (buffer (msg m)) m = m.
Proof. destruct m as [s [h b] ps c br f t]. reflexivity. Qed.

Lemma command_read_loop_spec (k : nat) : forall fuel page addr i m,
  wf m -> (k <= fuel)%nat -> 0 <= page -> 0 <= addr ->
  addr + Z.of_nat k = page + SPM_PAGESIZE -> page + SPM_PAGESIZE < 65536 ->
  0 <= i -> i + Z.of_nat k <= sizeof_buffer ->
  command_read_loop fuel page addr i m =
    Ok (set_buffer
          (take (Z.to_nat i) (buffer (msg m))
           ++ map (fun a => uint8_t (pgm (flash m) a)) (seqZ addr (Z.of_nat k))
           ++ drop (Z.to_nat i + k) (buffer (msg m))) m).
Proof.
  pose proof SPM_PAGESIZE_range as Hs.
  induction k as [|k IH]; intros fuel page addr i m H Hf Hp Ha Hk Hlim Hi Hik.
  - assert (E : (addr <? uint32_t (page + SPM_PAGESIZE)) = false).
    { rewrite uint32_t_id by lia. apply Z.ltb_ge. lia. }
    rewrite seqZ_nil by lia. cbn [map app].
    rewrite Nat.add_0_r, take_drop, set_buffer_id.
    destruct fuel; cbn [command_read_loop]; now rewrite E.
  - destruct fuel as [|fuel]; [lia|].
    cbn [command_read_loop].
    assert (E : (addr <? uint32_t (page + SPM_PAGESIZE)) = true).
    { rewrite uint32_t_id by lia. apply Z.ltb_lt. lia. }
    rewrite E.
    pose proof (wf_length _ H) as Hl.
    rewrite put_buffer_Ok by lia. fw_simpl.
    rewrite uint16_t_id by lia.
    set (v := pgm_read_byte addr m).
    assert (H1 : wf (set_buffer (<[Z.to_nat i := v]> (buffer (msg m))) m)).
    { apply wf_insert; [assumption|apply uint8_t_is_byte]. }
    rewrite IH by (assumption || lia). fw_simpl.
    f_equal. unfold set_buffer. fw_simpl. f_equal. f_equal.
    rewrite (seqZ_cons addr) by lia. cbn [map].
    replace (Z.pred (Z.of_nat (S k))) with (Z.of_nat k) by lia.
    replace (Z.succ addr) with (addr + 1) by lia.
    replace (Z.to_nat (i + 1)) with (S (Z.to_nat i)) by lia.
    rewrite (take_S_r _ _ v) by (apply list_lookup_insert_eq; lia).
    rewrite take_insert_ge by lia.
    rewrite drop_insert_lt by lia.
    rewrite <- app_assoc. cbn [app].
    replace (S (Z.to_nat i) + k)%nat with (Z.to_nat i + S k)%nat by lia.
    reflexivity.
Qed.

Lemma command_read_spec p m :
  wf m -> buffer (msg m) !! 1%nat = Some p -> 0 <= p < NUM_PAGES ->
  command_read m =
    Ok (set_buffer
          (take 1 (buffer (msg m))
           ++ page_contents (flash m) (p * SPM_PAGESIZE)
           ++ drop (1 + Z.to_nat SPM_PAGESIZE) (buffer (msg m))) m).
Proof.
  intros H Hp Hr. pose proof SPM_PAGESIZE_range as Hs.
  pose proof (NUM_PAGES_bound p Hr). pose proof FLASHEND_range.
  pose proof sizeof_buffer_eq.
  unfold command_read. rewrite (page_address_spec p) by assumption.
  fw_simpl. rewrite uint16_t_id by nia.
  rewrite (command_read_loop_spec (Z.to_nat SPM_PAGESIZE));
    [|assumption|apply UINT16_RANGE_ge; lia|nia|nia|lia|lia
     |unfold offsetof_page_no; lia|unfold offsetof_page_no; lia].
  unfold page_contents. rewrite Z2Nat.id by lia. reflexivity.
Qed.

(** *** command_verify *)

Lemma command_verify_loop_spec (k : nat) : forall fuel page addr c m,
  wf m -> (k <= fuel)%nat -> 0 <= page -> 0 <= addr ->
  addr + Z.of_nat k = page + SPM_PAGESIZE -> page + SPM_PAGESIZE < 65536 ->
  buffer (msg m) !! 1%nat = Some c ->
  command_verify_loop fuel page addr m =
    Ok (set_buffer
          (<[1%nat :=
               Z.lxor c (xor_bytes
                 (map (fun a => uint8_t (pgm (flash m) a))
                    (seqZ addr (Z.of_nat k))))]>
             (buffer (msg m))) m).
Proof.
  pose proof SPM_PAGESIZE_range as Hs. pose proof sizeof_buffer_range as Hsz.
  induction k as [|k IH]; intros fuel page addr c m H Hf Hp Ha Hk Hlim Hc.
  - assert (E : (addr <? uint32_t (page + SPM_PAGESIZE)) = false).
    { rewrite uint32_t_id by lia. apply Z.ltb_ge. lia. }
    rewrite seqZ_nil by lia. cbn [map]. unfold xor_bytes. cbn [fold_left].
    rewrite Z.lxor_0_r, list_insert_id by assumption.
    rewrite set_buffer_id.
    destruct fuel; cbn [command_verify_loop]; now rewrite E.
  - destruct fuel as [|fuel]; [lia|].
    cbn [command_verify_loop].
    assert (E : (addr <? uint32_t (page + SPM_PAGESIZE)) = true).
    { rewrite uint32_t_id by lia. apply Z.ltb_lt. lia. }
    rewrite E.
    pose proof (wf_length _ H) as Hl.
    rewrite (get_buffer_Ok offsetof_checksum c)
      by (unfold offsetof_checksum; (lia || assumption)).
    fw_simpl.
    rewrite put_buffer_Ok by (unfold offsetof_checksum; lia). fw_simpl.
    change (Z.to_nat offsetof_checksum) with 1%nat.
    rewrite uint16_t_id by lia.
    set (v := pgm_read_byte addr m).
    assert (Bc : is_byte c).
    { destruct H as [_ _ Hb]. eapply Forall_lookup_1; eassumption. }
    assert (H1 : wf (set_buffer (<[1%nat := Z.lxor c v]> (buffer (msg m))) m)).
    { apply wf_insert; [assumption|].
      apply lxor_is_byte; [assumption|apply uint8_t_is_byte]. }
    rewrite (IH fuel page (addr + 1) (Z.lxor c v));
      [|assumption|lia|lia|lia|lia|lia
       |fw_simpl; apply list_lookup_insert_eq; lia].
    fw_simpl. f_equal. unfold set_buffer. fw_simpl. f_equal. f_equal.
    rewrite list_insert_insert_eq. f_equal.
    rewrite (seqZ_cons addr) by lia. cbn [map].
    replace (Z.pred (Z.of_nat (S k))) with (Z.of_nat k) by lia.
    replace (Z.succ addr) with (addr + 1) by lia.
    rewrite xor_bytes_cons, Z.lxor_assoc. reflexivity.
Qed.

Lemma command_verify_spec p m :
  wf m -> buffer (msg m) !! 1%nat = Some p -> 0 <= p < NUM_PAGES ->
  command_verify m =
    Ok (set_buffer
          (<[1%nat := xor_bytes (page_contents (flash m) (p * SPM_PAGESIZE))]>
             (buffer (msg m))) m).
Proof.
  intros H Hp Hr. pose proof SPM_PAGESIZE_range as Hs.
  pose proof (NUM_PAGES_bound p Hr). pose proof FLASHEND_range.
  pose proof sizeof_buffer_range. pose proof (wf_length _ H) as Hl.
  unfold command_verify. rewrite (page_address_spec p) by assumption.
  fw_simpl.
  rewrite put_buffer_Ok by (unfold offsetof_checksum; lia). fw_simpl.
  change (Z.to_nat offsetof_checksum) with 1%nat.
  rewrite uint16_t_id by nia.
  rewrite (command_verify_loop_spec (Z.to_nat SPM_PAGESIZE) _ _ _ 0);
    [|apply wf_insert; [assumption|unfold is_byte; lia]
     |apply UINT16_RANGE_ge; lia|nia|nia|lia|lia
     |fw_simpl; apply list_lookup_insert_eq; lia].
  fw_simpl. unfold page_contents, set_buffer. fw_simpl.
  rewrite list_insert_insert_eq, Z.lxor_0_l, Z2Nat.id by lia. reflexivity.
Qed.


(** *** process_msg *)

Lemma replies_sent payload m m' :
  trace m' = trace m ++ sent (sysex payload) -> replies payload m m'.
Proof. intros E. eexists. split; [exact E|apply uart_output_sent]. Qed.

Lemma reply_error_props error m :
  wf m ->
  exists m', reply_error error m = Ok m'
    /\ wf m' /\ same_regs m m' /\ flash m' = flash m
    /\ trace m' = trace m ++ sent (sysex [REPLY_ERROR; uint8_t error]).
Proof.
  intros H. rewrite reply_error_spec by assumption.
  eexists. split; [reflexivity|].
  split; [|repeat split].
  eapply wf_msg; [|apply (wf_insert 1%nat (uint8_t error));
    [apply (wf_insert 0%nat REPLY_ERROR); [exact H|]|apply uint8_t_is_byte]].
  - reflexivity.
  - unfold is_byte, REPLY_ERROR. lia.
Qed.

Lemma reply_success_props m :
  wf m ->
  exists m', reply_success m = Ok m'
    /\ wf m' /\ same_regs m m' /\ flash m' = flash m
    /\ trace m' = trace m ++ sent (sysex [REPLY_SUCCESS]).
Proof.
  intros H. rewrite reply_success_spec by assumption.
  eexists. split; [reflexivity|].
  split; [|repeat split].
  eapply wf_msg; [|apply (wf_insert 0%nat REPLY_SUCCESS); [exact H|]].
  - reflexivity.
  - unfold is_byte, REPLY_SUCCESS. lia.
Qed.


Lemma process_msg_command command m :
  buffer (msg m) !! 0%nat = Some command ->
  process_msg m =
  if command =? COMMAND_PING then
    CHECK (payload_size m =? 0) ERROR_INVALID_PAYLOAD_SIZE m
      (reply_success m)
  else if command =? COMMAND_WRITE then
    CHECK (payload_size m =? SPM_PAGESIZE + sizeof_page_no)
      ERROR_INVALID_PAYLOAD_SIZE m
      (page_no <- get_buffer offsetof_page_no m ;;
       CHECK (page_no <? NUM_PAGES) ERROR_INVALID_PAGE_NUMBER m
         (m <- command_write m ;;
          reply_success m))
  else if command =? COMMAND_VERIFY then
    CHECK (payload_size m =? sizeof_page_no) ERROR_INVALID_PAYLOAD_SIZE m
      (page_no <- get_buffer offsetof_page_no m ;;
       CHECK (page_no <? NUM_PAGES) ERROR_INVALID_PAGE_NUMBER m
         (m <- command_verify m ;;
          reply_data REPLY_VERIFY 1 m))
  else if command =? COMMAND_READ then
    CHECK (payload_size m =? sizeof_page_no) ERROR_INVALID_PAYLOAD_SIZE m
      (page_no <- get_buffer offsetof_page_no m ;;
       CHECK (page_no <? NUM_PAGES) ERROR_INVALID_PAGE_NUMBER m
         (m <- command_read m ;;
          reply_data REPLY_READ SPM_PAGESIZE m))
  else if command =? COMMAND_QUIT then
    CHECK (payload_size m =? 0) ERROR_INVALID_PAYLOAD_SIZE m
      (m <- reply_success m ;;
       Ok (program_main m))
  else
    reply_error (error_value ERROR_UNKNOWN_COMMAND) m.
Proof.
  intros Hc. unfold process_msg.
  rewrite (get_buffer_Ok offsetof_command command)
    by (unfold offsetof_command; (lia || assumption)).
  reflexivity.
Qed.

(** The page commands, once the size check has passed. *)

Lemma write_page_spec p m :
  wf m -> buffer (msg m) !! 1%nat = Some p -> 0 <= p < NUM_PAGES ->
  exists f es,
    (m <- command_write m ;; reply_success m) =
      Ok (emits (es ++ sent (sysex [REPLY_SUCCESS]))
            (set_buffer (<[0%nat := REPLY_SUCCESS]> (buffer (msg m)))
               (set_flash f m)))
    /\ uart_output es = []
    /\ head es = Some (ev_page_erase (p * SPM_PAGESIZE))
    /\ (forall o v, 0 <= o < SPM_PAGESIZE ->
          buffer (msg m) !! Z.to_nat (offsetof_page_data + o) = Some v ->
          pgm f (p * SPM_PAGESIZE + o) = v)
    /\ (forall a, a / SPM_PAGESIZE <> p -> pgm f a = pgm (flash m) a).
Proof.
  intros H Hp Hr.
  destruct (command_write_spec p m H Hp Hr)
    as (f & es & Hrun & Hes & Hhd & Hin & Hout).
  exists f, es. rewrite Hrun. fw_simpl.
  rewrite reply_success_spec
    by (eapply wf_msg; [|exact H]; reflexivity).
  split; [|auto].
  f_equal. unfold emits, set_buffer, set_flash. fw_simpl.
  now rewrite app_assoc.
Qed.

Lemma read_page_spec p m :
  wf m -> buffer (msg m) !! 1%nat = Some p -> 0 <= p < NUM_PAGES ->
  exists b,
    (m <- command_read m ;; reply_data REPLY_READ SPM_PAGESIZE m) =
      Ok (emits
            (sent (sysex (REPLY_READ ::
                            page_contents (flash m) (p * SPM_PAGESIZE))))
            (set_buffer b m))
    /\ Z.of_nat (length b) = sizeof_buffer /\ Forall is_byte b.
Proof.
  intros H Hp Hr. pose proof SPM_PAGESIZE_range as Hs.
  pose proof sizeof_buffer_eq as Hsz. pose proof (wf_length _ H) as Hl.
  rewrite (command_read_spec p) by assumption. fw_simpl.
  set (pc := page_contents (flash m) (p * SPM_PAGESIZE)).
  assert (Lpc : length pc = Z.to_nat SPM_PAGESIZE).
  { unfold pc, page_contents. now rewrite length_map, length_seqZ. }
  assert (Bpc : Forall is_byte pc).
  { unfold pc, page_contents. apply Forall_forall. intros x Hx.
    apply list_elem_of_In, in_map_iff in Hx. destruct Hx as (a & <- & _).
    apply uint8_t_is_byte. }
  set (b1 := take 1 (buffer (msg m)) ++ pc
             ++ drop (1 + Z.to_nat SPM_PAGESIZE) (buffer (msg m))).
  assert (Lb1 : Z.of_nat (length b1) = sizeof_buffer).
  { unfold b1. rewrite !length_app, length_take, length_drop, Lpc. lia. }
  assert (Bb1 : Forall is_byte b1).
  { unfold b1. destruct H as [_ _ Hb].
    repeat apply Forall_app_2; auto using Forall_take, Forall_drop. }
  assert (H1 : wf (set_buffer b1 m)) by now apply wf_set_buffer.
  rewrite reply_data_spec;
    [|assumption|unfold is_byte, REPLY_READ; lia|lia|lia].
  fw_simpl. eexists. split.
  - f_equal. f_equal. f_equal. f_equal. f_equal.
    unfold b1. destruct (buffer (msg m)) as [|b0 b]; [cbn in Hl; lia|].
    cbn [take app drop]. rewrite take_0. cbn [app].
    rewrite <- Lpc. apply take_app_length.
  - split.
    + rewrite length_insert. exact Lb1.
    + apply Forall_insert; [exact Bb1|unfold is_byte, REPLY_READ; lia].
Qed.

Lemma verify_page_spec p m :
  wf m -> buffer (msg m) !! 1%nat = Some p -> 0 <= p < NUM_PAGES ->
  (m <- command_verify m ;; reply_data REPLY_VERIFY 1 m) =
    Ok (emits
          (sent (sysex [REPLY_VERIFY;
                        xor_bytes (page_contents (flash m) (p * SPM_PAGESIZE))]))
          (set_buffer
             (<[0%nat := REPLY_VERIFY]>
                (<[1%nat := xor_bytes
                     (page_contents (flash m) (p * SPM_PAGESIZE))]>
                   (buffer (msg m)))) m)).
Proof.
  intros H Hp Hr. pose proof SPM_PAGESIZE_range as Hs.
  pose proof sizeof_buffer_range as Hsz. pose proof (wf_length _ H) as Hl.
  rewrite (command_verify_spec p) by assumption. fw_simpl.
  set (x := xor_bytes (page_contents (flash m) (p * SPM_PAGESIZE))).
  assert (Bx : is_byte x).
  { apply xor_bytes_is_byte. unfold page_contents.
    apply Forall_forall. intros y Hy.
    apply list_elem_of_In, in_map_iff in Hy. destruct Hy as (a & <- & _).
    apply uint8_t_is_byte. }
  assert (H1 : wf (set_buffer (<[1%nat := x]> (buffer (msg m))) m))
    by now apply wf_insert.
  rewrite reply_data_spec;
    [|assumption|unfold is_byte, REPLY_VERIFY; lia|lia|lia].
  fw_simpl. f_equal. f_equal. f_equal. f_equal. f_equal.
  destruct (buffer (msg m)) as [|b0 [|b1 b]]; cbn in Hl; try lia.
  reflexivity.
Qed.

Lemma process_msg_total m :
  wf m -> exists m', process_msg m = Ok m' /\ wf m' /\ same_regs m m'.
Proof.
  intros H. pose proof sizeof_buffer_range as Hsz.
  destruct (wf_lookup m 0 H ltac:(lia)) as (command & Hc & Bc).
  destruct (wf_lookup m 1 H ltac:(lia)) as (p & Hp & Bp).
  change (Z.to_nat 0) with 0%nat in Hc. change (Z.to_nat 1) with 1%nat in Hp.
  assert (Gp : get_buffer offsetof_page_no m = Ok p)
    by (apply get_buffer_Ok; [unfold offsetof_page_no; lia|exact Hp]).
  assert (Err : forall e, exists m',
             reply_error e m = Ok m' /\ wf m' /\ same_regs m m').
  { intros e. destruct (reply_error_props e m H) as (m' & ? & ? & ? & _).
    eauto. }
  assert (Suc : exists m',
             reply_success m = Ok m' /\ wf m' /\ same_regs m m').
  { destruct (reply_success_props m H) as (m' & ? & ? & ? & _). eauto. }
  rewrite (process_msg_command command) by assumption.
  unfold CHECK.
  destruct (command =? COMMAND_PING).
  { destruct (payload_size m =? 0); cbn [negb]; auto. }
  destruct (command =? COMMAND_WRITE).
  { destruct (payload_size m =? _); cbn [negb]; auto.
    rewrite Gp. fw_simpl.
    destruct (Z.ltb_spec p NUM_PAGES) as [Hlt|Hge]; cbn [negb]; auto.
    destruct (write_page_spec p m H Hp ltac:(unfold is_byte in Bp; lia))
      as (f & es & Hrun & _).
    rewrite Hrun. eexists. split; [reflexivity|]. split.
    - eapply wf_msg;
        [|apply (wf_insert 0%nat REPLY_SUCCESS); [exact H|]].
      + reflexivity.
      + unfold is_byte, REPLY_SUCCESS. lia.
    - repeat split. }
  destruct (command =? COMMAND_VERIFY).
  { destruct (payload_size m =? _); cbn [negb]; auto.
    rewrite Gp. fw_simpl.
    destruct (Z.ltb_spec p NUM_PAGES) as [Hlt|Hge]; cbn [negb]; auto.
    rewrite (verify_page_spec p m H Hp ltac:(unfold is_byte in Bp; lia)).
    eexists. split; [reflexivity|]. split; [|repeat split].
    eapply wf_msg;
      [|apply (wf_insert 0%nat REPLY_VERIFY);
        [apply (wf_insert 1%nat); [exact H|]|]].
    - reflexivity.
    - apply xor_bytes_is_byte. unfold page_contents.
      apply Forall_forall. intros y Hy.
      apply list_elem_of_In, in_map_iff in Hy. destruct Hy as (a & <- & _).
      apply uint8_t_is_byte.
    - unfold is_byte, REPLY_VERIFY. lia. }
  destruct (command =? COMMAND_READ).
  { destruct (payload_size m =? _); cbn [negb]; auto.
    rewrite Gp. fw_simpl.
    destruct (Z.ltb_spec p NUM_PAGES) as [Hlt|Hge]; cbn [negb]; auto.
    destruct (read_page_spec p m H Hp ltac:(unfold is_byte in Bp; lia))
      as (b & Hrun & Lb & Bb).
    rewrite Hrun. eexists. split; [reflexivity|]. split; [|repeat split].
    eapply wf_msg; [|apply (wf_set_buffer b m H Lb Bb)]. reflexivity. }
  destruct (command =? COMMAND_QUIT).
  { destruct (payload_size m =? 0); cbn [negb]; auto.
    destruct Suc as (m' & -> & Hw & Hr). fw_simpl.
    eexists. split; [reflexivity|]. split.
    - eapply wf_msg; [|exact Hw]. reflexivity.
    - exact Hr. }
  auto.
Qed.

(** *** loop_body, branch by branch *)

Lemma loop_body_data byte m :
  byte < 0x80 ->
  loop_body byte m =
    match state m with
    | STATE_MATCHING_HEADER =>
        h <- get_header (bytes_read m) m ;;
        let m := set_bytes_read (uint16_t (bytes_read m + 1)) m in
        if negb (byte =? h) then
          m <- reply_error (error_value ERROR_HEADER_MISMATCH) m ;;
          Ok (set_state STATE_IDLE m)
        else if bytes_read m =? sizeof_header then
          let m := set_state STATE_READING_BODY m in
          Ok (set_bytes_read 0 m)
        else Ok m
    | STATE_READING_BODY =>
        if byte >? 0xf then
          m <- reply_error (error_value ERROR_INVALID_NIBBLE) m ;;
          Ok (set_state STATE_IDLE m)
        else
          let odd := negb (Z.land (bytes_read m) 1 =? 0) in
          let m := set_bytes_read (uint16_t (bytes_read m + 1)) m in
          m <- (if odd then
                  old <- get_buffer (payload_size m) m ;;
                  m <- put_buffer (payload_size m) (uint8_t (old + byte)) m ;;
                  b <- get_buffer (payload_size m) m ;;
                  let m := set_payload_size (uint16_t (payload_size m + 1)) m in
                  Ok (set_checksum (Z.lxor (checksum m) b) m)
                else
                  put_buffer (payload_size m) (uint8_t (Z.shiftl byte 4)) m) ;;
          if payload_size m =? sizeof_buffer then
            Ok (set_state STATE_EXPECTING_END m)
          else Ok m
    | STATE_EXPECTING_END =>
        m <- reply_error (error_value ERROR_INVALID_PAYLOAD_SIZE) m ;;
        Ok (set_state STATE_IDLE m)
    | STATE_IDLE => Ok m
    end.
Proof.
  intros Hb. unfold loop_body.
  destruct (Z.ltb_spec byte 0x80); [reflexivity|lia].
Qed.

Lemma loop_body_start m :
  loop_body 0xf0 m =
    (m <- (if negb (state_eqb (state m) STATE_IDLE) then
             reply_error (error_value ERROR_INCOMPLETE_MESSAGE) m
           else Ok m) ;;
     Ok (set_payload_size 0
           (set_bytes_read 0
              (set_checksum 0 (set_state STATE_MATCHING_HEADER m))))).
Proof. reflexivity. Qed.

Lemma loop_body_end m :
  loop_body 0xf7 m =
    if negb (state_eqb (state m) STATE_IDLE) then
      m <- (if (state_value (state m) <? state_value STATE_READING_BODY)
               || (payload_size m <=? sizeof_command) then
              reply_error (error_value ERROR_INVALID_FORMAT) m
            else if negb (checksum m =? 0) then
              reply_error (error_value ERROR_INVALID_CHECKSUM) m
            else
              process_msg
                (set_payload_size
                   (uint16_t (payload_size m
                              - (sizeof_command + sizeof_checksum))) m)) ;;
      Ok (set_state STATE_IDLE m)
    else Ok m.
Proof. reflexivity. Qed.

Lemma loop_body_other byte m :
  0x80 <= byte -> byte <> 0xf0 -> byte <> 0xf7 -> loop_body byte m = Ok m.
Proof.
  intros H1 H2 H3. unfold loop_body.
  destruct (Z.ltb_spec byte 0x80); [lia|].
  destruct (Z.eqb_spec byte 0xf0); [contradiction|].
  destruct (Z.eqb_spec byte 0xf7); [contradiction|reflexivity].
Qed.

(** An error reply followed by the return to [STATE_IDLE]. *)
Lemma abort_spec error m :
  wf m ->
  exists m',
    (m <- reply_error (error_value error) m ;; Ok (set_state STATE_IDLE m))
      = Ok m'
    /\ wf m' /\ state m' = STATE_IDLE /\ flash m' = flash m
    /\ payload_size m' = payload_size m
    /\ trace m' = trace m ++ sent (sysex [REPLY_ERROR; error_value error]).
Proof.
  intros H.
  destruct (reply_error_props (error_value error) m H)
    as (m' & -> & Hw & Hr & Hf & Ht).
  fw_simpl. eexists. split; [reflexivity|].
  split; [eapply wf_msg; [|exact Hw]; reflexivity|].
  split; [reflexivity|]. split; [exact Hf|]. split; [apply Hr|].
  fw_simpl. rewrite Ht. f_equal. f_equal. f_equal.
  rewrite uint8_t_id; [reflexivity|]. unfold is_byte. destruct error; cbn; lia.
Qed.

Lemma land_1_even n : Z.land (2 * n) 1 = 0.
Proof.
  change 1 with (Z.ones 1) at 1. rewrite Z.land_ones by lia.
  change (2 ^ 1) with 2. rewrite Z.mul_comm. apply Z_mod_mult.
Qed.

Lemma land_1_odd n : Z.land (2 * n + 1) 1 = 1.
Proof.
  change 1 with (Z.ones 1) at 2. rewrite Z.land_ones by lia.
  change (2 ^ 1) with 2. rewrite Z.add_comm, Z.mul_comm, Z_mod_plus_full.
  reflexivity.
Qed.

(** *** The invariant of the parser *)

Lemma loop_body_inv byte m :
  wf m -> parser_inv m ->
  exists m', loop_body byte m = Ok m' /\ wf m' /\ parser_inv m'.
Proof.
  intros H I. pose proof sizeof_buffer_range as Hsz.
  pose proof (wf_length _ H) as Hl.
  assert (Abort : forall e m0, wf m0 -> exists m',
    (m <- reply_error (error_value e) m0 ;; Ok (set_state STATE_IDLE m))
      = Ok m' /\ wf m' /\ parser_inv m').
  { intros e m0 H0. destruct (abort_spec e m0 H0) as (m' & ? & ? & Hs & _).
    exists m'. split; [assumption|]. split; [assumption|].
    unfold parser_inv. now rewrite Hs. }
  destruct (Z.lt_ge_cases byte 0x80) as [Hd|Hnd].
  - rewrite loop_body_data by assumption.
    unfold parser_inv in I.
    destruct (state m) eqn:Es.
    + exists m. split; [reflexivity|]. split; [assumption|].
      unfold parser_inv. now rewrite Es.
    + destruct I as (Hbr & Hps & Hck). unfold sizeof_header in *.
      assert (Hh : exists h, HEADER !! Z.to_nat (bytes_read m) = Some h).
      { apply lookup_lt_is_Some_2. cbn. lia. }
      destruct Hh as [h Hh].
      rewrite (get_header_wf _ h) by (assumption || lia). fw_simpl.
      rewrite uint16_t_id by lia.
      destruct (negb (byte =? h)).
      * apply Abort. eapply wf_msg; [|exact H]. reflexivity.
      * destruct (Z.eqb_spec (bytes_read m + 1) 3) as [E3|N3].
        -- eexists. split; [reflexivity|].
           split; [eapply wf_msg; [|exact H]; reflexivity|].
           unfold parser_inv. fw_simpl. lia.
        -- eexists. split; [reflexivity|].
           split; [eapply wf_msg; [|exact H]; reflexivity|].
           unfold parser_inv. fw_simpl. rewrite Es.
           unfold sizeof_header. lia.
    + destruct I as (Hps & Hbr).
      destruct (byte >? 0xf).
      * apply Abort. assumption.
      * fw_simpl.
        assert (Hu : uint16_t (bytes_read m + 1) = bytes_read m + 1)
          by (apply uint16_t_id; lia).
        rewrite Hu.
        destruct Hbr as [Hbr|Hbr]; rewrite Hbr.
        -- rewrite land_1_even. cbn [Z.eqb negb].
           rewrite put_buffer_Ok by (fw_simpl; lia). fw_simpl.
           destruct (Z.eqb_spec (payload_size m) sizeof_buffer); [lia|].
           eexists. split; [reflexivity|].
           split; [apply (wf_insert _ _ (set_bytes_read _ m));
                   [eapply wf_msg; [|exact H]; reflexivity
                   |apply uint8_t_is_byte]|].
           unfold parser_inv. fw_simpl. rewrite Es. lia.
        -- rewrite land_1_odd. cbn [Z.eqb negb].
           destruct (wf_lookup m (payload_size m) H ltac:(lia))
             as (old & Hold & Bold).
           rewrite (get_buffer_Ok _ old) by (fw_simpl; (lia || assumption)).
           fw_simpl.
           rewrite put_buffer_Ok by (fw_simpl; lia). fw_simpl.
           rewrite (get_buffer_Ok _ (uint8_t (old + byte)))
             by (fw_simpl; first [lia|apply list_lookup_insert_eq; lia]).
           fw_simpl. rewrite (uint16_t_id (payload_size m + 1)) by lia.
           set (m2 := set_checksum _ _).
           assert (H2 : wf m2).
           { eapply wf_msg;
               [|apply (wf_insert (Z.to_nat (payload_size m))
                          (uint8_t (old + byte)) m H);
                 apply uint8_t_is_byte].
             reflexivity. }
           destruct (Z.eqb_spec (payload_size m + 1) sizeof_buffer).
           ++ eexists. split; [reflexivity|].
              split; [eapply wf_msg; [|exact H2]; reflexivity|].
              unfold parser_inv. fw_simpl. assumption.
           ++ eexists. split; [reflexivity|]. split; [assumption|].
              unfold parser_inv, m2. fw_simpl. rewrite Es. fw_simpl. lia.
    + apply Abort. assumption.
  - destruct (Z.eq_dec byte 0xf0) as [->|N0].
    { rewrite loop_body_start.
      assert (R : exists m1,
        (if negb (state_eqb (state m) STATE_IDLE)
         then reply_error (error_value ERROR_INCOMPLETE_MESSAGE) m
         else Ok m) = Ok m1 /\ wf m1).
      { destruct (negb _); [|eauto].
        destruct (reply_error_props (error_value ERROR_INCOMPLETE_MESSAGE) m H)
          as (m1 & ? & ? & _). eauto. }
      destruct R as (m1 & -> & H1). fw_simpl.
      eexists. split; [reflexivity|].
      split; [eapply wf_msg; [|exact H1]; reflexivity|].
      unfold parser_inv, sizeof_header. fw_simpl. lia. }
    destruct (Z.eq_dec byte 0xf7) as [->|N7].
    { rewrite loop_body_end.
      destruct (negb _); [|eauto].
      assert (R : exists m1,
        (if (state_value (state m) <? state_value STATE_READING_BODY)
            || (payload_size m <=? sizeof_command)
         then reply_error (error_value ERROR_INVALID_FORMAT) m
         else if negb (checksum m =? 0)
              then reply_error (error_value ERROR_INVALID_CHECKSUM) m
              else process_msg
                     (set_payload_size
                        (uint16_t (payload_size m
                                   - (sizeof_command + sizeof_checksum))) m))
        = Ok m1 /\ wf m1).
      { destruct (_ || _).
        - destruct (reply_error_props (error_value ERROR_INVALID_FORMAT) m H)
            as (m1 & ? & ? & _). eauto.
        - destruct (negb _).
          + destruct (reply_error_props
                        (error_value ERROR_INVALID_CHECKSUM) m H)
              as (m1 & ? & ? & _). eauto.
          + match goal with |- context [process_msg ?m0] =>
              destruct (process_msg_total m0) as (m1 & ? & ? & _) end;
              [eapply wf_msg; [|exact H]; reflexivity|eauto]. }
      destruct R as (m1 & -> & H1). fw_simpl.
      eexists. split; [reflexivity|].
      split; [eapply wf_msg; [|exact H1]; reflexivity|].
      unfold parser_inv. fw_simpl. trivial. }
    rewrite loop_body_other by lia. eauto.
Qed.

(** *** Decoding a body *)

Lemma decoded_nil m :
  0 <= payload_size m < sizeof_buffer -> decoded [] m = m.
Proof.
  intros Hp. destruct m as [s [h b] ps c br f t]. unfold decoded. fw_simpl.
  cbn [length app]. rewrite Nat.add_0_r, take_drop.
  change (Z.of_nat 0) with 0. rewrite Z.mul_0_r, !Z.add_0_r.
  unfold xor_bytes. cbn [fold_left]. rewrite Z.lxor_0_r.
  destruct (Z.eqb_spec ps sizeof_buffer); [lia|reflexivity].
Qed.

Lemma wf_decoded bs m :
  wf m -> Forall is_byte bs -> 0 <= payload_size m ->
  payload_size m + Z.of_nat (length bs) <= sizeof_buffer ->
  wf (decoded bs m).
Proof.
  intros [Hh Hl Hb] Bbs Hp Hlen. split; unfold decoded; fw_simpl.
  - assumption.
  - rewrite !length_app, length_take, length_drop. lia.
  - repeat apply Forall_app_2; auto using Forall_take, Forall_drop.
Qed.

Lemma decoded_cons b bs m :
  wf m -> 0 <= payload_size m ->
  payload_size m + 1 + Z.of_nat (length bs) <= sizeof_buffer ->
  decoded bs (decoded [b] m) = decoded (b :: bs) m.
Proof.
  intros H Hp Hlen. pose proof (wf_length _ H) as Hl.
  unfold decoded. fw_simpl. cbn [length].
  set (n := Z.to_nat (payload_size m)).
  assert (Ln : length (take n (buffer (msg m))) = n)
    by (rewrite length_take; lia).
  f_equal.
  - change (Z.of_nat 1) with 1.
    replace (payload_size m + Z.of_nat (S (length bs)))
      with (payload_size m + 1 + Z.of_nat (length bs)) by lia.
    destruct (Z.eqb_spec (payload_size m + 1 + Z.of_nat (length bs))
                sizeof_buffer) as [E|N]; [reflexivity|].
    destruct (Z.eqb_spec (payload_size m + 1) sizeof_buffer); [lia|].
    reflexivity.
  - f_equal.
    replace (Z.to_nat (payload_size m + Z.of_nat 1)) with (n + 1)%nat by lia.
    rewrite (app_assoc (take n _) [b]).
    rewrite take_app_length' by (rewrite length_app, Ln; reflexivity).
    rewrite (drop_app_add' _ _ (n + 1)%nat)
      by (rewrite length_app, Ln; reflexivity).
    rewrite drop_drop. rewrite <- !app_assoc. cbn [app].
    replace (n + 1 + length bs)%nat with (n + S (length bs))%nat by lia.
    reflexivity.
  - lia.
  - rewrite !xor_bytes_cons. change (xor_bytes []) with 0.
    now rewrite Z.lxor_0_r, Z.lxor_assoc.
  - lia.
Qed.

Lemma body_byte_spec b m :
  wf m -> state m = STATE_READING_BODY ->
  bytes_read m = 2 * payload_size m ->
  0 <= payload_size m < sizeof_buffer -> is_byte b ->
  loop_from [Z.shiftr b 4; Z.land b 0x0f] m = Ok (decoded [b] m).
Proof.
  intros H Es Hbr Hp Bb. pose proof sizeof_buffer_range as Hsz.
  pose proof (wf_length _ H) as Hl.
  pose proof (nibble_hi_range b Bb) as Hhi.
  pose proof (nibble_lo_range b) as Hlo.
  cbn [loop_from].
  rewrite loop_body_data by lia. rewrite Es.
  destruct (Z.gtb_spec (Z.shiftr b 4) 0xf) as [|_]; [lia|].
  fw_simpl. rewrite Hbr, land_1_even. cbn [Z.eqb negb].
  rewrite put_buffer_Ok by (fw_simpl; lia). fw_simpl.
  destruct (Z.eqb_spec (payload_size m) sizeof_buffer) as [|_]; [lia|].
  fw_simpl.
  rewrite loop_body_data by lia. fw_simpl. rewrite Es.
  destruct (Z.gtb_spec (Z.land b 0x0f) 0xf) as [|_]; [lia|].
  fw_simpl. rewrite uint16_t_id by lia. rewrite land_1_odd.
  cbn [Z.eqb negb].
  set (n := Z.to_nat (payload_size m)).
  rewrite (get_buffer_Ok _ (uint8_t (Z.shiftl (Z.shiftr b 4) 4)))
    by (fw_simpl; first [lia|apply list_lookup_insert_eq; lia]).
  fw_simpl.
  rewrite put_buffer_Ok by (fw_simpl; rewrite length_insert; lia). fw_simpl.
  rewrite nibble_pair by assumption. fold n.
  rewrite list_insert_insert_eq.
  rewrite (get_buffer_Ok _ b)
    by (fw_simpl; first [lia|apply list_lookup_insert_eq; lia]).
  fw_simpl. rewrite !uint16_t_id by lia.
  unfold decoded. cbn [length]. change (Z.of_nat 1) with 1.
  assert (Eb : <[n := b]> (buffer (msg m))
               = take n (buffer (msg m)) ++ [b]
                 ++ drop (n + 1) (buffer (msg m))).
  { rewrite insert_take_drop by lia. cbn [app].
    now replace (S n) with (n + 1)%nat by lia. }
  assert (Ex : xor_bytes [b] = b).
  { unfold xor_bytes. cbn [fold_left]. apply Z.lxor_0_l. }
  rewrite Ex.
  replace (2 * payload_size m + 1 + 1) with (bytes_read m + 2 * 1) by lia.
  destruct (Z.eqb_spec (payload_size m + 1) sizeof_buffer);
    unfold set_state, set_checksum, set_payload_size, set_bytes_read,
      set_buffer; fw_simpl; rewrite Eb, ?Es; reflexivity.
Qed.

Lemma body_spec bs : forall m,
  wf m -> state m = STATE_READING_BODY ->
  bytes_read m = 2 * payload_size m ->
  0 <= payload_size m < sizeof_buffer -> Forall is_byte bs ->
  payload_size m + Z.of_nat (length bs) <= sizeof_buffer ->
  loop_from (nibbles bs) m = Ok (decoded bs m).
Proof.
  induction bs as [|b bs IH]; intros m H Es Hbr Hp Bbs Hlen.
  - cbn [nibbles flat_map loop_from]. now rewrite decoded_nil.
  - apply Forall_cons in Bbs as [Bb Bbs]. cbn [length] in Hlen.
    change (nibbles (b :: bs))
      with ([Z.shiftr b 4; Z.land b 0x0f] ++ nibbles bs).
    cbn [app loop_from].
    pose proof (body_byte_spec b m H Es Hbr Hp Bb) as Hb.
    cbn [loop_from] in Hb.
    destruct (loop_body (Z.shiftr b 4) m) as [m1| |]; try discriminate.
    fw_simpl. cbn [bind] in Hb.
    destruct (loop_body (Z.land b 0x0f) m1) as [m2| |]; try discriminate.
    fw_simpl. injection Hb as ->.
    destruct bs as [|b' bs].
    + cbn [nibbles flat_map loop_from]. reflexivity.
    + assert (Hlt : payload_size m + 1 < sizeof_buffer)
        by (cbn [length] in Hlen; lia).
      rewrite IH.
      * rewrite decoded_cons by (assumption || (cbn [length] in *; lia)).
        reflexivity.
      * apply wf_decoded;
          [assumption|constructor; [assumption|constructor]|lia
          |cbn [length]; lia].
      * unfold decoded. fw_simpl. cbn [length]. change (Z.of_nat 1) with 1.
        destruct (Z.eqb_spec (payload_size m + 1) sizeof_buffer); [lia|].
        assumption.
      * unfold decoded. fw_simpl. cbn [length]. lia.
      * unfold decoded. fw_simpl. cbn [length]. lia.
      * assumption.
      * unfold decoded. fw_simpl. cbn [length] in *. lia.
Qed.

Lemma header_spec m :
  wf m -> state m = STATE_MATCHING_HEADER -> bytes_read m = 0 ->
  loop_from HEADER m = Ok (header_matched m).
Proof.
  intros [Hh _ _] Es Hbr. destruct m as [s [h b] ps c br f t].
  fw_simpl. subst. reflexivity.
Qed.

(** *** Reachable states *)

Lemma wf_check_sound m : wf_check m = true -> wf m.
Proof.
  unfold wf_check. rewrite !andb_true_iff.
  intros [[[Hz Hl] Hn] Hb].
  apply Nat.eqb_eq in Hl. apply Z.eqb_eq in Hn. split.
  - destruct (header (msg m)) as [|h0 [|h1 [|h2 [|h3 h]]]];
      try discriminate Hl.
    cbn in Hz. rewrite !andb_true_iff in Hz.
    destruct Hz as (E0 & E1 & E2 & _).
    apply Z.eqb_eq in E0, E1, E2. unfold HEADER. congruence.
  - assumption.
  - apply Forall_forall. intros b Hin. apply list_elem_of_In in Hin.
    rewrite forallb_forall in Hb. specialize (Hb b Hin).
    apply andb_true_iff in Hb as [H0 H1].
    apply Z.leb_le in H0. apply Z.ltb_lt in H1. split; assumption.
Qed.

Lemma wf_loop_init c0 b0 f : wf (loop_init c0 b0 f).
Proof.
  pose proof sizeof_buffer_range as Hsz. split; cbn.
  - reflexivity.
  - rewrite length_replicate. lia.
  - apply Forall_replicate. unfold is_byte. lia.
Qed.

Lemma loop_from_app a b m :
  loop_from (a ++ b) m = (m <- loop_from a m ;; loop_from b m).
Proof.
  revert m. induction a as [|x a IH]; intros m; cbn [app loop_from bind].
  - reflexivity.
  - destruct (loop_body x m) as [m1| |]; cbn [bind]; auto.
Qed.

Lemma loop_from_inv input : forall m,
  wf m -> parser_inv m ->
  exists m', loop_from input m = Ok m' /\ wf m' /\ parser_inv m'.
Proof.
  induction input as [|byte input IH]; intros m H Hi.
  - exists m. auto.
  - destruct (loop_body_inv byte m H Hi) as (m1 & E1 & H1 & I1).
    cbn [loop_from]. rewrite E1. cbn [bind]. now apply IH.
Qed.

Lemma loop_inv c0 b0 f input :
  exists m, loop c0 b0 f input = Ok m /\ wf m /\ parser_inv m.
Proof.
  apply loop_from_inv; [apply wf_loop_init|exact I].
Qed.

Lemma frame_body_spec bs m :
  wf m -> state m = STATE_MATCHING_HEADER -> bytes_read m = 0 ->
  payload_size m = 0 -> Forall is_byte bs ->
  Z.of_nat (length bs) <= sizeof_buffer ->
  loop_from (HEADER ++ nibbles bs) m = Ok (decoded bs (header_matched m)).
Proof.
  intros H Es Hbr Hps Bbs Hlen. pose proof sizeof_buffer_range as Hsz.
  rewrite loop_from_app, header_spec by assumption. cbn [bind].
  apply body_spec; unfold header_matched; fw_simpl;
    try (assumption || reflexivity || lia).
  eapply wf_msg; [|exact H]. reflexivity.
Qed.

(** ** The parser's error paths *)

Lemma aborts_intro e m :
  wf m ->
  aborts e m
    (m <- reply_error (error_value e) m ;; Ok (set_state STATE_IDLE m)).
Proof.
  intros H. destruct (abort_spec e m H) as (m' & E & _ & Hs & Hf & _ & Ht).
  exists m'. auto.
Qed.

Lemma aborts_regs e m m0 o :
  msg m0 = msg m -> trace m0 = trace m -> flash m0 = flash m ->
  aborts e m0 o -> aborts e m o.
Proof.
  intros _ Ht Hf (m' & E & Hs & Ht' & Hf'). exists m'.
  rewrite <- Ht, <- Hf. auto.
Qed.

Lemma header_mismatch_aborts byte m :
  wf m -> parser_inv m -> state m = STATE_MATCHING_HEADER ->
  byte < 0x80 -> HEADER !! Z.to_nat (bytes_read m) <> Some byte ->
  aborts ERROR_HEADER_MISMATCH m (loop_body byte m).
Proof.
  intros H Hi Es Hb Hne. unfold parser_inv in Hi. rewrite Es in Hi.
  destruct Hi as (Hbr & _). unfold sizeof_header in Hbr.
  rewrite loop_body_data by assumption. rewrite Es.
  destruct (lookup_lt_is_Some_2 HEADER (Z.to_nat (bytes_read m))) as [h Hh];
    [cbn; lia|].
  rewrite (get_header_wf _ h) by (assumption || lia). fw_simpl.
  destruct (Z.eqb_spec byte h) as [->|_]; [congruence|]. cbn [negb].
  eapply aborts_regs; [| | |apply aborts_intro]; try reflexivity.
  eapply wf_msg; [|exact H]. reflexivity.
Qed.

Lemma invalid_nibble_aborts byte m :
  wf m -> state m = STATE_READING_BODY -> 0xf < byte < 0x80 ->
  aborts ERROR_INVALID_NIBBLE m (loop_body byte m).
Proof.
  intros H Es Hb. rewrite loop_body_data by lia. rewrite Es.
  destruct (Z.gtb_spec byte 0xf) as [_|]; [|lia].
  now apply aborts_intro.
Qed.


Lemma state_not_idle s :
  s <> STATE_IDLE -> negb (state_eqb s STATE_IDLE) = true.
Proof. destruct s; [contradiction| | |]; reflexivity. Qed.

Lemma invalid_format_aborts m :
  wf m -> state m <> STATE_IDLE ->
  state m = STATE_MATCHING_HEADER \/ payload_size m <= sizeof_command ->
  aborts ERROR_INVALID_FORMAT m (loop_body 0xf7 m).
Proof.
  intros H Hs Hc. rewrite loop_body_end, state_not_idle by assumption.
  assert (E : (state_value (state m) <? state_value STATE_READING_BODY)
              || (payload_size m <=? sizeof_command) = true).
  { apply orb_true_iff. destruct Hc as [->|Hle].
    - left. reflexivity.
    - right. now apply Z.leb_le. }
  rewrite E. now apply aborts_intro.
Qed.

Lemma format_check_passes m :
  state m <> STATE_IDLE -> state m <> STATE_MATCHING_HEADER ->
  sizeof_command < payload_size m ->
  (state_value (state m) <? state_value STATE_READING_BODY)
  || (payload_size m <=? sizeof_command) = false.
Proof.
  intros H1 H2 Hp. apply orb_false_iff. split.
  - destruct (state m); try contradiction; reflexivity.
  - apply Z.leb_gt. assumption.
Qed.

Lemma invalid_checksum_aborts m :
  wf m -> state m <> STATE_IDLE -> state m <> STATE_MATCHING_HEADER ->
  sizeof_command < payload_size m -> checksum m <> 0 ->
  aborts ERROR_INVALID_CHECKSUM m (loop_body 0xf7 m).
Proof.
  intros H H1 H2 Hp Hc. rewrite loop_body_end, state_not_idle by assumption.
  rewrite format_check_passes by assumption.
  destruct (Z.eqb_spec (checksum m) 0) as [|_]; [contradiction|]. cbn [negb].
  now apply aborts_intro.
Qed.

Lemma dispatch_spec m :
  wf m -> state m <> STATE_IDLE -> state m <> STATE_MATCHING_HEADER ->
  sizeof_command < payload_size m < 65536 -> checksum m = 0 ->
  loop_body 0xf7 m =
    (m <- process_msg
            (set_payload_size
               (payload_size m - (sizeof_command + sizeof_checksum)) m) ;;
     Ok (set_state STATE_IDLE m)).
Proof.
  intros H H1 H2 Hp Hc. rewrite loop_body_end, state_not_idle by assumption.
  rewrite format_check_passes by (assumption || lia).
  rewrite Hc. cbn [Z.eqb negb].
  rewrite uint16_t_id; [reflexivity|].
  unfold sizeof_command, sizeof_checksum in *. lia.
Qed.

Lemma idle_ignores byte m :
  state m = STATE_IDLE -> byte <> 0xf0 -> loop_body byte m = Ok m.
Proof.
  intros Es Hb. destruct (Z.lt_ge_cases byte 0x80).
  - rewrite loop_body_data by assumption. now rewrite Es.
  - destruct (Z.eq_dec byte 0xf7) as [->|].
    + rewrite loop_body_end, Es. reflexivity.
    + now apply loop_body_other.
Qed.

Lemma payload_size_range m :
  parser_inv m -> state m <> STATE_IDLE -> 0 <= payload_size m < 65536.
Proof.
  intros Hi Hs. pose proof sizeof_buffer_range. unfold parser_inv in Hi.
  destruct (state m); [contradiction| | |]; lia.
Qed.

(** C3 (as amended): whatever bytes the parser has received, the next byte
    that makes the frame in progress malformed is answered by exactly one
    [Error] reply with the code of the malformation, and the parser returns to
    [STATE_IDLE], where it ignores the rest of that frame: a data byte that
    differs from the expected header byte gives [HeaderMismatch]; a data byte
    above 0x0f in the body gives [InvalidNibble]; the end delimiter gives
    [InvalidFormat] when the header is incomplete or at most one byte (not
    both the command and the checksum byte) has been decoded, and
    [InvalidChecksum] when at least two bytes have been decoded and the
    running checksum is non-zero. *)
Theorem malformed_frame_one_error c0 b0 f input :
  exists m, loop c0 b0 f input = Ok m /\
    forall byte,
      (state m = STATE_MATCHING_HEADER -> byte < 0x80 ->
       HEADER !! Z.to_nat (bytes_read m) <> Some byte ->
       aborts ERROR_HEADER_MISMATCH m (loop_body byte m))
      /\ (state m = STATE_READING_BODY -> 0xf < byte < 0x80 ->
          aborts ERROR_INVALID_NIBBLE m (loop_body byte m))
      /\ (state m <> STATE_IDLE ->
          state m = STATE_MATCHING_HEADER \/ payload_size m <= sizeof_command ->
          aborts ERROR_INVALID_FORMAT m (loop_body 0xf7 m))
      /\ (state m <> STATE_IDLE -> state m <> STATE_MATCHING_HEADER ->
          sizeof_command < payload_size m -> checksum m <> 0 ->
          aborts ERROR_INVALID_CHECKSUM m (loop_body 0xf7 m))
      /\ (state m = STATE_IDLE -> byte <> 0xf0 -> loop_body byte m = Ok m).
Proof.
  destruct (loop_inv c0 b0 f input) as (m & E & H & Hi).
  exists m. split; [exact E|]. intros byte.
  split; [|split; [|split; [|split]]].
  - intros. now apply header_mismatch_aborts.
  - intros. now apply invalid_nibble_aborts.
  - intros. now apply invalid_format_aborts.
  - intros. now apply invalid_checksum_aborts.
  - intros. now apply idle_ignores.
Qed.

(** C4 (as amended): when the end delimiter arrives while a frame is in
    progress, the result is [Error(InvalidFormat)] if the parser never left
    [STATE_MATCHING_HEADER] or no more bytes have been decoded than the
    command-code field holds; otherwise [Error(InvalidChecksum)] if the
    running checksum is non-zero; otherwise the message is dispatched with a
    payload size of the decoded count minus the command byte and the
    checksum byte; in all three cases the parser returns to [STATE_IDLE].
    The second part says what the counters are after a frame body: the
    decoded count is the number of decoded bytes and the running checksum is
    the XOR of all of them, the command byte included. *)
Theorem end_delimiter_finalizes :
  (forall m, wf m -> parser_inv m -> state m <> STATE_IDLE ->
     exists m', loop_body 0xf7 m = Ok m' /\ state m' = STATE_IDLE /\
       (state m = STATE_MATCHING_HEADER \/ payload_size m <= sizeof_command ->
        aborts ERROR_INVALID_FORMAT m (Ok m'))
       /\ (state m <> STATE_MATCHING_HEADER ->
           sizeof_command < payload_size m -> checksum m <> 0 ->
           aborts ERROR_INVALID_CHECKSUM m (Ok m'))
       /\ (state m <> STATE_MATCHING_HEADER ->
           sizeof_command < payload_size m -> checksum m = 0 ->
           exists m'',
             process_msg
               (set_payload_size
                  (payload_size m - (sizeof_command + sizeof_checksum)) m)
             = Ok m''
             /\ m' = set_state STATE_IDLE m''))
  /\ (forall m bs, wf m -> state m = STATE_MATCHING_HEADER ->
        bytes_read m = 0 -> payload_size m = 0 -> checksum m = 0 ->
        Forall is_byte bs -> Z.of_nat (length bs) <= sizeof_buffer ->
        exists m', loop_from (HEADER ++ nibbles bs) m = Ok m'
          /\ state m' <> STATE_IDLE /\ state m' <> STATE_MATCHING_HEADER
          /\ payload_size m' = Z.of_nat (length bs)
          /\ checksum m' = xor_bytes bs
          /\ take (length bs) (buffer (msg m')) = bs).
Proof.
  split.
  - intros m H Hi Hs.
    destruct (loop_body_inv 0xf7 m H Hi) as (m' & E & H' & _).
    exists m'. split; [exact E|]. split.
    { rewrite loop_body_end, state_not_idle in E by assumption.
      destruct (if _ : bool then _ else _) as [m1| |]; try discriminate.
      cbn [bind] in E. injection E as <-. reflexivity. }
    split; [|split].
    + intros Hc. rewrite <- E. now apply invalid_format_aborts.
    + intros. rewrite <- E. now apply invalid_checksum_aborts.
    + intros Hm Hp Hc.
      pose proof (payload_size_range m Hi Hs) as Hr.
      rewrite dispatch_spec in E by (assumption || lia).
      destruct (process_msg _) as [m''| |]; try discriminate.
      cbn [bind] in E. injection E as <-. eauto.
  - intros m bs H Es Hbr Hps Hck Bbs Hlen.
    rewrite frame_body_spec by assumption.
    eexists. split; [reflexivity|].
    unfold decoded, header_matched. fw_simpl. rewrite Hps, Hck.
    split; [|split; [|split; [|split]]].
    + destruct (_ =? _); discriminate.
    + destruct (_ =? _); discriminate.
    + lia.
    + apply Z.lxor_0_l.
    + change (Z.to_nat 0) with 0%nat. rewrite take_0. cbn [app].
      apply take_app_length.
Qed.

(** C7: a start delimiter that arrives while a frame is in progress is
    answered by exactly one [Error(IncompleteMessage)] reply, after which the
    parser is in [STATE_MATCHING_HEADER] with the header position, the
    checksum and the payload size reset to zero, and the header and body of
    the new frame are parsed as those of any frame. *)
Theorem start_delimiter_restarts m :
  wf m -> state m <> STATE_IDLE ->
  exists m', loop_body 0xf0 m = Ok m'
    /\ trace m' = trace m
         ++ sent (sysex [REPLY_ERROR; error_value ERROR_INCOMPLETE_MESSAGE])
    /\ flash m' = flash m
    /\ state m' = STATE_MATCHING_HEADER
    /\ bytes_read m' = 0 /\ checksum m' = 0 /\ payload_size m' = 0
    /\ forall bs, Forall is_byte bs -> Z.of_nat (length bs) <= sizeof_buffer ->
         loop_from (HEADER ++ nibbles bs) m'
         = Ok (decoded bs (header_matched m')).
Proof.
  intros H Hs. rewrite loop_body_start, state_not_idle by assumption.
  destruct (reply_error_props (error_value ERROR_INCOMPLETE_MESSAGE) m H)
    as (m1 & -> & H1 & _ & Hf & Ht).
  fw_simpl. eexists. split; [reflexivity|]. fw_simpl.
  split; [exact Ht|]. split; [exact Hf|].
  repeat (split; [reflexivity|]).
  intros bs Bbs Hlen. apply frame_body_spec; try (reflexivity || assumption).
  eapply wf_msg; [|exact H1]. reflexivity.
Qed.

(** C8: a byte with the high bit set that is neither the start nor the end
    delimiter changes nothing, in any state of the parser: it is not stored
    in the buffer, not compared with a header byte (the header position does
    not advance and no error is raised) and not XORed into the checksum. *)
Theorem other_status_bytes_ignored byte m :
  0x80 <= byte < 256 -> byte <> 0xf0 -> byte <> 0xf7 ->
  loop_body byte m = Ok m.
Proof. intros Hb H0 H7. apply loop_body_other; (lia || assumption). Qed.

(** C9: whatever bytes arrive, no iteration of [loop] indexes [msg.buffer]
    (or any array) outside its bounds, and none diverges; while the parser is
    in [STATE_READING_BODY], [payload_size] stays below the size of
    [msg.buffer], so a parser whose [payload_size] has reached that size is in
    [STATE_EXPECTING_END]; there a further data byte is answered by
    [Error(InvalidPayloadSize)] and is not stored: the buffer changes only in
    the command and error bytes of the reply. *)
Theorem buffer_never_overrun c0 b0 f input :
  exists m, loop c0 b0 f input = Ok m
    /\ Z.of_nat (length (buffer (msg m))) = sizeof_buffer
    /\ sizeof_buffer = SPM_PAGESIZE + 3
    /\ (state m = STATE_READING_BODY -> 0 <= payload_size m < sizeof_buffer)
    /\ (state m = STATE_EXPECTING_END -> payload_size m = sizeof_buffer)
    /\ (state m = STATE_EXPECTING_END -> forall byte, byte < 0x80 ->
          exists m', loop_body byte m = Ok m'
            /\ state m' = STATE_IDLE
            /\ trace m' = trace m ++ sent (sysex
                 [REPLY_ERROR; error_value ERROR_INVALID_PAYLOAD_SIZE])
            /\ payload_size m' = payload_size m
            /\ buffer (msg m')
               = <[1%nat := error_value ERROR_INVALID_PAYLOAD_SIZE]>
                   (<[0%nat := REPLY_ERROR]> (buffer (msg m)))).
Proof.
  destruct (loop_inv c0 b0 f input) as (m & E & H & Hi).
  exists m. split; [exact E|]. split; [apply H|].
  split; [apply sizeof_buffer_eq|].
  unfold parser_inv in Hi.
  split; [|split].
  - intros Es. rewrite Es in Hi. apply Hi.
  - intros Es. rewrite Es in Hi. exact Hi.
  - intros Es byte Hb. rewrite loop_body_data by assumption. rewrite Es.
    rewrite reply_error_spec by assumption. fw_simpl.
    eexists. split; [reflexivity|]. fw_simpl.
    repeat (split; [reflexivity|]). reflexivity.
Qed.

(** ** The dispatcher *)

Lemma error_reply_props e m :
  wf m ->
  exists m', reply_error (error_value e) m = Ok m'
    /\ wf m' /\ same_regs m m' /\ flash m' = flash m
    /\ trace m' = trace m ++ sent (sysex [REPLY_ERROR; error_value e]).
Proof.
  intros H.
  destruct (reply_error_props (error_value e) m H)
    as (m' & E & Hw & Hr & Hf & Ht).
  exists m'. repeat (split; [assumption|]).
  rewrite Ht. rewrite uint8_t_id; [reflexivity|].
  unfold is_byte. destruct e; cbn; lia.
Qed.


Lemma wf_byte1 m p : wf m -> buffer (msg m) !! 1%nat = Some p -> is_byte p.
Proof. intros [_ _ Hb] Hc. eapply Forall_lookup_1; eassumption. Qed.

Lemma get_page_no m p :
  buffer (msg m) !! 1%nat = Some p -> get_buffer offsetof_page_no m = Ok p.
Proof.
  intros Hp. apply get_buffer_Ok; [unfold offsetof_page_no; lia|exact Hp].
Qed.

Lemma page_contents_bytes f page : Forall is_byte (page_contents f page).
Proof.
  unfold page_contents. apply Forall_forall. intros y Hy.
  apply list_elem_of_In, in_map_iff in Hy. destruct Hy as (a & <- & _).
  apply uint8_t_is_byte.
Qed.

(** [process_msg] follows the dispatcher's table. *)
Lemma process_msg_table m c p :
  wf m -> buffer (msg m) !! 0%nat = Some c ->
  buffer (msg m) !! 1%nat = Some p ->
  payload_size m <> SPM_PAGESIZE + sizeof_page_no ->
  exists m', process_msg m = Ok m'
    /\ wf m' /\ same_regs m m' /\ flash m' = flash m
    /\ trace m' = trace m ++ dispatch_table c p (payload_size m) (flash m).
Proof.
  intros H Hc Hp Hn.
  pose proof (wf_byte1 m p H Hp) as Bp. unfold is_byte in Bp.
  assert (Err : forall e, exists m',
    reply_error (error_value e) m = Ok m'
    /\ wf m' /\ same_regs m m' /\ flash m' = flash m
    /\ trace m' = trace m ++ sent (sysex [REPLY_ERROR; error_value e]))
    by (intros e; now apply error_reply_props).
  rewrite (process_msg_command c) by assumption.
  unfold dispatch_table, CHECK.
  destruct (c =? COMMAND_PING).
  { destruct (payload_size m =? 0); cbn [negb]; [|apply Err].
    apply reply_success_props. assumption. }
  destruct (c =? COMMAND_WRITE).
  { destruct (Z.eqb_spec (payload_size m) (SPM_PAGESIZE + sizeof_page_no));
      [contradiction|]. apply Err. }
  destruct (c =? COMMAND_VERIFY).
  { destruct (payload_size m =? sizeof_page_no); cbn [negb]; [|apply Err].
    rewrite (get_page_no m p) by assumption. fw_simpl.
    destruct (Z.ltb_spec p NUM_PAGES); cbn [negb]; [|apply Err].
    rewrite (verify_page_spec p m) by (assumption || lia).
    eexists. split; [reflexivity|]. split; [|repeat split].
    eapply wf_msg;
      [|apply (wf_insert 0%nat REPLY_VERIFY);
        [apply (wf_insert 1%nat); [exact H|]|]].
    - reflexivity.
    - apply xor_bytes_is_byte, page_contents_bytes.
    - unfold is_byte, REPLY_VERIFY. lia. }
  destruct (c =? COMMAND_READ).
  { destruct (payload_size m =? sizeof_page_no); cbn [negb]; [|apply Err].
    rewrite (get_page_no m p) by assumption. fw_simpl.
    destruct (Z.ltb_spec p NUM_PAGES); cbn [negb]; [|apply Err].
    destruct (read_page_spec p m H Hp ltac:(lia)) as (b & Hrun & Lb & Bb).
    rewrite Hrun. eexists. split; [reflexivity|]. split; [|repeat split].
    eapply wf_msg; [|apply (wf_set_buffer b m H Lb Bb)]. reflexivity. }
  destruct (c =? COMMAND_QUIT).
  { destruct (payload_size m =? 0); cbn [negb]; [|apply Err].
    destruct (reply_success_props m H) as (m' & -> & Hw & Hr & Hf & Ht).
    fw_simpl. eexists. split; [reflexivity|].
    split; [eapply wf_msg; [|exact Hw]; reflexivity|].
    split; [exact Hr|]. split; [exact Hf|].
    fw_simpl. rewrite Ht. now rewrite <- app_assoc. }
  apply Err.
Qed.

Lemma existsb_spm_sent bs : existsb spm_event (sent bs) = false.
Proof. induction bs as [|b bs IH]; [reflexivity|exact IH]. Qed.

Lemma drop_trace (t es : list event) : drop (length t) (t ++ es) = es.
Proof. apply drop_app_length. Qed.

(** The three outcomes of a [Write] request. *)
Lemma write_request_spec m p :
  wf m -> buffer (msg m) !! 0%nat = Some COMMAND_WRITE ->
  buffer (msg m) !! 1%nat = Some p ->
  exists m', process_msg m = Ok m' /\
    (payload_size m <> SPM_PAGESIZE + sizeof_page_no ->
     trace m' = trace m ++ sent (sysex
       [REPLY_ERROR; error_value ERROR_INVALID_PAYLOAD_SIZE])
     /\ flash m' = flash m)
    /\ (payload_size m = SPM_PAGESIZE + sizeof_page_no -> NUM_PAGES <= p ->
        trace m' = trace m ++ sent (sysex
          [REPLY_ERROR; error_value ERROR_INVALID_PAGE_NUMBER])
        /\ flash m' = flash m)
    /\ (payload_size m = SPM_PAGESIZE + sizeof_page_no -> p < NUM_PAGES ->
        exists es,
          trace m' = trace m ++ ev_page_erase (p * SPM_PAGESIZE) :: es
                     ++ sent (sysex [REPLY_SUCCESS])
          /\ uart_output es = []
          /\ page_contents (flash m') (p * SPM_PAGESIZE)
             = take (Z.to_nat SPM_PAGESIZE) (drop 2 (buffer (msg m)))).
Proof.
  intros H Hc Hp. pose proof (wf_byte1 m p H Hp) as Bp. unfold is_byte in Bp.
  pose proof SPM_PAGESIZE_range as Hs. pose proof sizeof_buffer_eq as Hsz.
  pose proof (wf_length _ H) as Hl.
  rewrite (process_msg_command COMMAND_WRITE) by assumption.
  change (COMMAND_WRITE =? COMMAND_PING) with false.
  change (COMMAND_WRITE =? COMMAND_WRITE) with true. cbv iota.
  unfold CHECK.
  destruct (Z.eqb_spec (payload_size m) (SPM_PAGESIZE + sizeof_page_no))
    as [Eps|Nps]; cbn [negb].
  - rewrite (get_page_no m p) by assumption. fw_simpl.
    destruct (Z.ltb_spec p NUM_PAGES) as [Hlt|Hge]; cbn [negb].
    + destruct (write_page_spec p m H Hp ltac:(lia))
        as (f & es & Hrun & Hes & Hhd & Hin & _).
      rewrite Hrun. eexists. split; [reflexivity|].
      split; [intros; contradiction|]. split; [intros; lia|].
      intros _ _. destruct es as [|e es]; [discriminate|].
      injection Hhd as ->. exists es. fw_simpl.
      split; [reflexivity|]. split; [exact Hes|].
      apply list_eq. intros i. unfold page_contents.
      rewrite list_lookup_fmap.
      destruct (Nat.lt_ge_cases i (Z.to_nat SPM_PAGESIZE)) as [Hi|Hi].
      * rewrite lookup_seqZ_lt by lia. cbn [fmap option_fmap option_map].
        rewrite lookup_take_lt, lookup_drop by lia.
        destruct (lookup_lt_is_Some_2 (buffer (msg m)) (2 + i)) as [v Hv];
          [lia|].
        rewrite Hv. f_equal.
        rewrite (Hin (Z.of_nat i) v);
          [|lia|unfold offsetof_page_data;
                replace (Z.to_nat (2 + Z.of_nat i)) with (2 + i)%nat by lia;
                exact Hv].
        apply uint8_t_id. destruct H as [_ _ Hb].
        eapply Forall_lookup_1; eassumption.
      * rewrite lookup_seqZ_ge by lia. cbn [fmap option_fmap option_map].
        symmetry. apply lookup_take_ge. lia.
    + destruct (error_reply_props ERROR_INVALID_PAGE_NUMBER m H)
        as (m' & E & _ & _ & Hf & Ht).
      exists m'. split; [exact E|].
      split; [intros; contradiction|]. split; [auto|intros; lia].
  - destruct (error_reply_props ERROR_INVALID_PAYLOAD_SIZE m H)
      as (m' & E & _ & _ & Hf & Ht).
    exists m'. split; [exact E|].
    split; [auto|]. split; intros; contradiction.
Qed.

(** C2: a [Write] request that fails validation is answered by exactly one
    [Error] reply and nothing else: the payload size is checked first
    ([InvalidPayloadSize], whatever the page number), then the page number
    ([InvalidPageNumber]); in both cases no self-programming operation is
    invoked and the flash is unchanged.  A page is erased and programmed only
    when both checks have passed. *)
Theorem write_validated_before_flash m p :
  wf m -> buffer (msg m) !! 0%nat = Some COMMAND_WRITE ->
  buffer (msg m) !! 1%nat = Some p ->
  exists m', process_msg m = Ok m' /\
    (payload_size m <> SPM_PAGESIZE + sizeof_page_no ->
     trace m' = trace m ++ sent (sysex
       [REPLY_ERROR; error_value ERROR_INVALID_PAYLOAD_SIZE])
     /\ flash m' = flash m)
    /\ (payload_size m = SPM_PAGESIZE + sizeof_page_no -> NUM_PAGES <= p ->
        trace m' = trace m ++ sent (sysex
          [REPLY_ERROR; error_value ERROR_INVALID_PAGE_NUMBER])
        /\ flash m' = flash m)
    /\ (existsb spm_event (drop (length (trace m)) (trace m')) = true ->
        payload_size m = SPM_PAGESIZE + sizeof_page_no /\ p < NUM_PAGES)
    /\ (payload_size m = SPM_PAGESIZE + sizeof_page_no -> p < NUM_PAGES ->
        exists es,
          trace m' = trace m ++ ev_page_erase (p * SPM_PAGESIZE) :: es).
Proof.
  intros H Hc Hp.
  destruct (write_request_spec m p H Hc Hp) as (m' & E & Hsize & Hpage & Hok).
  exists m'. split; [exact E|]. split; [exact Hsize|]. split; [exact Hpage|].
  split.
  - intros Hspm.
    destruct (Z.eq_dec (payload_size m) (SPM_PAGESIZE + sizeof_page_no))
      as [Eps|Nps].
    + split; [exact Eps|].
      destruct (Z.lt_ge_cases p NUM_PAGES) as [|Hge]; [assumption|].
      destruct (Hpage Eps Hge) as [Ht _].
      rewrite Ht, drop_trace, existsb_spm_sent in Hspm. discriminate.
    + destruct (Hsize Nps) as [Ht _].
      rewrite Ht, drop_trace, existsb_spm_sent in Hspm. discriminate.
  - intros Eps Hlt. destruct (Hok Eps Hlt) as (es & Ht & _). eauto.
Qed.

Lemma page_size_not_write_size : sizeof_page_no <> SPM_PAGESIZE + sizeof_page_no.
Proof. pose proof SPM_PAGESIZE_range. unfold sizeof_page_no. lia. Qed.

Lemma read_request_spec m p :
  wf m -> buffer (msg m) !! 0%nat = Some COMMAND_READ ->
  buffer (msg m) !! 1%nat = Some p -> payload_size m = sizeof_page_no ->
  exists m', process_msg m = Ok m' /\ flash m' = flash m /\
    trace m' = trace m ++
      (if p <? NUM_PAGES
       then sent (sysex (REPLY_READ ::
                           page_contents (flash m) (p * SPM_PAGESIZE)))
       else sent (sysex [REPLY_ERROR;
                         error_value ERROR_INVALID_PAGE_NUMBER])).
Proof.
  intros H Hc Hp Hn.
  destruct (process_msg_table m COMMAND_READ p H Hc Hp)
    as (m' & E & _ & _ & Hf & Ht);
    [rewrite Hn; apply page_size_not_write_size|].
  exists m'. split; [exact E|]. split; [exact Hf|].
  rewrite Ht, Hn. unfold dispatch_table.
  now rewrite Z.eqb_refl.
Qed.

Lemma verify_request_spec m p :
  wf m -> buffer (msg m) !! 0%nat = Some COMMAND_VERIFY ->
  buffer (msg m) !! 1%nat = Some p -> payload_size m = sizeof_page_no ->
  exists m', process_msg m = Ok m' /\ flash m' = flash m /\
    trace m' = trace m ++
      (if p <? NUM_PAGES
       then sent (sysex [REPLY_VERIFY;
                         xor_bytes (page_contents (flash m)
                                      (p * SPM_PAGESIZE))])
       else sent (sysex [REPLY_ERROR;
                         error_value ERROR_INVALID_PAGE_NUMBER])).
Proof.
  intros H Hc Hp Hn.
  destruct (process_msg_table m COMMAND_VERIFY p H Hc Hp)
    as (m' & E & _ & _ & Hf & Ht);
    [rewrite Hn; apply page_size_not_write_size|].
  exists m'. split; [exact E|]. split; [exact Hf|].
  rewrite Ht, Hn. unfold dispatch_table.
  now rewrite Z.eqb_refl.
Qed.

(** What a page command of the right size does with its page number. *)
Lemma page_request_spec m command p :
  wf m -> buffer (msg m) !! 0%nat = Some command ->
  buffer (msg m) !! 1%nat = Some p ->
  (command = COMMAND_WRITE /\
   payload_size m = SPM_PAGESIZE + sizeof_page_no) \/
  ((command = COMMAND_READ \/ command = COMMAND_VERIFY) /\
   payload_size m = sizeof_page_no) ->
  exists m', process_msg m = Ok m' /\
    (p < NUM_PAGES ->
     exists params, replies (reply_to command :: params) m m') /\
    (NUM_PAGES <= p ->
     trace m' = trace m ++ sent (sysex
       [REPLY_ERROR; error_value ERROR_INVALID_PAGE_NUMBER])
     /\ flash m' = flash m).
Proof.
  intros H Hc Hp [[-> Hn]|[[->| ->] Hn]].
  - destruct (write_request_spec m p H Hc Hp) as (m' & E & _ & Hbad & Hok).
    exists m'. split; [exact E|]. split; [|auto].
    intros Hlt. destruct (Hok Hn Hlt) as (es & Ht & Hes & _).
    exists []. eexists. split; [exact Ht|].
    change (ev_page_erase (p * SPM_PAGESIZE) :: es ++ sent (sysex [REPLY_SUCCESS]))
      with ((ev_page_erase (p * SPM_PAGESIZE) :: es)
            ++ sent (sysex [REPLY_SUCCESS])).
    rewrite uart_output_app, uart_output_sent.
    change (uart_output (ev_page_erase (p * SPM_PAGESIZE) :: es))
      with (uart_output es).
    rewrite Hes. reflexivity.
  - destruct (read_request_spec m p H Hc Hp Hn) as (m' & E & Hf & Ht).
    exists m'. split; [exact E|]. split.
    + intros Hlt. apply Z.ltb_lt in Hlt. rewrite Hlt in Ht.
      eexists. apply replies_sent. exact Ht.
    + intros Hge. apply Z.ltb_ge in Hge. rewrite Hge in Ht. auto.
  - destruct (verify_request_spec m p H Hc Hp Hn) as (m' & E & Hf & Ht).
    exists m'. split; [exact E|]. split.
    + intros Hlt. apply Z.ltb_lt in Hlt. rewrite Hlt in Ht.
      eexists. apply replies_sent. exact Ht.
    + intros Hge. apply Z.ltb_ge in Hge. rewrite Hge in Ht. auto.
Qed.

(** C1 (as amended): for a [Write], [Read] or [Verify] request of the right
    size the page number is accepted if and only if it is below
    [NUM_PAGES = (FLASHEND + 1) / SPM_PAGESIZE], that is, if and only if the
    page lies within the device's whole flash, the region the bootloader
    itself occupies included; an accepted request is answered by the reply of
    its command, a rejected one by [Error(InvalidPageNumber)] with the flash
    unchanged.  In particular page [NUM_PAGES - 1] is accepted and page
    [NUM_PAGES] (when that number fits the page-number byte) is rejected. *)
Theorem page_number_checked_against_flash m command p :
  wf m -> buffer (msg m) !! 0%nat = Some command ->
  buffer (msg m) !! 1%nat = Some p ->
  (command = COMMAND_WRITE /\
   payload_size m = SPM_PAGESIZE + sizeof_page_no) \/
  ((command = COMMAND_READ \/ command = COMMAND_VERIFY) /\
   payload_size m = sizeof_page_no) ->
  exists m', process_msg m = Ok m' /\
    (p < NUM_PAGES <-> p * SPM_PAGESIZE + SPM_PAGESIZE <= FLASHEND + 1) /\
    (p < NUM_PAGES ->
     exists params, replies (reply_to command :: params) m m') /\
    (NUM_PAGES <= p ->
     trace m' = trace m ++ sent (sysex
       [REPLY_ERROR; error_value ERROR_INVALID_PAGE_NUMBER])
     /\ flash m' = flash m) /\
    (p = NUM_PAGES - 1 ->
     exists params, replies (reply_to command :: params) m m') /\
    (p = NUM_PAGES ->
     trace m' = trace m ++ sent (sysex
       [REPLY_ERROR; error_value ERROR_INVALID_PAGE_NUMBER])
     /\ flash m' = flash m).
Proof.
  intros H Hc Hp Hreq.
  pose proof (wf_byte1 m p H Hp) as Bp. unfold is_byte in Bp.
  destruct (page_request_spec m command p H Hc Hp Hreq)
    as (m' & E & Hok & Hbad).
  exists m'. split; [exact E|].
  split; [apply NUM_PAGES_iff; lia|].
  split; [exact Hok|]. split; [exact Hbad|]. split.
  - intros ->. apply Hok. lia.
  - intros ->. apply Hbad. lia.
Qed.


(** ** The nibble codec *)

Lemma length_nibbles bs : length (nibbles bs) = (2 * length bs)%nat.
Proof.
  induction bs as [|b bs IH]; [reflexivity|].
  change (nibbles (b :: bs))
    with ([Z.shiftr b 4; Z.land b 0x0f] ++ nibbles bs).
  rewrite length_app, IH. cbn [length]. lia.
Qed.

(** C5: the nibble codec round-trips.  For every payload held in a message
    buffer, the body loop of [send_msg] transmits two data bytes per payload
    byte (high nibble, then low nibble), and the parser in
    [STATE_READING_BODY], fed those bytes, rebuilds exactly the payload in its
    own buffer, counts its bytes, and accumulates the checksum the sender
    computed, without raising an error. *)
Theorem nibble_codec_roundtrip payload tx rx :
  wf tx -> take (length payload) (buffer (msg tx)) = payload ->
  wf rx -> state rx = STATE_READING_BODY ->
  payload_size rx = 0 -> bytes_read rx = 0 ->
  exists wire sum tx' rx',
    send_msg_loop UINT16_RANGE (Z.of_nat (length payload)) 0 0 tx
    = Ok (sum, tx')
    /\ trace tx' = trace tx ++ sent wire
    /\ length wire = (2 * length payload)%nat
    /\ loop_from wire rx = Ok rx'
    /\ take (length payload) (buffer (msg rx')) = payload
    /\ payload_size rx' = Z.of_nat (length payload)
    /\ checksum rx' = Z.lxor (checksum rx) sum
    /\ trace rx' = trace rx.
Proof.
  intros Ht Hpay Hr Es Hps Hbr.
  pose proof sizeof_buffer_range as Hsz.
  pose proof (wf_length _ Ht) as Hlt. pose proof (wf_length _ Hr) as Hlr.
  assert (Hlen : (length payload <= length (buffer (msg tx)))%nat).
  { rewrite <- Hpay at 1. rewrite length_take. lia. }
  assert (Bp : Forall is_byte payload).
  { rewrite <- Hpay. apply Forall_take, Ht. }
  exists (nibbles payload). eexists. eexists. eexists.
  split.
  { rewrite (send_msg_loop_spec (length payload));
      [|apply UINT16_RANGE_ge; lia|lia|lia|lia|lia].
    change (Z.to_nat 0) with 0%nat. rewrite drop_0, Hpay, Z.lxor_0_l.
    reflexivity. }
  split; [reflexivity|]. split; [apply length_nibbles|].
  split.
  { apply body_spec; (assumption || lia). }
  unfold decoded. fw_simpl. rewrite Hps.
  split; [|split; [lia|split; reflexivity]].
  change (Z.to_nat 0) with 0%nat. rewrite take_0. cbn [app].
  apply take_app_length.
Qed.

(** C10 (as amended): a data nibble that arrives in [STATE_READING_BODY] when
    an even number of nibbles has been read only overwrites the buffer byte
    at index [payload_size] with a half-built byte: the state, the payload
    size, the running checksum, the trace and the flash are unchanged.  If the
    end delimiter follows, the frame is finalized with the same replies, the
    same flash and the same final parser state as if that nibble had not been
    sent. *)
Theorem unpaired_nibble_discarded m nibble :
  wf m -> parser_inv m -> state m = STATE_READING_BODY ->
  bytes_read m = 2 * payload_size m -> 0 <= nibble <= 0xf ->
  exists m1, loop_body nibble m = Ok m1
    /\ state m1 = STATE_READING_BODY
    /\ payload_size m1 = payload_size m
    /\ checksum m1 = checksum m
    /\ trace m1 = trace m /\ flash m1 = flash m
    /\ buffer (msg m1)
       = <[Z.to_nat (payload_size m) := uint8_t (Z.shiftl nibble 4)]>
           (buffer (msg m))
    /\ exists a b,
         loop_body 0xf7 m = Ok a /\ loop_body 0xf7 m1 = Ok b
         /\ state a = STATE_IDLE /\ state b = STATE_IDLE
         /\ trace b = trace a /\ flash b = flash a.
Proof.
  intros H Hi Es Hbr Hn. pose proof sizeof_buffer_eq as Hsz.
  pose proof SPM_PAGESIZE_range as Hs. pose proof (wf_length _ H) as Hl.
  assert (Hps : 0 <= payload_size m < sizeof_buffer).
  { unfold parser_inv in Hi. rewrite Es in Hi. apply Hi. }
  rewrite loop_body_data by lia. rewrite Es.
  destruct (Z.gtb_spec nibble 0xf) as [|_]; [lia|].
  fw_simpl. rewrite Hbr, land_1_even. cbn [Z.eqb negb].
  rewrite put_buffer_Ok by (fw_simpl; lia). fw_simpl.
  destruct (Z.eqb_spec (payload_size m) sizeof_buffer) as [|_]; [lia|].
  set (v := uint8_t (Z.shiftl nibble 4)).
  set (m1 := set_buffer _ _).
  assert (H1 : wf m1).
  { apply (wf_insert _ _ (set_bytes_read _ m));
      [eapply wf_msg; [|exact H]; reflexivity|apply uint8_t_is_byte]. }
  exists m1. split; [reflexivity|]. split; [exact Es|].
  do 5 (split; [reflexivity|]).
  assert (Ns : state m <> STATE_IDLE) by (rewrite Es; discriminate).
  assert (Ns1 : state m1 <> STATE_IDLE) by (cbn; rewrite Es; discriminate).
  assert (Nh : state m <> STATE_MATCHING_HEADER)
    by (rewrite Es; discriminate).
  assert (Nh1 : state m1 <> STATE_MATCHING_HEADER)
    by (cbn; rewrite Es; discriminate).
  destruct (Z.le_gt_cases (payload_size m) sizeof_command) as [Hshort|Hlong].
  { destruct (invalid_format_aborts m H Ns (or_intror Hshort))
      as (a & Ea & Sa & Ta & Fa).
    destruct (invalid_format_aborts m1 H1 Ns1 (or_intror Hshort))
      as (b & Eb & Sb & Tb & Fb).
    exists a, b. repeat (split; [assumption|]).
    split; [rewrite Ta, Tb|rewrite Fa, Fb]; reflexivity. }
  destruct (Z.eq_dec (checksum m) 0) as [Hck|Hck].
  2:{ destruct (invalid_checksum_aborts m H Ns Nh ltac:(lia) Hck)
        as (a & Ea & Sa & Ta & Fa).
      destruct (invalid_checksum_aborts m1 H1 Ns1 Nh1 ltac:(cbn; lia) Hck)
        as (b & Eb & Sb & Tb & Fb).
      exists a, b. repeat (split; [assumption|]).
      split; [rewrite Ta, Tb|rewrite Fa, Fb]; reflexivity. }
  unfold sizeof_command in Hlong.
  rewrite (dispatch_spec m) by (assumption || (unfold sizeof_command; lia)).
  rewrite (dispatch_spec m1)
    by (assumption || (unfold sizeof_command; cbn; lia)).
  destruct (wf_lookup m 0 H ltac:(lia)) as (c & Hc & _).
  destruct (wf_lookup m 1 H ltac:(lia)) as (p & Hp & _).
  change (Z.to_nat 0) with 0%nat in Hc. change (Z.to_nat 1) with 1%nat in Hp.
  set (n := payload_size m - (sizeof_command + sizeof_checksum)).
  assert (Nw : n <> SPM_PAGESIZE + sizeof_page_no)
    by (unfold n, sizeof_command, sizeof_checksum, sizeof_page_no; lia).
  destruct (process_msg_table (set_payload_size n m) c p)
    as (a & Ea & _ & _ & Fa & Ta);
    [eapply wf_msg; [|exact H]; reflexivity|exact Hc|exact Hp|exact Nw|].
  destruct (process_msg_table (set_payload_size n m1) c p)
    as (b & Eb & _ & _ & Fb & Tb);
    [eapply wf_msg; [|exact H1]; reflexivity
    |cbn; rewrite list_lookup_insert_ne by lia; exact Hc
    |cbn; rewrite list_lookup_insert_ne by lia; exact Hp
    |exact Nw|].
  change (payload_size m1) with (payload_size m). fold n.
  rewrite Ea, Eb. cbn [bind].
  exists (set_state STATE_IDLE a), (set_state STATE_IDLE b).
  do 4 (split; [reflexivity|]). fw_simpl.
  split; [rewrite Ta, Tb|rewrite Fa, Fb]; reflexivity.
Qed.

(** ** Requests on the wire *)

Lemma bind_Ok {A} (c : outcome A) : (x <- c ;; Ok x) = c.
Proof. destruct c; reflexivity. Qed.

Lemma xor_bytes_with_checksum bs : xor_bytes (bs ++ [xor_bytes bs]) = 0.
Proof. rewrite xor_bytes_snoc. apply Z.lxor_nilpotent. Qed.

Lemma wf_received payload m :
  wf m -> Forall is_byte payload ->
  Z.of_nat (length payload) + 1 <= sizeof_buffer ->
  wf (received payload m).
Proof.
  intros H Bp Hlen. unfold received.
  eapply wf_msg; [|apply (wf_decoded (payload ++ [xor_bytes payload])
                            (header_matched (frame_started m)))].
  - reflexivity.
  - eapply wf_msg; [|exact H]. reflexivity.
  - apply Forall_app_2; [assumption|].
    constructor; [now apply xor_bytes_is_byte|constructor].
  - cbn. lia.
  - cbn [payload_size header_matched frame_started set_payload_size
           set_bytes_read set_state set_checksum].
    rewrite length_app. cbn [length]. lia.
Qed.

Lemma received_buffer payload m :
  buffer (msg (received payload m))
  = payload ++ [xor_bytes payload]
    ++ drop (length payload + 1) (buffer (msg m)).
Proof.
  unfold received, decoded, header_matched, frame_started. fw_simpl.
  change (Z.to_nat 0) with 0%nat. rewrite take_0, length_app.
  cbn [app length Nat.add]. now rewrite <- app_assoc.
Qed.

(** A well-formed frame received by the idle parser reaches the dispatcher. *)
Lemma request_frame_spec m payload :
  wf m -> state m = STATE_IDLE -> Forall is_byte payload ->
  0 < Z.of_nat (length payload) ->
  Z.of_nat (length payload) + 1 <= sizeof_buffer ->
  loop_from (sysex payload) m =
    (m' <- process_msg (received payload m) ;; Ok (set_state STATE_IDLE m')).
Proof.
  intros H Es Bp Hpos Hlen. pose proof sizeof_buffer_range as Hsz.
  set (bs := payload ++ [xor_bytes payload]).
  assert (Bbs : Forall is_byte bs).
  { apply Forall_app_2; [assumption|].
    constructor; [now apply xor_bytes_is_byte|constructor]. }
  assert (Lbs : Z.of_nat (length bs) = Z.of_nat (length payload) + 1).
  { unfold bs. rewrite length_app. cbn [length]. lia. }
  unfold sysex. fold bs.
  change (0xf0 :: HEADER ++ nibbles bs ++ [0xf7])
    with ([0xf0] ++ HEADER ++ nibbles bs ++ [0xf7]).
  rewrite loop_from_app. cbn [loop_from]. rewrite loop_body_start, Es.
  cbn [state_eqb state_value Z.eqb negb bind]. fold (frame_started m).
  assert (H0 : wf (frame_started m))
    by (eapply wf_msg; [|exact H]; reflexivity).
  rewrite app_assoc, loop_from_app.
  rewrite frame_body_spec by (assumption || reflexivity || lia).
  cbn [bind loop_from].
  set (m1 := decoded bs (header_matched (frame_started m))).
  assert (H1 : wf m1).
  { apply wf_decoded; [eapply wf_msg; [|exact H0]; reflexivity
                      |assumption|cbn; lia|cbn; lia]. }
  assert (S1 : state m1 <> STATE_IDLE /\ state m1 <> STATE_MATCHING_HEADER).
  { unfold m1, decoded. fw_simpl. destruct (_ =? _); split; discriminate. }
  assert (P1 : payload_size m1 = Z.of_nat (length payload) + 1).
  { unfold m1, decoded, header_matched, frame_started. fw_simpl. lia. }
  assert (C1 : checksum m1 = 0).
  { unfold m1, decoded, header_matched, frame_started. fw_simpl. unfold bs.
    now rewrite xor_bytes_with_checksum. }
  rewrite dispatch_spec
    by (first [assumption|apply S1|unfold sizeof_command; lia]).
  rewrite bind_Ok. rewrite P1.
  unfold received. fold bs. fold m1.
  replace (Z.of_nat (length payload) + 1 - (sizeof_command + sizeof_checksum))
    with (Z.of_nat (length payload) - 1)
    by (unfold sizeof_command, sizeof_checksum; lia).
  reflexivity.
Qed.

Lemma received_command c params m :
  buffer (msg (received (c :: params) m)) !! 0%nat = Some c.
Proof. rewrite received_buffer. reflexivity. Qed.

Lemma received_page_no c p params m :
  buffer (msg (received (c :: p :: params) m)) !! 1%nat = Some p.
Proof. rewrite received_buffer. reflexivity. Qed.

Lemma page_request_size (c p : Z) :
  Z.of_nat (length [c; p]) + 1 <= sizeof_buffer.
Proof. pose proof sizeof_buffer_range. cbn [length]. lia. Qed.

Lemma page_request_bytes c p : is_byte c -> is_byte p -> Forall is_byte [c; p].
Proof. intros Hc Hp. repeat constructor; (apply Hc || apply Hp). Qed.

(** C6: after a valid [Write] request for an in-range page with one page of
    data, received by the idle parser and answered by [Success], the page
    holds the data; a later [Read] request for the same page is answered by
    exactly the data bytes of the [Write], and a later [Verify] request for
    it by the one byte that is their XOR, for as long as that page has not
    been written again. *)
Theorem write_then_read_and_verify m p data :
  wf m -> state m = STATE_IDLE -> is_byte p -> p < NUM_PAGES ->
  Forall is_byte data -> Z.of_nat (length data) = SPM_PAGESIZE ->
  exists m1,
    loop_from (sysex (COMMAND_WRITE :: p :: data)) m = Ok m1
    /\ wf m1 /\ state m1 = STATE_IDLE
    /\ replies [REPLY_SUCCESS] m m1
    /\ page_contents (flash m1) (p * SPM_PAGESIZE) = data
    /\ forall m2, wf m2 -> state m2 = STATE_IDLE ->
         page_contents (flash m2) (p * SPM_PAGESIZE)
         = page_contents (flash m1) (p * SPM_PAGESIZE) ->
         (exists m3,
            loop_from (sysex [COMMAND_READ; p]) m2 = Ok m3
            /\ state m3 = STATE_IDLE /\ flash m3 = flash m2
            /\ trace m3 = trace m2 ++ sent (sysex (REPLY_READ :: data)))
         /\ (exists m3,
               loop_from (sysex [COMMAND_VERIFY; p]) m2 = Ok m3
               /\ state m3 = STATE_IDLE /\ flash m3 = flash m2
               /\ trace m3 = trace m2
                             ++ sent (sysex [REPLY_VERIFY; xor_bytes data])).
Proof.
  intros H Es Bp Hlt Bd Ld. pose proof sizeof_buffer_eq as Hsz.
  pose proof SPM_PAGESIZE_range as Hs.
  set (payload := COMMAND_WRITE :: p :: data).
  assert (Bpay : Forall is_byte payload).
  { constructor; [unfold is_byte, COMMAND_WRITE; lia|].
    constructor; assumption. }
  assert (Lpay : Z.of_nat (length payload) = SPM_PAGESIZE + 2)
    by (unfold payload; cbn [length]; lia).
  rewrite request_frame_spec by (assumption || lia).
  set (r := received payload m).
  assert (Hr : wf r) by (apply wf_received; (assumption || lia)).
  destruct (process_msg_total r Hr) as (m1 & E & H1 & _).
  destruct (write_request_spec r p Hr (received_command _ _ m)
              (received_page_no _ _ _ m)) as (m1' & E' & _ & _ & Hok).
  rewrite E in E'. injection E' as <-.
  destruct Hok as (es & Ht & Hes & Hpc);
    [unfold r; cbn [payload_size received set_payload_size];
     unfold sizeof_page_no; lia|assumption|].
  assert (Hdata : page_contents (flash m1) (p * SPM_PAGESIZE) = data).
  { rewrite Hpc. unfold r. rewrite received_buffer. unfold payload.
    cbn [app drop]. rewrite <- Ld, Nat2Z.id. apply take_app_length. }
  rewrite E. cbn [bind].
  exists (set_state STATE_IDLE m1).
  split; [reflexivity|].
  split; [eapply wf_msg; [|exact H1]; reflexivity|].
  split; [reflexivity|]. split.
  { exists (ev_page_erase (p * SPM_PAGESIZE) :: es
            ++ sent (sysex [REPLY_SUCCESS])).
    split; [exact Ht|].
    change (ev_page_erase (p * SPM_PAGESIZE) :: es
            ++ sent (sysex [REPLY_SUCCESS]))
      with ((ev_page_erase (p * SPM_PAGESIZE) :: es)
            ++ sent (sysex [REPLY_SUCCESS])).
    rewrite uart_output_app, uart_output_sent.
    change (uart_output (ev_page_erase (p * SPM_PAGESIZE) :: es))
      with (uart_output es).
    now rewrite Hes. }
  split; [exact Hdata|].
  intros m2 H2 Es2 Hsame. fw_simpl. rewrite Hdata in Hsame.
  apply Z.ltb_lt in Hlt. split.
  - rewrite request_frame_spec;
      [|assumption|assumption
       |apply page_request_bytes; [unfold is_byte, COMMAND_READ; lia|assumption]
       |cbn [length]; lia|apply page_request_size].
    destruct (read_request_spec (received [COMMAND_READ; p] m2) p)
      as (m3 & E3 & Hf & Ht3);
      [apply wf_received;
         [assumption
         |apply page_request_bytes; [unfold is_byte, COMMAND_READ; lia|assumption]
         |apply page_request_size]
      |apply received_command|apply received_page_no|reflexivity|].
    rewrite E3. cbn [bind]. eexists. split; [reflexivity|].
    split; [reflexivity|]. split; [exact Hf|].
    fw_simpl. rewrite Ht3, Hlt. cbn [flash received set_payload_size decoded].
    change (flash (header_matched (frame_started m2))) with (flash m2).
    now rewrite Hsame.
  - rewrite request_frame_spec;
      [|assumption|assumption
       |apply page_request_bytes; [unfold is_byte, COMMAND_VERIFY; lia|assumption]
       |cbn [length]; lia|apply page_request_size].
    destruct (verify_request_spec (received [COMMAND_VERIFY; p] m2) p)
      as (m3 & E3 & Hf & Ht3);
      [apply wf_received;
         [assumption
         |apply page_request_bytes; [unfold is_byte, COMMAND_VERIFY; lia|assumption]
         |apply page_request_size]
      |apply received_command|apply received_page_no|reflexivity|].
    rewrite E3. cbn [bind]. eexists. split; [reflexivity|].
    split; [reflexivity|]. split; [exact Hf|].
    fw_simpl. rewrite Ht3, Hlt. cbn [flash received set_payload_size decoded].
    change (flash (header_matched (frame_started m2))) with (flash m2).
    now rewrite Hsame.
Qed.

(** ** Further properties: the programming sequence of a [Write] *)

Lemma command_write_loop_events (k : nat) : forall fuel addr m,
  wf m -> (k <= fuel)%nat -> 0 <= addr ->
  SPM_PAGESIZE <= addr + 2 * Z.of_nat k < SPM_PAGESIZE + 2 ->
  exists m',
    command_write_loop fuel addr (offsetof_page_data + addr) m = Ok m'
    /\ msg m' = msg m
    /\ trace m' = trace m
         ++ fill_events addr
              (take (2 * k)
                 (drop (Z.to_nat (offsetof_page_data + addr))
                    (buffer (msg m)))).
Proof.
  pose proof SPM_PAGESIZE_range as Hs.
  pose proof sizeof_buffer_eq as Hsz.
  induction k as [|k IH]; intros fuel addr m H Hf Ha Hk.
  - exists m.
    assert (E : (addr <? SPM_PAGESIZE) = false) by (apply Z.ltb_ge; lia).
    split; [|split; [reflexivity|]].
    + destruct fuel; cbn [command_write_loop]; now rewrite E.
    + cbn [Nat.mul take fill_events]. now rewrite app_nil_r.
  - destruct fuel as [|fuel]; [lia|].
    cbn [command_write_loop].
    assert (E : (addr <? SPM_PAGESIZE) = true) by (apply Z.ltb_lt; lia).
    rewrite E. unfold offsetof_page_data in *.
    destruct (wf_lookup m (2 + addr) H ltac:(lia)) as (lo & Hlo & Blo).
    destruct (wf_lookup m (2 + addr + 1) H ltac:(lia)) as (hi & Hhi & Bhi).
    rewrite (get_buffer_Ok _ lo) by (lia || assumption). fw_simpl.
    rewrite (get_buffer_Ok _ hi) by (lia || assumption). fw_simpl.
    rewrite word_of_bytes by assumption.
    rewrite uint16_t_id by lia.
    set (m1 := boot_page_fill _ _ _).
    assert (H1 : wf m1) by (eapply wf_msg; [|exact H]; reflexivity).
    destruct (IH fuel (addr + 2) m1 H1 ltac:(lia) ltac:(lia) ltac:(lia))
      as (m' & Hrun & Hmsg & Ht).
    replace (2 + addr + 2) with (2 + (addr + 2)) by lia.
    rewrite Hrun. exists m'. split; [reflexivity|]. split; [exact Hmsg|].
    rewrite Ht. unfold m1. fw_simpl. rewrite <- app_assoc. f_equal.
    replace (2 * S k)%nat with (S (S (2 * k))) by lia.
    rewrite (drop_S _ lo (Z.to_nat (2 + addr))) by exact Hlo.
    replace (S (Z.to_nat (2 + addr))) with (Z.to_nat (2 + addr + 1)) by lia.
    rewrite (drop_S _ hi (Z.to_nat (2 + addr + 1))) by exact Hhi.
    replace (S (Z.to_nat (2 + addr + 1))) with (Z.to_nat (2 + (addr + 2)))
      by lia.
    reflexivity.
Qed.

Lemma command_write_events p m :
  wf m -> buffer (msg m) !! 1%nat = Some p -> 0 <= p < NUM_PAGES ->
  exists m', command_write m = Ok m'
    /\ msg m' = msg m
    /\ trace m' = trace m ++ write_events p (buffer (msg m)).
Proof.
  intros H Hp Hr. pose proof SPM_PAGESIZE_range as Hs.
  unfold command_write. rewrite (page_address_spec p) by assumption.
  fw_simpl.
  set (page := p * SPM_PAGESIZE).
  set (m0 := boot_page_erase page m).
  assert (H0 : wf m0) by (eapply wf_msg; [|exact H]; reflexivity).
  set (k := Z.to_nat ((SPM_PAGESIZE + 1) / 2)).
  assert (Hk : SPM_PAGESIZE <= 0 + 2 * Z.of_nat k < SPM_PAGESIZE + 2).
  { unfold k. rewrite Z2Nat.id by (apply Z.div_pos; lia).
    Z.div_mod_to_equations. lia. }
  destruct (command_write_loop_events k UINT16_RANGE 0 m0 H0)
    as (m1 & Hrun & Hmsg & Ht);
    [apply UINT16_RANGE_ge; lia|lia|exact Hk|].
  change (offsetof_page_data + 0) with offsetof_page_data in Hrun, Ht.
  rewrite Hrun. fw_simpl. eexists. split; [reflexivity|].
  fw_simpl. split; [exact Hmsg|].
  rewrite Ht. unfold m0, write_events. fw_simpl. fold page. fold k.
  rewrite <- !app_assoc. reflexivity.
Qed.

(** ** Further properties: the dispatcher *)

Lemma process_msg_table_other m c p :
  wf m -> buffer (msg m) !! 0%nat = Some c ->
  buffer (msg m) !! 1%nat = Some p -> c <> COMMAND_WRITE ->
  exists m', process_msg m = Ok m'
    /\ wf m' /\ same_regs m m' /\ flash m' = flash m
    /\ trace m' = trace m ++ dispatch_table c p (payload_size m) (flash m).
Proof.
  intros H Hc Hp Hn.
  pose proof (wf_byte1 m p H Hp) as Bp. unfold is_byte in Bp.
  assert (Err : forall e, exists m',
    reply_error (error_value e) m = Ok m'
    /\ wf m' /\ same_regs m m' /\ flash m' = flash m
    /\ trace m' = trace m ++ sent (sysex [REPLY_ERROR; error_value e]))
    by (intros e; now apply error_reply_props).
  rewrite (process_msg_command c) by assumption.
  unfold dispatch_table, CHECK.
  destruct (c =? COMMAND_PING).
  { destruct (payload_size m =? 0); cbn [negb]; [|apply Err].
    apply reply_success_props. assumption. }
  destruct (Z.eqb_spec c COMMAND_WRITE) as [|_]; [contradiction|].
  destruct (c =? COMMAND_VERIFY).
  { destruct (payload_size m =? sizeof_page_no); cbn [negb]; [|apply Err].
    rewrite (get_page_no m p) by assumption. fw_simpl.
    destruct (Z.ltb_spec p NUM_PAGES); cbn [negb]; [|apply Err].
    rewrite (verify_page_spec p m) by (assumption || lia).
    eexists. split; [reflexivity|]. split; [|repeat split].
    eapply wf_msg;
      [|apply (wf_insert 0%nat REPLY_VERIFY);
        [apply (wf_insert 1%nat); [exact H|]|]].
    - reflexivity.
    - apply xor_bytes_is_byte, page_contents_bytes.
    - unfold is_byte, REPLY_VERIFY. lia. }
  destruct (c =? COMMAND_READ).
  { destruct (payload_size m =? sizeof_page_no); cbn [negb]; [|apply Err].
    rewrite (get_page_no m p) by assumption. fw_simpl.
    destruct (Z.ltb_spec p NUM_PAGES); cbn [negb]; [|apply Err].
    destruct (read_page_spec p m H Hp ltac:(lia)) as (b & Hrun & Lb & Bb).
    rewrite Hrun. eexists. split; [reflexivity|]. split; [|repeat split].
    eapply wf_msg; [|apply (wf_set_buffer b m H Lb Bb)]. reflexivity. }
  destruct (c =? COMMAND_QUIT).
  { destruct (payload_size m =? 0); cbn [negb]; [|apply Err].
    destruct (reply_success_props m H) as (m' & -> & Hw & Hr & Hf & Ht).
    fw_simpl. eexists. split; [reflexivity|].
    split; [eapply wf_msg; [|exact Hw]; reflexivity|].
    split; [exact Hr|]. split; [exact Hf|].
    fw_simpl. rewrite Ht. now rewrite <- app_assoc. }
  apply Err.
Qed.

Lemma write_request_events m p :
  wf m -> buffer (msg m) !! 0%nat = Some COMMAND_WRITE ->
  buffer (msg m) !! 1%nat = Some p ->
  payload_size m = SPM_PAGESIZE + sizeof_page_no -> p < NUM_PAGES ->
  exists m', process_msg m = Ok m'
    /\ wf m' /\ same_regs m m'
    /\ trace m' = trace m ++ write_events p (buffer (msg m))
                  ++ sent (sysex [REPLY_SUCCESS])
    /\ page_contents (flash m') (p * SPM_PAGESIZE)
       = take (Z.to_nat SPM_PAGESIZE) (drop 2 (buffer (msg m)))
    /\ (forall a, a / SPM_PAGESIZE <> p -> pgm (flash m') a = pgm (flash m) a).
Proof.
  intros H Hc Hp Hn Hlt.
  pose proof (wf_byte1 m p H Hp) as Bp. unfold is_byte in Bp.
  destruct (process_msg_total m H) as (m' & E & Hw & Hr).
  exists m'. split; [exact E|]. split; [exact Hw|]. split; [exact Hr|].
  destruct (write_request_spec m p H Hc Hp) as (m2 & E2 & _ & _ & Hok).
  rewrite E in E2. injection E2 as <-.
  destruct (Hok Hn Hlt) as (_ & _ & _ & Hpc).
  rewrite (process_msg_command COMMAND_WRITE) in E by assumption.
  change (COMMAND_WRITE =? COMMAND_PING) with false in E.
  change (COMMAND_WRITE =? COMMAND_WRITE) with true in E. cbv iota in E.
  unfold CHECK in E. rewrite Hn, Z.eqb_refl in E. cbn [negb] in E.
  rewrite (get_page_no m p) in E by assumption. fw_simpl.
  apply Z.ltb_lt in Hlt. rewrite Hlt in E. cbn [negb] in E.
  apply Z.ltb_lt in Hlt.
  destruct (command_write_spec p m H Hp ltac:(lia))
    as (f & es & Hrun & _ & _ & _ & Hother).
  destruct (command_write_events p m H Hp ltac:(lia))
    as (m1 & Hrun1 & Hmsg1 & Ht1).
  rewrite Hrun in Hrun1. injection Hrun1 as <-.
  rewrite Hrun in E. fw_simpl.
  rewrite reply_success_spec in E
    by (eapply wf_msg; [|exact H]; reflexivity).
  injection E as <-. fw_simpl.
  split; [|split; [exact Hpc|exact Hother]].
  fw_simpl. rewrite Ht1. now rewrite <- app_assoc.
Qed.

Lemma not_in_sent bs : ~ In ev_program_main (sent bs).
Proof.
  induction bs as [|b bs IH]; cbn; [tauto|].
  intros [Hd|Hin]; [discriminate|contradiction].
Qed.

Lemma not_in_fill_events_len (n : nat) : forall bytes addr,
  (length bytes <= n)%nat -> ~ In ev_program_main (fill_events addr bytes).
Proof.
  induction n as [|n IH]; intros [|lo [|hi rest]] addr Hn; cbn in *;
    try tauto; try lia.
  intros [Hd|Hin]; [discriminate|].
  apply IH in Hin; [assumption|lia].
Qed.

Lemma not_in_fill_events bytes addr :
  ~ In ev_program_main (fill_events addr bytes).
Proof. now apply (not_in_fill_events_len (length bytes)). Qed.

Lemma not_in_write_events p b : ~ In ev_program_main (write_events p b).
Proof.
  unfold write_events. rewrite !in_app_iff. cbn.
  intros [[Hd|[]]|[Hin|[Hd|[Hd|[]]]]]; try discriminate.
  now apply not_in_fill_events in Hin.
Qed.

Lemma not_in_dispatch_table c p n f :
  ~ (c = COMMAND_QUIT /\ n = 0) ->
  ~ In ev_program_main (dispatch_table c p n f).
Proof.
  intros Hq. unfold dispatch_table.
  destruct (c =? COMMAND_PING);
    [destruct (n =? 0); apply not_in_sent|].
  destruct (c =? COMMAND_WRITE); [apply not_in_sent|].
  destruct (c =? COMMAND_VERIFY);
    [destruct (n =? sizeof_page_no);
       [destruct (p <? NUM_PAGES)|]; apply not_in_sent|].
  destruct (c =? COMMAND_READ);
    [destruct (n =? sizeof_page_no);
       [destruct (p <? NUM_PAGES)|]; apply not_in_sent|].
  destruct (Z.eqb_spec c COMMAND_QUIT) as [Ec|_]; [|apply not_in_sent].
  destruct (Z.eqb_spec n 0) as [En|_]; [tauto|apply not_in_sent].
Qed.

Lemma dispatch_table_quit p f :
  dispatch_table COMMAND_QUIT p 0 f
  = sent (sysex [REPLY_SUCCESS]) ++ [ev_program_main].
Proof. reflexivity. Qed.

(** What one dispatched message does: a valid [Write], a [Write] of the
    right size for a page that does not exist, or a row of the table. *)
Lemma process_msg_cases m c p :
  wf m -> buffer (msg m) !! 0%nat = Some c ->
  buffer (msg m) !! 1%nat = Some p ->
  exists m' es, process_msg m = Ok m' /\ wf m' /\ same_regs m m'
    /\ trace m' = trace m ++ es
    /\ ((c = COMMAND_WRITE
         /\ payload_size m = SPM_PAGESIZE + sizeof_page_no
         /\ p < NUM_PAGES
         /\ es = write_events p (buffer (msg m))
                 ++ sent (sysex [REPLY_SUCCESS])
         /\ page_contents (flash m') (p * SPM_PAGESIZE)
            = take (Z.to_nat SPM_PAGESIZE) (drop 2 (buffer (msg m)))
         /\ (forall a, a / SPM_PAGESIZE <> p ->
               pgm (flash m') a = pgm (flash m) a))
        \/ (c = COMMAND_WRITE
            /\ payload_size m = SPM_PAGESIZE + sizeof_page_no
            /\ NUM_PAGES <= p
            /\ es = sent (sysex [REPLY_ERROR;
                                 error_value ERROR_INVALID_PAGE_NUMBER])
            /\ flash m' = flash m)
        \/ (~ (c = COMMAND_WRITE
               /\ payload_size m = SPM_PAGESIZE + sizeof_page_no)
            /\ es = dispatch_table c p (payload_size m) (flash m)
            /\ flash m' = flash m)).
Proof.
  intros H Hc Hp.
  destruct (Z.eq_dec c COMMAND_WRITE) as [->|Nw].
  - destruct (Z.eq_dec (payload_size m) (SPM_PAGESIZE + sizeof_page_no))
      as [En|Nn].
    + destruct (Z.lt_ge_cases p NUM_PAGES) as [Hlt|Hge].
      * destruct (write_request_events m p H Hc Hp En Hlt)
          as (m' & E & Hw & Hr & Ht & Hpc & Hother).
        exists m'. eexists. repeat (split; [eassumption|]).
        left. auto 10.
      * destruct (process_msg_total m H) as (m' & E & Hw & Hr).
        destruct (write_request_spec m p H Hc Hp) as (m2 & E2 & _ & Hbad & _).
        rewrite E in E2. injection E2 as <-.
        destruct (Hbad En Hge) as [Ht Hf].
        exists m'. eexists. repeat (split; [eassumption|]).
        right. left. auto 10.
    + destruct (process_msg_table m COMMAND_WRITE p H Hc Hp Nn)
        as (m' & E & Hw & Hr & Hf & Ht).
      exists m'. eexists. repeat (split; [eassumption|]).
      right. right. split; [tauto|auto].
  - destruct (process_msg_table_other m c p H Hc Hp Nw)
      as (m' & E & Hw & Hr & Hf & Ht).
    exists m'. eexists. repeat (split; [eassumption|]).
    right. right. split; [tauto|auto].
Qed.

(** ** Further properties: the parser, byte by byte *)

(** What one received byte does: nothing that can be observed, one error
    reply, or the dispatch of the message in the buffer. *)
Lemma loop_body_cases byte m :
  wf m -> parser_inv m ->
  exists m' es, loop_body byte m = Ok m' /\ trace m' = trace m ++ es
    /\ wf m' /\ parser_inv m'
    /\ ((es = [] /\ flash m' = flash m)
        \/ (exists e, es = sent (sysex [REPLY_ERROR; error_value e])
                      /\ flash m' = flash m)
        \/ (byte = 0xf7 /\ state m <> STATE_IDLE /\ checksum m = 0
            /\ sizeof_command < payload_size m <= sizeof_buffer
            /\ exists m1,
                 process_msg
                   (set_payload_size
                      (payload_size m - (sizeof_command + sizeof_checksum)) m)
                 = Ok m1
                 /\ m' = set_state STATE_IDLE m1)).
Proof.
  intros H I. pose proof sizeof_buffer_range as Hsz.
  pose proof (wf_length _ H) as Hl.
  assert (Abort : forall e m0, wf m0 -> trace m0 = trace m ->
    flash m0 = flash m -> exists m' es,
    (m <- reply_error (error_value e) m0 ;; Ok (set_state STATE_IDLE m))
      = Ok m' /\ trace m' = trace m ++ es /\ wf m' /\ parser_inv m'
    /\ ((es = [] /\ flash m' = flash m)
        \/ (exists e, es = sent (sysex [REPLY_ERROR; error_value e])
                      /\ flash m' = flash m)
        \/ (byte = 0xf7 /\ state m <> STATE_IDLE /\ checksum m = 0
            /\ sizeof_command < payload_size m <= sizeof_buffer
            /\ exists m1,
                 process_msg
                   (set_payload_size
                      (payload_size m - (sizeof_command + sizeof_checksum)) m)
                 = Ok m1
                 /\ m' = set_state STATE_IDLE m1))).
  { intros e m0 H0 Ht0 Hf0.
    destruct (abort_spec e m0 H0) as (m' & E & Hw & Hs & Hf & _ & Ht).
    exists m'. eexists. split; [exact E|].
    split; [rewrite Ht, Ht0; reflexivity|]. split; [assumption|].
    split; [unfold parser_inv; now rewrite Hs|].
    right. left. exists e. split; [reflexivity|congruence]. }
  assert (Silent : forall m0, wf m0 -> parser_inv m0 -> trace m0 = trace m ->
    flash m0 = flash m -> exists m' es,
    Ok m0 = Ok m' /\ trace m' = trace m ++ es /\ wf m' /\ parser_inv m'
    /\ ((es = [] /\ flash m' = flash m)
        \/ (exists e, es = sent (sysex [REPLY_ERROR; error_value e])
                      /\ flash m' = flash m)
        \/ (byte = 0xf7 /\ state m <> STATE_IDLE /\ checksum m = 0
            /\ sizeof_command < payload_size m <= sizeof_buffer
            /\ exists m1,
                 process_msg
                   (set_payload_size
                      (payload_size m - (sizeof_command + sizeof_checksum)) m)
                 = Ok m1
                 /\ m' = set_state STATE_IDLE m1))).
  { intros m0 H0 I0 Ht0 Hf0. exists m0, []. split; [reflexivity|].
    split; [now rewrite app_nil_r|]. auto. }
  destruct (Z.lt_ge_cases byte 0x80) as [Hd|Hnd].
  - rewrite loop_body_data by assumption.
    unfold parser_inv in I.
    destruct (state m) eqn:Es.
    + apply Silent; trivial. unfold parser_inv. now rewrite Es.
    + destruct I as (Hbr & Hps & Hck). unfold sizeof_header in *.
      assert (Hh : exists h, HEADER !! Z.to_nat (bytes_read m) = Some h).
      { apply lookup_lt_is_Some_2. cbn. lia. }
      destruct Hh as [h Hh].
      rewrite (get_header_wf _ h) by (assumption || lia). fw_simpl.
      rewrite uint16_t_id by lia.
      destruct (negb (byte =? h)).
      * apply Abort; [eapply wf_msg; [|exact H]; reflexivity| |];
          reflexivity.
      * destruct (Z.eqb_spec (bytes_read m + 1) 3) as [E3|N3].
        -- apply Silent; [eapply wf_msg; [|exact H]; reflexivity| | |];
             [|reflexivity|reflexivity].
           unfold parser_inv. fw_simpl. lia.
        -- apply Silent; [eapply wf_msg; [|exact H]; reflexivity| | |];
             [|reflexivity|reflexivity].
           unfold parser_inv. fw_simpl. rewrite Es.
           unfold sizeof_header. lia.
    + destruct I as (Hps & Hbr).
      destruct (byte >? 0xf).
      * apply Abort; trivial.
      * fw_simpl.
        assert (Hu : uint16_t (bytes_read m + 1) = bytes_read m + 1)
          by (apply uint16_t_id; lia).
        rewrite Hu.
        destruct Hbr as [Hbr|Hbr]; rewrite Hbr.
        -- rewrite land_1_even. cbn [Z.eqb negb].
           rewrite put_buffer_Ok by (fw_simpl; lia). fw_simpl.
           destruct (Z.eqb_spec (payload_size m) sizeof_buffer); [lia|].
           apply Silent; [| |reflexivity|reflexivity].
           ++ apply (wf_insert _ _ (set_bytes_read _ m));
                [eapply wf_msg; [|exact H]; reflexivity
                |apply uint8_t_is_byte].
           ++ unfold parser_inv. fw_simpl. rewrite Es. lia.
        -- rewrite land_1_odd. cbn [Z.eqb negb].
           destruct (wf_lookup m (payload_size m) H ltac:(lia))
             as (old & Hold & Bold).
           rewrite (get_buffer_Ok _ old) by (fw_simpl; (lia || assumption)).
           fw_simpl.
           rewrite put_buffer_Ok by (fw_simpl; lia). fw_simpl.
           rewrite (get_buffer_Ok _ (uint8_t (old + byte)))
             by (fw_simpl; first [lia|apply list_lookup_insert_eq; lia]).
           fw_simpl. rewrite (uint16_t_id (payload_size m + 1)) by lia.
           set (m2 := set_checksum _ _).
           assert (H2 : wf m2).
           { eapply wf_msg;
               [|apply (wf_insert (Z.to_nat (payload_size m))
                          (uint8_t (old + byte)) m H);
                 apply uint8_t_is_byte].
             reflexivity. }
           destruct (Z.eqb_spec (payload_size m + 1) sizeof_buffer).
           ++ apply Silent; [eapply wf_msg; [|exact H2]; reflexivity| | |];
                [|reflexivity|reflexivity].
              unfold parser_inv. fw_simpl. assumption.
           ++ apply Silent; [assumption| |reflexivity|reflexivity].
              unfold parser_inv, m2. fw_simpl. rewrite Es. fw_simpl. lia.
    + apply Abort; trivial.
  - destruct (Z.eq_dec byte 0xf0) as [->|N0].
    { rewrite loop_body_start.
      destruct (state_eqb (state m) STATE_IDLE); cbn [negb].
      - fw_simpl. apply Silent; [eapply wf_msg; [|exact H]; reflexivity| | |];
          [|reflexivity|reflexivity].
        unfold parser_inv, sizeof_header. fw_simpl. lia.
      - destruct (reply_error_props (error_value ERROR_INCOMPLETE_MESSAGE) m H)
          as (m1 & -> & H1 & _ & Hf & Ht).
        fw_simpl. eexists. eexists. split; [reflexivity|].
        split; [fw_simpl; rewrite Ht; reflexivity|].
        split; [eapply wf_msg; [|exact H1]; reflexivity|].
        split; [unfold parser_inv, sizeof_header; fw_simpl; lia|].
        right. left. exists ERROR_INCOMPLETE_MESSAGE.
        split; [|exact Hf]. reflexivity. }
    destruct (Z.eq_dec byte 0xf7) as [->|N7].
    { rewrite loop_body_end.
      destruct (state_eqb (state m) STATE_IDLE) eqn:Ei; cbn [negb].
      { apply Silent; trivial. }
      assert (Ni : state m <> STATE_IDLE)
        by (intros Ei'; rewrite Ei' in Ei; discriminate).
      destruct ((state_value (state m) <? state_value STATE_READING_BODY)
                || (payload_size m <=? sizeof_command)) eqn:Ef.
      { apply Abort; trivial. }
      apply orb_false_iff in Ef. destruct Ef as [Ef1 Ef2].
      apply Z.ltb_ge in Ef1. apply Z.leb_gt in Ef2.
      destruct (Z.eqb_spec (checksum m) 0) as [Ec|Nc]; cbn [negb].
      2: { apply Abort; trivial. }
      assert (Hps : payload_size m <= sizeof_buffer).
      { unfold parser_inv in I.
        destruct (state m); cbn in Ef1; [contradiction|lia|lia|lia]. }
      assert (Hu : uint16_t (payload_size m
                             - (sizeof_command + sizeof_checksum))
                   = payload_size m - (sizeof_command + sizeof_checksum)).
      { apply uint16_t_id. unfold sizeof_command, sizeof_checksum in *. lia. }
      rewrite Hu.
      match goal with |- context [process_msg ?m0] =>
        destruct (process_msg_total m0) as (m1 & E1 & H1 & _);
          [eapply wf_msg; [|exact H]; reflexivity|]
      end.
      rewrite E1. fw_simpl.
      destruct (wf_lookup m 0 H ltac:(lia)) as (c & Hc & _).
      destruct (wf_lookup m 1 H ltac:(lia)) as (p & Hp & _).
      destruct (process_msg_cases
                  (set_payload_size
                     (payload_size m - (sizeof_command + sizeof_checksum)) m)
                  c p) as (m1' & es & E1' & _ & _ & Ht & _);
        [eapply wf_msg; [|exact H]; reflexivity|exact Hc|exact Hp|].
      rewrite E1 in E1'. injection E1' as <-.
      exists (set_state STATE_IDLE m1), es. split; [reflexivity|].
      split; [exact Ht|].
      split; [eapply wf_msg; [|exact H1]; reflexivity|].
      split; [exact Logic.I|].
      right. right. repeat split; trivial. exists m1. auto. }
    rewrite loop_body_other by lia. apply Silent; trivial.
Qed.

(** The events of a run, one list for every received byte. *)
Lemma loop_from_events input : forall m,
  wf m -> parser_inv m ->
  exists m' ess, loop_from input m = Ok m' /\ wf m' /\ parser_inv m'
    /\ trace m' = trace m ++ concat ess
    /\ Forall step_events ess /\ length ess = length input.
Proof.
  induction input as [|byte input IH]; intros m H Hi.
  - exists m, []. cbn. rewrite app_nil_r.
    split; [reflexivity|]. split; [exact H|]. split; [exact Hi|].
    split; [reflexivity|]. split; [constructor|reflexivity].
  - destruct (loop_body_cases byte m H Hi)
      as (m1 & es & E1 & Ht1 & H1 & I1 & Hcase).
    destruct (IH m1 H1 I1) as (m' & ess & E & Hw & Hi' & Ht & Hall & Hlen).
    exists m', (es :: ess). cbn [loop_from]. rewrite E1. cbn [bind].
    split; [exact E|]. split; [exact Hw|]. split; [exact Hi'|].
    split; [rewrite Ht, Ht1; cbn [concat]; now rewrite <- app_assoc|].
    split; [|cbn; lia]. constructor; [|exact Hall].
    destruct Hcase as [[-> _]|[(e & -> & _)|(_ & _ & _ & _ & m2 & E2 & ->)]].
    + left. reflexivity.
    + right. left. eauto.
    + pose proof sizeof_buffer_range as Hsz.
      destruct (wf_lookup m 0 H ltac:(lia)) as (c & Hc & _).
      destruct (wf_lookup m 1 H ltac:(lia)) as (p & Hp & _).
      destruct (process_msg_cases
                  (set_payload_size
                     (payload_size m - (sizeof_command + sizeof_checksum)) m)
                  c p) as (m2' & es' & E2' & _ & _ & Ht2 & Hc2);
        [eapply wf_msg; [|exact H]; reflexivity|exact Hc|exact Hp|].
      rewrite E2 in E2'. injection E2' as <-.
      assert (es = es').
      { apply (app_inv_head (trace m)). rewrite <- Ht1. exact Ht2. }
      subst es'.
      destruct Hc2 as [(_ & _ & _ & -> & _)|[(_ & _ & _ & -> & _)
                                              |(_ & -> & _)]].
      * right. right. right. eauto.
      * right. left. eauto.
      * right. right. left. eauto 6.
Qed.

Lemma step_events_jump es :
  step_events es ->
  ~ In ev_program_main es
  \/ es = sent (sysex [REPLY_SUCCESS]) ++ [ev_program_main].
Proof.
  intros [->|[(e & ->)|[(c & p & n & f & ->)|(p & b & ->)]]].
  - left. intros [].
  - left. apply not_in_sent.
  - destruct (Z.eq_dec c COMMAND_QUIT) as [->|Nq].
    + destruct (Z.eq_dec n 0) as [->|N0].
      * right. apply dispatch_table_quit.
      * left. apply not_in_dispatch_table. tauto.
    + left. apply not_in_dispatch_table. tauto.
  - left. rewrite in_app_iff.
    intros [Hin|Hin];
      [now apply not_in_write_events in Hin|now apply not_in_sent in Hin].
Qed.

Lemma app_program_main_inv (a l post : list event) :
  ~ In ev_program_main a ->
  a ++ [ev_program_main] = l ++ ev_program_main :: post ->
  l = a /\ post = [].
Proof.
  revert l. induction a as [|x a IH]; intros l Hn E.
  - destruct l as [|y l]; cbn in E.
    + injection E as <-. auto.
    + injection E as <- E. destruct l; discriminate.
  - destruct l as [|y l]; cbn in E.
    + injection E as E1 E2. exfalso. apply Hn. left. exact E1.
    + injection E as <- E. apply IH in E.
      * destruct E as [-> ->]. auto.
      * intros Hin. apply Hn. right. exact Hin.
Qed.

Lemma jumps_step t es :
  jumps_after_success t -> step_events es -> jumps_after_success (t ++ es).
Proof.
  intros Ht Hs pre post E. apply step_events_jump in Hs.
  apply app_eq_app in E. destruct E as (l & [[E1 E2]|[E1 E2]]).
  - destruct l as [|x l].
    + cbn in E2. destruct Hs as [Hn|Hq].
      * exfalso. apply Hn. rewrite <- E2. now left.
      * rewrite Hq in E2. discriminate.
    + cbn in E2. injection E2 as <- E2. apply (Ht pre l). exact E1.
  - destruct Hs as [Hn|Hq].
    + exfalso. apply Hn. rewrite E2, in_app_iff. right. now left.
    + rewrite Hq in E2. apply app_program_main_inv in E2;
        [|apply not_in_sent].
      destruct E2 as [-> _]. exists t. exact E1.
Qed.

Lemma jumps_steps ess : forall t,
  jumps_after_success t -> Forall step_events ess ->
  jumps_after_success (t ++ concat ess).
Proof.
  induction ess as [|es ess IH]; intros t Ht Hall.
  - cbn. now rewrite app_nil_r.
  - apply Forall_cons in Hall. destruct Hall as [Hes Hall].
    cbn [concat]. rewrite app_assoc. apply IH; [|exact Hall].
    now apply jumps_step.
Qed.

Lemma jumps_nil : jumps_after_success [].
Proof. intros [|x pre] post E; discriminate. Qed.

(** ** Further properties: requests on the wire *)

Lemma received_byte1 c params m :
  buffer (msg (received (c :: params) m)) !! 1%nat
  = Some (hd (xor_bytes (c :: params)) params).
Proof. rewrite received_buffer. destruct params; reflexivity. Qed.

Lemma received_size c params m :
  payload_size (received (c :: params) m) = Z.of_nat (length params).
Proof. unfold received. fw_simpl. cbn [length]. lia. Qed.

(** What the idle parser does with a frame that holds the command byte [c]
    and the parameters [params]; [p] is the byte [msg.page_no] names. *)
Lemma request_cases m c params :
  wf m -> state m = STATE_IDLE -> is_byte c -> Forall is_byte params ->
  Z.of_nat (length params) + 2 <= sizeof_buffer ->
  exists m' es,
    loop_from (sysex (c :: params)) m = Ok m'
    /\ wf m' /\ state m' = STATE_IDLE /\ trace m' = trace m ++ es
    /\ ((c = COMMAND_WRITE
         /\ Z.of_nat (length params) = SPM_PAGESIZE + sizeof_page_no
         /\ hd (xor_bytes (c :: params)) params < NUM_PAGES
         /\ es = write_events (hd (xor_bytes (c :: params)) params)
                   (buffer (msg (received (c :: params) m)))
                 ++ sent (sysex [REPLY_SUCCESS])
         /\ page_contents (flash m')
              (hd (xor_bytes (c :: params)) params * SPM_PAGESIZE)
            = take (Z.to_nat SPM_PAGESIZE)
                (drop 2 (buffer (msg (received (c :: params) m))))
         /\ (forall a,
               a / SPM_PAGESIZE <> hd (xor_bytes (c :: params)) params ->
               pgm (flash m') a = pgm (flash m) a))
        \/ (c = COMMAND_WRITE
            /\ Z.of_nat (length params) = SPM_PAGESIZE + sizeof_page_no
            /\ NUM_PAGES <= hd (xor_bytes (c :: params)) params
            /\ es = sent (sysex [REPLY_ERROR;
                                 error_value ERROR_INVALID_PAGE_NUMBER])
            /\ flash m' = flash m)
        \/ (~ (c = COMMAND_WRITE
               /\ Z.of_nat (length params) = SPM_PAGESIZE + sizeof_page_no)
            /\ es = dispatch_table c (hd (xor_bytes (c :: params)) params)
                      (Z.of_nat (length params)) (flash m)
            /\ flash m' = flash m)).
Proof.
  intros H Es Bc Bp Hlen.
  assert (Bpay : Forall is_byte (c :: params)) by now constructor.
  assert (Lpay : Z.of_nat (length (c :: params)) = Z.of_nat (length params) + 1)
    by (cbn [length]; lia).
  rewrite request_frame_spec by (assumption || lia).
  set (r := received (c :: params) m).
  assert (Hr : wf r) by (apply wf_received; (assumption || lia)).
  destruct (process_msg_cases r c _ Hr (received_command _ _ m)
              (received_byte1 _ _ m))
    as (m1 & es & E & H1 & _ & Ht & Hcase).
  rewrite E. cbn [bind].
  exists (set_state STATE_IDLE m1), es. split; [reflexivity|].
  split; [eapply wf_msg; [|exact H1]; reflexivity|].
  split; [reflexivity|]. split; [exact Ht|].
  unfold r in Hcase. rewrite received_size in Hcase. exact Hcase.
Qed.

(** The rows of the table for the requests that do not touch the flash. *)
Lemma table_request m c params :
  wf m -> state m = STATE_IDLE -> is_byte c -> Forall is_byte params ->
  Z.of_nat (length params) + 2 <= sizeof_buffer ->
  c <> COMMAND_WRITE ->
  exists m',
    loop_from (sysex (c :: params)) m = Ok m'
    /\ wf m' /\ state m' = STATE_IDLE /\ flash m' = flash m
    /\ trace m' = trace m
         ++ dispatch_table c (hd (xor_bytes (c :: params)) params)
              (Z.of_nat (length params)) (flash m).
Proof.
  intros H Es Bc Bp Hlen Nw.
  destruct (request_cases m c params H Es Bc Bp Hlen)
    as (m' & es & E & Hw & Hs & Ht & Hcase).
  exists m'. split; [exact E|]. split; [exact Hw|]. split; [exact Hs|].
  destruct Hcase as [(Hc & _)|[(Hc & _)|(_ & -> & Hf)]];
    [contradiction|contradiction|auto].
Qed.

Lemma even_page_words :
  SPM_PAGESIZE mod 2 = 0 ->
  (2 * Z.to_nat ((SPM_PAGESIZE + 1) / 2))%nat = Z.to_nat SPM_PAGESIZE.
Proof.
  intros He. pose proof SPM_PAGESIZE_range as Hs.
  pose proof (Z.div_mod SPM_PAGESIZE 2 ltac:(lia)) as Hd.
  rewrite He, Z.add_0_r in Hd.
  assert (Hq : (SPM_PAGESIZE + 1) / 2 = SPM_PAGESIZE / 2).
  { rewrite Hd at 1. rewrite Z.mul_comm, Z.div_add_l by lia.
    change (1 / 2) with 0. lia. }
  rewrite Hq. lia.
Qed.

Lemma write_request_events_wire m p data :
  wf m -> state m = STATE_IDLE -> is_byte p -> p < NUM_PAGES ->
  Forall is_byte data -> Z.of_nat (length data) = SPM_PAGESIZE ->
  exists m',
    loop_from (sysex (COMMAND_WRITE :: p :: data)) m = Ok m'
    /\ wf m' /\ state m' = STATE_IDLE
    /\ trace m' = trace m
         ++ write_events p
              (COMMAND_WRITE :: p :: data
               ++ [xor_bytes (COMMAND_WRITE :: p :: data)])
         ++ sent (sysex [REPLY_SUCCESS])
    /\ (forall a, a / SPM_PAGESIZE <> p -> pgm (flash m') a = pgm (flash m) a).
Proof.
  intros H Es Bp Hlt Bd Ld. pose proof sizeof_buffer_eq as Hsz.
  pose proof SPM_PAGESIZE_range as Hs.
  destruct (request_cases m COMMAND_WRITE (p :: data) H Es)
    as (m' & es & E & Hw & Hs' & Ht & Hcase).
  { unfold is_byte, COMMAND_WRITE. lia. }
  { now constructor. }
  { cbn [length]. lia. }
  cbn [hd] in Hcase.
  exists m'. split; [exact E|]. split; [exact Hw|]. split; [exact Hs'|].
  destruct Hcase as [(_ & _ & _ & -> & _ & Hother)
                    |[(_ & _ & Hge & _)|(Hn & _)]].
  - split; [|exact Hother]. rewrite Ht. f_equal. f_equal.
    rewrite received_buffer. unfold write_events. f_equal. f_equal. f_equal.
    change (Z.to_nat offsetof_page_data) with 2%nat. cbn [app drop].
    change (xor_bytes (COMMAND_WRITE :: p :: data)
            :: drop (length (COMMAND_WRITE :: p :: data) + 1) (buffer (msg m)))
      with ([xor_bytes (COMMAND_WRITE :: p :: data)]
            ++ drop (length (COMMAND_WRITE :: p :: data) + 1)
                 (buffer (msg m))).
    rewrite !drop_0, app_assoc.
    assert (Hk : (2 * Z.to_nat ((SPM_PAGESIZE + 1) / 2)
                  <= length (data ++ [xor_bytes (COMMAND_WRITE :: p :: data)]))%nat).
    { rewrite length_app. cbn [length].
      pose proof (Z.div_mod (SPM_PAGESIZE + 1) 2 ltac:(lia)).
      pose proof (Z.mod_pos_bound (SPM_PAGESIZE + 1) 2 ltac:(lia)). lia. }
    rewrite take_app_le by exact Hk. reflexivity.
  - lia.
  - exfalso. apply Hn. split; [reflexivity|].
    cbn [length]. unfold sizeof_page_no. lia.
Qed.

Lemma page_of_address q a :
  0 <= q -> q * SPM_PAGESIZE <= a < q * SPM_PAGESIZE + SPM_PAGESIZE ->
  a / SPM_PAGESIZE = q.
Proof.
  intros Hq Ha. pose proof SPM_PAGESIZE_range as Hs.
  symmetry. apply (Z.div_unique a SPM_PAGESIZE q (a - q * SPM_PAGESIZE)); lia.
Qed.

Lemma other_page_contents (f f' : flash_t) p q :
  0 <= q -> q <> p ->
  (forall a, a / SPM_PAGESIZE <> p -> pgm f' a = pgm f a) ->
  page_contents f' (q * SPM_PAGESIZE) = page_contents f (q * SPM_PAGESIZE).
Proof.
  intros Hq Hn Hother. unfold page_contents.
  apply map_ext_in. intros a Ha.
  apply list_elem_of_In, elem_of_seqZ in Ha.
  rewrite Hother; [reflexivity|].
  rewrite (page_of_address q) by lia. exact Hn.
Qed.

(** X1: a valid [Write] request received by the idle parser programs the
    page in the order the hardware requires: the page is erased, the
    temporary buffer is filled with the data as little-endian words from
    offset 0 on, the page is written, the RWW section is re-enabled, and only
    then is [Success] sent. *)
Theorem write_programming_sequence m p data :
  wf m -> state m = STATE_IDLE -> is_byte p -> p < NUM_PAGES ->
  Forall is_byte data -> Z.of_nat (length data) = SPM_PAGESIZE ->
  SPM_PAGESIZE mod 2 = 0 ->
  exists m',
    loop_from (sysex (COMMAND_WRITE :: p :: data)) m = Ok m'
    /\ trace m' = trace m
         ++ [ev_page_erase (p * SPM_PAGESIZE)]
         ++ fill_events 0 data
         ++ [ev_page_write (p * SPM_PAGESIZE); ev_rww_enable]
         ++ sent (sysex [REPLY_SUCCESS]).
Proof.
  intros H Es Bp Hlt Bd Ld He.
  destruct (write_request_events_wire m p data H Es Bp Hlt Bd Ld)
    as (m' & E & _ & _ & Ht & _).
  exists m'. split; [exact E|]. rewrite Ht. f_equal.
  unfold write_events. rewrite <- !app_assoc. f_equal. f_equal.
  change (Z.to_nat offsetof_page_data) with 2%nat. cbn [drop].
  rewrite even_page_words by exact He.
  rewrite drop_0, <- Ld, Nat2Z.id. now rewrite take_app_length.
Qed.

(** X2: a valid [Write] request changes no byte of the flash outside the
    page it names: every other page reads as before. *)
Theorem write_leaves_other_pages m p data :
  wf m -> state m = STATE_IDLE -> is_byte p -> p < NUM_PAGES ->
  Forall is_byte data -> Z.of_nat (length data) = SPM_PAGESIZE ->
  exists m',
    loop_from (sysex (COMMAND_WRITE :: p :: data)) m = Ok m'
    /\ (forall a, a / SPM_PAGESIZE <> p -> pgm (flash m') a = pgm (flash m) a)
    /\ (forall q, 0 <= q -> q <> p ->
          page_contents (flash m') (q * SPM_PAGESIZE)
          = page_contents (flash m) (q * SPM_PAGESIZE)).
Proof.
  intros H Es Bp Hlt Bd Ld.
  destruct (write_request_events_wire m p data H Es Bp Hlt Bd Ld)
    as (m' & E & _ & _ & _ & Hother).
  exists m'. split; [exact E|]. split; [exact Hother|].
  intros q Hq Hn. now apply (other_page_contents _ _ p).
Qed.


(** X4: a frame whose command byte is none of [Ping], [Write], [Verify],
    [Read] and [Quit] is answered by [Error(UnknownCommand)] whatever its
    parameters are; the flash is untouched and the parser is idle again. *)
Theorem unknown_command_rejected m c params :
  wf m -> state m = STATE_IDLE -> is_byte c -> Forall is_byte params ->
  Z.of_nat (length params) + 2 <= sizeof_buffer ->
  c <> COMMAND_PING -> c <> COMMAND_WRITE -> c <> COMMAND_VERIFY ->
  c <> COMMAND_READ -> c <> COMMAND_QUIT ->
  exists m',
    loop_from (sysex (c :: params)) m = Ok m'
    /\ trace m' = trace m
         ++ sent (sysex [REPLY_ERROR; error_value ERROR_UNKNOWN_COMMAND])
    /\ flash m' = flash m /\ state m' = STATE_IDLE.
Proof.
  intros H Es Bc Bp Hlen N1 N2 N3 N4 N5.
  destruct (table_request m c params H Es Bc Bp Hlen N2)
    as (m' & E & _ & Hs & Hf & Ht).
  exists m'. split; [exact E|]. split; [|auto].
  rewrite Ht. f_equal. unfold dispatch_table.
  destruct (Z.eqb_spec c COMMAND_PING); [contradiction|].
  destruct (Z.eqb_spec c COMMAND_WRITE); [contradiction|].
  destruct (Z.eqb_spec c COMMAND_VERIFY); [contradiction|].
  destruct (Z.eqb_spec c COMMAND_READ); [contradiction|].
  destruct (Z.eqb_spec c COMMAND_QUIT); [contradiction|reflexivity].
Qed.

(** X5: the payload size is checked before anything else: a [Ping] or
    [Quit] that carries parameters, and a [Read] or [Verify] that does not
    carry exactly one, is answered by [Error(InvalidPayloadSize)], whatever
    page number it names; [Quit] then does not call the resident program. *)
Theorem wrong_size_rejected m c params :
  wf m -> state m = STATE_IDLE -> Forall is_byte params ->
  Z.of_nat (length params) + 2 <= sizeof_buffer ->
  ((c = COMMAND_PING \/ c = COMMAND_QUIT) /\ params <> [])
  \/ ((c = COMMAND_READ \/ c = COMMAND_VERIFY) /\ length params <> 1%nat) ->
  exists m',
    loop_from (sysex (c :: params)) m = Ok m'
    /\ trace m' = trace m
         ++ sent (sysex [REPLY_ERROR; error_value ERROR_INVALID_PAYLOAD_SIZE])
    /\ flash m' = flash m /\ state m' = STATE_IDLE.
Proof.
  intros H Es Bp Hlen Hc.
  assert (Bc : is_byte c).
  { unfold is_byte.
    unfold COMMAND_PING, COMMAND_QUIT, COMMAND_READ, COMMAND_VERIFY in Hc.
    lia. }
  assert (Nw : c <> COMMAND_WRITE)
    by (destruct Hc as [[[->| ->] _]|[[->| ->] _]]; discriminate).
  destruct (table_request m c params H Es Bc Bp Hlen Nw)
    as (m' & E & _ & Hs & Hf & Ht).
  exists m'. split; [exact E|]. split; [|auto].
  rewrite Ht. f_equal. unfold dispatch_table.
  destruct Hc as [[Hc Hn]|[Hc Hn]].
  - assert ((Z.of_nat (length params) =? 0) = false) as ->.
    { apply Z.eqb_neq. destruct params; [contradiction|cbn [length]; lia]. }
    destruct Hc as [-> | ->]; reflexivity.
  - assert ((Z.of_nat (length params) =? sizeof_page_no) = false) as ->.
    { apply Z.eqb_neq. unfold sizeof_page_no. lia. }
    destruct Hc as [-> | ->]; reflexivity.
Qed.

Lemma ping_request m :
  wf m -> state m = STATE_IDLE ->
  exists m',
    loop_from (sysex [COMMAND_PING]) m = Ok m'
    /\ wf m' /\ state m' = STATE_IDLE /\ flash m' = flash m
    /\ trace m' = trace m ++ sent (sysex [REPLY_SUCCESS]).
Proof.
  intros H Es. pose proof sizeof_buffer_range as Hsz.
  apply (table_request m COMMAND_PING [] H Es);
    [unfold is_byte, COMMAND_PING; lia|constructor|cbn [length]; lia
    |discriminate].
Qed.

(** X6: [Ping] can be issued any number of times: [n] requests in a row are
    answered by [n] [Success] replies and nothing else, the flash is
    unchanged and the parser is idle after the last one. *)
Theorem ping_any_number_of_times (n : nat) m :
  wf m -> state m = STATE_IDLE ->
  exists m',
    loop_from (concat (replicate n (sysex [COMMAND_PING]))) m = Ok m'
    /\ trace m' = trace m
         ++ concat (replicate n (sent (sysex [REPLY_SUCCESS])))
    /\ flash m' = flash m /\ state m' = STATE_IDLE /\ wf m'.
Proof.
  revert m. induction n as [|n IH]; intros m H Es.
  - exists m. cbn. rewrite app_nil_r. auto.
  - destruct (ping_request m H Es) as (m1 & E1 & H1 & S1 & F1 & T1).
    destruct (IH m1 H1 S1) as (m' & E & Ht & Hf & Hs & Hw).
    exists m'. cbn [replicate concat]. rewrite loop_from_app, E1.
    cbn [bind]. split; [exact E|].
    split; [rewrite Ht, T1; now rewrite <- app_assoc|].
    split; [congruence|auto].
Qed.

(** ** Further properties: what holds of every run *)

Lemma uart_output_fill_events_len (n : nat) : forall bytes addr,
  (length bytes <= n)%nat -> uart_output (fill_events addr bytes) = [].
Proof.
  induction n as [|n IH]; intros [|lo [|hi rest]] addr Hn; cbn in *;
    try reflexivity; try lia.
  apply IH. lia.
Qed.

Lemma uart_output_write_events p b : uart_output (write_events p b) = [].
Proof.
  unfold write_events. rewrite !uart_output_app.
  rewrite (uart_output_fill_events_len _ _ _ (Nat.le_refl _)). reflexivity.
Qed.

Lemma error_frame e : reply_frame [REPLY_ERROR; error_value e].
Proof.
  exists REPLY_ERROR, [error_value e]. split; [reflexivity|].
  split; [right; left; reflexivity|].
  constructor; [|constructor]. unfold is_byte. destruct e; cbn; lia.
Qed.

Lemma success_frame : reply_frame [REPLY_SUCCESS].
Proof.
  exists REPLY_SUCCESS, []. split; [reflexivity|].
  split; [left; reflexivity|constructor].
Qed.

Lemma dispatch_table_frame c p n f :
  exists payload,
    uart_output (dispatch_table c p n f) = sysex payload
    /\ reply_frame payload.
Proof.
  assert (Err : forall e, exists payload,
    uart_output (sent (sysex [REPLY_ERROR; error_value e])) = sysex payload
    /\ reply_frame payload).
  { intros e. eexists. split; [apply uart_output_sent|apply error_frame]. }
  assert (Suc : exists payload,
    uart_output (sent (sysex [REPLY_SUCCESS])) = sysex payload
    /\ reply_frame payload).
  { eexists. split; [apply uart_output_sent|apply success_frame]. }
  unfold dispatch_table.
  destruct (c =? COMMAND_PING); [destruct (n =? 0); auto|].
  destruct (c =? COMMAND_WRITE); [auto|].
  destruct (c =? COMMAND_VERIFY).
  { destruct (n =? sizeof_page_no); [|auto].
    destruct (p <? NUM_PAGES); [|auto].
    eexists. split; [apply uart_output_sent|].
    eexists _, _. split; [reflexivity|].
    split; [right; right; right; reflexivity|].
    constructor; [|constructor].
    apply xor_bytes_is_byte, page_contents_bytes. }
  destruct (c =? COMMAND_READ).
  { destruct (n =? sizeof_page_no); [|auto].
    destruct (p <? NUM_PAGES); [|auto].
    eexists. split; [apply uart_output_sent|].
    eexists _, _. split; [reflexivity|].
    split; [right; right; left; reflexivity|apply page_contents_bytes]. }
  destruct (c =? COMMAND_QUIT); [|auto].
  destruct (n =? 0); [|auto].
  eexists. split; [|apply success_frame].
  rewrite uart_output_app, uart_output_sent. apply app_nil_r.
Qed.

Lemma step_events_frames es :
  step_events es ->
  exists frames,
    uart_output es = concat (map sysex frames)
    /\ Forall reply_frame frames /\ (length frames <= 1)%nat.
Proof.
  intros [->|[(e & ->)|[(c & p & n & f & ->)|(p & b & ->)]]].
  - exists []. split; [reflexivity|]. split; [constructor|cbn; lia].
  - exists [[REPLY_ERROR; error_value e]].
    split; [rewrite uart_output_sent; cbn [map concat]; now rewrite app_nil_r|].
    split; [|cbn; lia]. constructor; [apply error_frame|constructor].
  - destruct (dispatch_table_frame c p n f) as (payload & E & Hf).
    exists [payload].
    split; [rewrite E; cbn [map concat]; now rewrite app_nil_r|].
    split; [|cbn; lia]. constructor; [exact Hf|constructor].
  - exists [[REPLY_SUCCESS]].
    split; [|split; [|cbn; lia]].
    + rewrite uart_output_app, uart_output_write_events, uart_output_sent.
      cbn [map concat app]. now rewrite app_nil_r.
    + constructor; [apply success_frame|constructor].
Qed.

Lemma steps_frames ess :
  Forall step_events ess ->
  exists frames,
    uart_output (concat ess) = concat (map sysex frames)
    /\ Forall reply_frame frames /\ (length frames <= length ess)%nat.
Proof.
  induction ess as [|es ess IH]; intros Hall.
  - exists []. split; [reflexivity|]. split; [constructor|cbn; lia].
  - apply Forall_cons in Hall. destruct Hall as [Hes Hall].
    destruct (step_events_frames es Hes) as (fr1 & E1 & F1 & L1).
    destruct (IH Hall) as (fr2 & E2 & F2 & L2).
    exists (fr1 ++ fr2). cbn [concat].
    rewrite uart_output_app, E1, E2, map_app, concat_app.
    split; [reflexivity|]. split; [now apply Forall_app_2|].
    rewrite length_app. cbn [length]. lia.
Qed.


(** X7: the flash changes only when an end delimiter completes a valid
    [Write] frame.  If the byte at address [a] differs after one iteration
    of the parser, the byte received was 0xF7, the buffer was full and its
    checksum zero, the command was [Write], and [a] lies in the page the
    request names, which is a page of the device. *)
Theorem flash_changes_only_by_valid_write byte m m' a :
  wf m -> parser_inv m -> loop_body byte m = Ok m' ->
  pgm (flash m') a <> pgm (flash m) a ->
  byte = 0xf7 /\ state m = STATE_EXPECTING_END /\ checksum m = 0
  /\ buffer (msg m) !! 0%nat = Some COMMAND_WRITE
  /\ buffer (msg m) !! 1%nat = Some (a / SPM_PAGESIZE)
  /\ a / SPM_PAGESIZE < NUM_PAGES.
Proof.
  intros H Hi E Hneq. pose proof sizeof_buffer_eq as Hsz.
  pose proof SPM_PAGESIZE_range as Hs.
  destruct (loop_body_cases byte m H Hi)
    as (m1 & es & E1 & _ & _ & _ & Hcase).
  rewrite E in E1. injection E1 as <-.
  destruct Hcase as [[_ Hf]|[(e & _ & Hf)|(-> & Ni & Hck & Hps & m2 & E2 & ->)]];
    [rewrite Hf in Hneq; contradiction|rewrite Hf in Hneq; contradiction|].
  fw_simpl.
  destruct (wf_lookup m 0 H ltac:(lia)) as (c & Hc & _).
  destruct (wf_lookup m 1 H ltac:(lia)) as (p & Hp & _).
  destruct (process_msg_cases
              (set_payload_size
                 (payload_size m - (sizeof_command + sizeof_checksum)) m)
              c p) as (m2' & es' & E2' & _ & _ & _ & Hc2);
    [eapply wf_msg; [|exact H]; reflexivity|exact Hc|exact Hp|].
  rewrite E2 in E2'. injection E2' as <-. fw_simpl.
  destruct Hc2 as [(-> & Hsize & Hlt & _ & _ & Hother)
                  |[(_ & _ & _ & _ & Hf)|(_ & _ & Hf)]];
    [|rewrite Hf in Hneq; contradiction|rewrite Hf in Hneq; contradiction].
  destruct (Z.eq_dec (a / SPM_PAGESIZE) p) as [->|Np];
    [|apply Hother in Np; contradiction].
  split; [reflexivity|].
  split; [|auto].
  unfold parser_inv, sizeof_command, sizeof_checksum, sizeof_page_no in *.
  destruct (state m); [contradiction|lia|lia|reflexivity].
Qed.

(** X8: whatever bytes arrive, everything the firmware transmits is a
    sequence of complete reply frames, each holding a reply code followed by
    bytes, and there are at most as many of them as bytes were received. *)
Theorem output_is_reply_frames c0 b0 f input :
  exists m frames,
    loop c0 b0 f input = Ok m
    /\ uart_output (trace m) = concat (map sysex frames)
    /\ Forall reply_frame frames
    /\ (length frames <= length input)%nat.
Proof.
  destruct (loop_from_events input (loop_init c0 b0 f))
    as (m & ess & E & _ & _ & Ht & Hall & Hlen);
    [apply wf_loop_init|exact Logic.I|].
  destruct (steps_frames ess Hall) as (frames & Ef & Hf & Hl).
  exists m, frames. split; [exact E|].
  split; [rewrite Ht; exact Ef|]. split; [exact Hf|lia].
Qed.

(** X9: whatever bytes arrive, the resident program is called only directly
    after a complete [Success] reply has been sent: control is never
    transferred in the middle of a reply or after an error. *)
Theorem program_main_only_after_success c0 b0 f input :
  exists m,
    loop c0 b0 f input = Ok m /\ jumps_after_success (trace m).
Proof.
  destruct (loop_from_events input (loop_init c0 b0 f))
    as (m & ess & E & _ & _ & Ht & Hall & _);
    [apply wf_loop_init|exact Logic.I|].
  exists m. split; [exact E|]. rewrite Ht.
  apply (jumps_steps ess []); [apply jumps_nil|exact Hall].
Qed.

Lemma idle_ignores_all input : forall m,
  state m = STATE_IDLE -> ~ In 0xf0 input -> loop_from input m = Ok m.
Proof.
  induction input as [|byte input IH]; intros m Es Hn; [reflexivity|].
  cbn [loop_from]. rewrite idle_ignores; [|exact Es|].
  - cbn [bind]. apply IH; [exact Es|]. intros Hin. apply Hn. now right.
  - intros ->. apply Hn. now left.
Qed.

(** X10: outside a frame the parser ignores everything but a start
    delimiter: bytes that do not include 0xF0, fed to the idle parser, leave
    every variable, the flash and the output as they were. *)
Theorem idle_parser_ignores_noise input m :
  state m = STATE_IDLE -> ~ In 0xf0 input -> loop_from input m = Ok m.
Proof. apply idle_ignores_all. Qed.

(** ** Further properties: the locals of [loop] and the frame format *)

Lemma same_but_locals_eq m1 m2 :
  same_but_locals m1 m2 -> state m1 <> STATE_IDLE -> m1 = m2.
Proof.
  intros (Hs & Hm & Hp & Hf & Ht & [Hi|[Hc Hb]]) Ni; [contradiction|].
  destruct m1, m2. cbn in *. congruence.
Qed.

Lemma same_but_locals_refl m : same_but_locals m m.
Proof. unfold same_but_locals. auto 10. Qed.

Lemma same_but_locals_step byte m1 m2 m1' :
  same_but_locals m1 m2 -> loop_body byte m1 = Ok m1' ->
  exists m2', loop_body byte m2 = Ok m2' /\ same_but_locals m1' m2'.
Proof.
  intros Hr E.
  assert (state m1 = STATE_IDLE \/ state m1 <> STATE_IDLE) as [Hi|Ni]
    by (destruct (state m1); [left; reflexivity|right; discriminate..]).
  - destruct Hr as (Hs & Hm & Hp & Hf & Ht & _).
    assert (Hi2 : state m2 = STATE_IDLE) by congruence.
    destruct (Z.eq_dec byte 0xf0) as [->|N0].
    + rewrite loop_body_start, Hi in E. cbn [state_eqb negb bind] in E.
      injection E as <-.
      rewrite loop_body_start, Hi2. cbn [state_eqb negb bind].
      eexists. split; [reflexivity|].
      unfold same_but_locals. fw_simpl. auto 10.
    + rewrite idle_ignores in E by assumption. injection E as <-.
      rewrite idle_ignores by assumption.
      exists m2. split; [reflexivity|].
      unfold same_but_locals. auto 10.
  - apply same_but_locals_eq in Hr; [|exact Ni]. subst m2.
    exists m1'. split; [exact E|apply same_but_locals_refl].
Qed.

Lemma same_but_locals_run input : forall m1 m2 m1',
  same_but_locals m1 m2 -> loop_from input m1 = Ok m1' ->
  exists m2', loop_from input m2 = Ok m2' /\ same_but_locals m1' m2'.
Proof.
  induction input as [|byte input IH]; intros m1 m2 m1' Hr E.
  - cbn in E. injection E as <-. exists m2. auto.
  - cbn [loop_from] in *.
    destruct (loop_body byte m1) as [x| |] eqn:Ex; cbn [bind] in E;
      try discriminate.
    destruct (same_but_locals_step byte m1 m2 x Hr Ex) as (y & Ey & Hxy).
    rewrite Ey. cbn [bind]. now apply (IH x y).
Qed.

(** X11: [loop] never initialises its locals [checksum] and [bytes_read];
    this is harmless.  Whatever the stack holds when [loop] is entered, the
    same input gives the same output and flash operations, the same flash
    and the same parser state, message and payload size. *)
Theorem uninitialised_locals_harmless c0 b0 c0' b0' f input :
  exists m m',
    loop c0 b0 f input = Ok m /\ loop c0' b0' f input = Ok m'
    /\ trace m = trace m' /\ flash m = flash m' /\ state m = state m'
    /\ msg m = msg m' /\ payload_size m = payload_size m'.
Proof.
  destruct (loop_inv c0 b0 f input) as (m & E & _).
  destruct (same_but_locals_run input (loop_init c0 b0 f)
              (loop_init c0' b0' f) m) as (m' & E' & Hr).
  { unfold same_but_locals, loop_init. fw_simpl. auto 10. }
  { exact E. }
  exists m, m'. split; [exact E|]. split; [exact E'|].
  destruct Hr as (Hs & Hm & Hp & Hf & Ht & _). auto 10.
Qed.

Lemma nibbles_seven_bit bs :
  Forall is_byte bs -> Forall seven_bit (nibbles bs).
Proof.
  induction 1 as [|b bs Hb _ IH]; [constructor|].
  change (nibbles (b :: bs))
    with ([Z.shiftr b 4; Z.land b 0x0f] ++ nibbles bs).
  apply Forall_app_2; [|exact IH].
  pose proof (nibble_hi_range b Hb). pose proof (nibble_lo_range b).
  repeat constructor; unfold seven_bit; lia.
Qed.

Lemma sysex_seven_bit payload :
  Forall is_byte payload ->
  exists body,
    sysex payload = 0xf0 :: body ++ [0xf7]
    /\ Forall seven_bit body
    /\ length body = (3 + 2 * (length payload + 1))%nat.
Proof.
  intros Bp. exists (HEADER ++ nibbles (payload ++ [xor_bytes payload])).
  split; [unfold sysex; now rewrite <- app_assoc|].
  split.
  - apply Forall_app_2.
    + unfold HEADER, MIDI_ID, VERSION, seven_bit.
      repeat constructor; lia.
    + apply nibbles_seven_bit, Forall_app_2; [exact Bp|].
      constructor; [now apply xor_bytes_is_byte|constructor].
  - rewrite length_app, length_nibbles, length_app. cbn [length HEADER]. lia.
Qed.

(** X12: every frame [send_msg] transmits is clean for a MIDI link: it starts
    with 0xF0, ends with 0xF7, and all bytes in between, which are the three
    header bytes and two nibbles for each of the [msg_size] buffer bytes and
    for the checksum, are below 0x80. *)
Theorem send_msg_seven_bit_clean params_size m :
  wf m ->
  uint8_t (sizeof_command + uint8_t params_size) <= sizeof_buffer ->
  exists m' body,
    send_msg params_size m = Ok m'
    /\ trace m' = trace m ++ sent (0xf0 :: body ++ [0xf7])
    /\ Forall seven_bit body
    /\ Z.of_nat (length body)
       = 3 + 2 * (uint8_t (sizeof_command + uint8_t params_size) + 1).
Proof.
  intros H Hn. rewrite send_msg_spec by assumption.
  set (n := uint8_t (sizeof_command + uint8_t params_size)) in *.
  assert (Hn' : 0 <= n < 256) by apply uint8_t_is_byte.
  destruct (sysex_seven_bit (take (Z.to_nat n) (buffer (msg m))))
    as (body & E & Hb & Hl).
  { apply Forall_take, H. }
  eexists. exists body. split; [reflexivity|]. fw_simpl.
  split; [now rewrite E|]. split; [exact Hb|].
  rewrite Hl, length_take. pose proof (wf_length _ H). lia.
Qed.

(** X13: a well-formed request is decoded and dispatched.  When the idle
    parser receives the frame of a payload that fits the buffer, the
    dispatcher is called once, with the payload followed by its checksum at
    the start of [msg.buffer] and with [payload_size] counting the bytes
    after the command byte; then the parser is idle again. *)
Theorem frame_reaches_dispatcher m payload :
  wf m -> state m = STATE_IDLE -> Forall is_byte payload ->
  0 < Z.of_nat (length payload) ->
  Z.of_nat (length payload) + 1 <= sizeof_buffer ->
  exists d,
    loop_from (sysex payload) m
    = (m' <- process_msg d ;; Ok (set_state STATE_IDLE m'))
    /\ buffer (msg d)
       = payload ++ [xor_bytes payload]
         ++ drop (length payload + 1) (buffer (msg m))
    /\ payload_size d = Z.of_nat (length payload) - 1
    /\ flash d = flash m /\ trace d = trace m /\ wf d.
Proof.
  intros H Es Bp Hpos Hlen. exists (received payload m).
  split; [now apply request_frame_spec|].
  split; [apply received_buffer|].
  split; [reflexivity|]. split; [reflexivity|]. split; [reflexivity|].
  now apply wf_received.
Qed.

(** X14: replies have the format of requests.  The bytes [send_msg]
    transmits for the first [msg_size] bytes of its buffer, received by the
    idle parser of a device that runs the same firmware, pass the header,
    nibble, format and checksum tests: the receiving dispatcher is called
    with those bytes at the start of its buffer. *)
Theorem sent_frame_accepted_by_peer params_size s r :
  wf s -> wf r -> state r = STATE_IDLE ->
  0 < uint8_t (sizeof_command + uint8_t params_size) ->
  uint8_t (sizeof_command + uint8_t params_size) + 1 <= sizeof_buffer ->
  exists s' es d,
    send_msg params_size s = Ok s' /\ trace s' = trace s ++ es
    /\ loop_from (uart_output es) r
       = (m' <- process_msg d ;; Ok (set_state STATE_IDLE m'))
    /\ take (Z.to_nat (uint8_t (sizeof_command + uint8_t params_size)))
         (buffer (msg d))
       = take (Z.to_nat (uint8_t (sizeof_command + uint8_t params_size)))
           (buffer (msg s))
    /\ payload_size d = uint8_t (sizeof_command + uint8_t params_size) - 1
    /\ flash d = flash r /\ trace d = trace r.
Proof.
  intros Hs Hr Es Hpos Hlen.
  rewrite send_msg_spec by (assumption || lia).
  set (n := uint8_t (sizeof_command + uint8_t params_size)) in *.
  set (payload := take (Z.to_nat n) (buffer (msg s))).
  assert (Lp : length payload = Z.to_nat n).
  { unfold payload. rewrite length_take. pose proof (wf_length _ Hs). lia. }
  eexists. exists (sent (sysex payload)), (received payload r).
  split; [reflexivity|]. split; [reflexivity|].
  rewrite uart_output_sent.
  split.
  { apply request_frame_spec; try assumption; try lia.
    apply Forall_take, Hs. }
  split.
  { rewrite received_buffer, <- Lp. apply take_app_length. }
  split; [|split; reflexivity].
  unfold received. fw_simpl. lia.
Qed.



(** ** Further properties: start-up *)

Lemma baud_divisor F_CPU :
  8 * BAUD_RATE <= F_CPU -> F_CPU + 8 * BAUD_RATE < 2 ^ 32 ->
  uint16_t
    (uint32_t
       (uint32_t (uint32_t F_CPU + uint32_t (8 * BAUD_RATE))
        / uint32_t (16 * BAUD_RATE) - 1))
  = (F_CPU + 8 * BAUD_RATE) / (16 * BAUD_RATE) - 1
  /\ 0 <= (F_CPU + 8 * BAUD_RATE) / (16 * BAUD_RATE) - 1 < 8589.
Proof.
  unfold BAUD_RATE. intros Hlo Hhi.
  change (8 * 31250) with 250000 in *. change (16 * 31250) with 500000.
  change (2 ^ 32) with 4294967296 in Hhi.
  rewrite (uint32_t_id F_CPU) by lia.
  rewrite (uint32_t_id 250000) by lia.
  rewrite (uint32_t_id 500000) by lia.
  rewrite (uint32_t_id (F_CPU + 250000)) by lia.
  assert (Hq : 1 <= (F_CPU + 250000) / 500000 < 8590).
  { split.
    - apply Z.div_le_lower_bound; lia.
    - apply Z.div_lt_upper_bound; lia. }
  rewrite uint32_t_id by lia. rewrite uint16_t_id by lia. lia.
Qed.

(** X15: [uart_init] programs the baud-rate divisor that is nearest to the
    MIDI rate.  With the 16-bit value [UBRRH:UBRRL] it leaves, the clock
    differs from [16 * BAUD_RATE * (UBRR + 1)] by at most half a step,
    [8 * BAUD_RATE], provided the clock is at least that and the sum in
    [unsigned long] does not wrap. *)
Theorem uart_init_divisor F_CPU RXEN TXEN io :
  8 * BAUD_RATE <= F_CPU -> F_CPU + 8 * BAUD_RATE < 2 ^ 32 ->
  is_byte (UBRRH (uart_init F_CPU RXEN TXEN io))
  /\ is_byte (UBRRL (uart_init F_CPU RXEN TXEN io))
  /\ 16 * BAUD_RATE
       * (256 * UBRRH (uart_init F_CPU RXEN TXEN io)
          + UBRRL (uart_init F_CPU RXEN TXEN io) + 1)
     - 8 * BAUD_RATE
     <= F_CPU
     < 16 * BAUD_RATE
         * (256 * UBRRH (uart_init F_CPU RXEN TXEN io)
            + UBRRL (uart_init F_CPU RXEN TXEN io) + 1)
       + 8 * BAUD_RATE.
Proof.
  intros Hlo Hhi. unfold uart_init. cbn [UBRRH UBRRL].
  destruct (baud_divisor F_CPU Hlo Hhi) as [-> Hb].
  set (baud := (F_CPU + 8 * BAUD_RATE) / (16 * BAUD_RATE) - 1) in *.
  split; [apply uint8_t_is_byte|]. split; [apply uint8_t_is_byte|].
  rewrite Z.shiftr_div_pow2 by lia. change (2 ^ 8) with 256.
  assert (Hh : 0 <= baud / 256 < 256).
  { split; [apply Z.div_pos; lia|apply Z.div_lt_upper_bound; lia]. }
  rewrite (uint8_t_id (baud / 256)) by exact Hh.
  assert (Hl : 256 * (baud / 256) + uint8_t baud = baud).
  { unfold uint8_t. symmetry. apply Z.div_mod. lia. }
  rewrite Hl. unfold baud, BAUD_RATE in *.
  change (8 * 31250) with 250000 in *. change (16 * 31250) with 500000 in *.
  pose proof (Z.div_mod (F_CPU + 250000) 500000 ltac:(lia)).
  pose proof (Z.mod_pos_bound (F_CPU + 250000) 500000 ltac:(lia)).
  lia.
Qed.

Lemma testbit_uint8_t x i :
  0 <= i -> Z.testbit (uint8_t x) i = (i <? 8) && Z.testbit x i.
Proof.
  intros Hi. unfold uint8_t. change 256 with (2 ^ 8).
  destruct (Z.ltb_spec i 8).
  - now rewrite Z.mod_pow2_bits_low by lia.
  - now rewrite Z.mod_pow2_bits_high by lia.
Qed.

Lemma testbit_BV n i : 0 <= n -> Z.testbit (_BV n) i = (i =? n).
Proof.
  intros Hn. unfold _BV. rewrite Z.shiftl_1_l, Z.pow2_bits_eqb by exact Hn.
  apply Z.eqb_sym.
Qed.

(** X16: [uart_init] enables the receiver and the transmitter and nothing
    else: in [UCSRB] exactly the bits [RXEN] and [TXEN] are set, so no UART
    interrupt is enabled; the port registers are not touched. *)
Theorem uart_init_enables_rx_tx F_CPU RXEN TXEN io i :
  0 <= RXEN < 8 -> 0 <= TXEN < 8 -> 0 <= i ->
  Z.testbit (UCSRB (uart_init F_CPU RXEN TXEN io)) i
  = (i =? RXEN) || (i =? TXEN)
  /\ DDRD (uart_init F_CPU RXEN TXEN io) = DDRD io
  /\ PORTD (uart_init F_CPU RXEN TXEN io) = PORTD io.
Proof.
  intros Hr Ht Hi. split; [|split; reflexivity].
  unfold uart_init. cbn [UCSRB].
  rewrite testbit_uint8_t, Z.lor_spec, !testbit_BV by lia.
  destruct (Z.ltb_spec i 8); [reflexivity|].
  destruct (Z.eqb_spec i RXEN); [lia|].
  destruct (Z.eqb_spec i TXEN); [lia|reflexivity].
Qed.

Lemma pins_low PIND :
  Z.land PIND (Z.lor (_BV PD3) (_BV PD4)) = 0
  <-> Z.testbit PIND PD3 = false /\ Z.testbit PIND PD4 = false.
Proof.
  split.
  - intros E. split.
    + pose proof (Z.land_spec PIND (Z.lor (_BV PD3) (_BV PD4)) PD3) as Hb.
      rewrite E, Z.bits_0 in Hb.
      change (Z.testbit (Z.lor (_BV PD3) (_BV PD4)) PD3) with true in Hb.
      now rewrite andb_true_r in Hb.
    + pose proof (Z.land_spec PIND (Z.lor (_BV PD3) (_BV PD4)) PD4) as Hb.
      rewrite E, Z.bits_0 in Hb.
      change (Z.testbit (Z.lor (_BV PD3) (_BV PD4)) PD4) with true in Hb.
      now rewrite andb_true_r in Hb.
  - intros [H3 H4]. apply Z.bits_inj'. intros n Hn.
    rewrite Z.land_spec, Z.bits_0, Z.lor_spec, !testbit_BV
      by (unfold PD3, PD4; lia).
    destruct (Z.eqb_spec n PD3) as [->|]; [now rewrite H3|].
    destruct (Z.eqb_spec n PD4) as [->|]; [now rewrite H4|].
    apply andb_false_r.
Qed.

(** X17: [bootloader_active] makes the pins 5 and 6 of port D outputs,
    switches on the pull-ups of the pins 3 and 4, and answers yes exactly
    when both of these pins then read low; the UART registers are not
    touched. *)
Theorem bootloader_active_iff_pins_low PIND io :
  (fst (bootloader_active PIND io) = true
   <-> Z.testbit PIND PD3 = false /\ Z.testbit PIND PD4 = false)
  /\ DDRD (snd (bootloader_active PIND io)) = 0x60
  /\ PORTD (snd (bootloader_active PIND io)) = 0x18
  /\ UBRRH (snd (bootloader_active PIND io)) = UBRRH io
  /\ UBRRL (snd (bootloader_active PIND io)) = UBRRL io
  /\ UCSRB (snd (bootloader_active PIND io)) = UCSRB io.
Proof.
  split; [|repeat split].
  unfold bootloader_active. cbn [fst].
  rewrite Z.eqb_eq. apply pins_low.
Qed.

(** X18: when both pins read low, [main] stays in the bootloader: after
    [uart_init] it runs [loop] and nothing else. *)
Theorem main_enters_loop F_CPU RXEN TXEN io PIND c0 b0 f input :
  Z.testbit PIND PD3 = false -> Z.testbit PIND PD4 = false ->
  snd (main F_CPU RXEN TXEN io PIND c0 b0 f input) = loop c0 b0 f input.
Proof.
  intros H3 H4. unfold main. cbn [snd].
  assert (E : fst (bootloader_active PIND (uart_init F_CPU RXEN TXEN io))
              = true).
  { unfold bootloader_active. cbn [fst]. apply Z.eqb_eq, pins_low. auto. }
  rewrite E. reflexivity.
Qed.

(** X19: when one of the two pins reads high, [main] calls the resident
    program before it receives or sends a single byte; should that program
    return, the parser runs and its events follow the call. *)
Theorem main_calls_program_first F_CPU RXEN TXEN io PIND c0 b0 f input :
  Z.testbit PIND PD3 = true \/ Z.testbit PIND PD4 = true ->
  exists m rest,
    snd (main F_CPU RXEN TXEN io PIND c0 b0 f input) = Ok m
    /\ trace m = ev_program_main :: rest.
Proof.
  intros Hp. unfold main. cbn [snd].
  assert (E : fst (bootloader_active PIND (uart_init F_CPU RXEN TXEN io))
              = false).
  { unfold bootloader_active. cbn [fst]. apply Z.eqb_neq.
    intros E. apply pins_low in E. destruct E as [E3 E4].
    destruct Hp as [Hp|Hp]; congruence. }
  rewrite E. cbn [negb].
  destruct (loop_from_events input
              (loop_enter (program_main (reset_firmware c0 b0 f))))
    as (m & ess & Em & _ & _ & Ht & _).
  { eapply wf_msg; [|apply (wf_loop_init c0 b0 f)]. reflexivity. }
  { exact Logic.I. }
  exists m, (concat ess). split; [exact Em|]. rewrite Ht. reflexivity.
Qed.
End Proofs.

(** * Instances on concrete devices *)

Ltac by_computation :=
  first [ lia
        | vm_compute; repeat split; first [reflexivity | discriminate | lia] ].

Ltac wf_by_computation := apply wf_check_sound; vm_compute; reflexivity.

(** The last page of an ATtiny2313, page 63, is accepted by [Read]. *)
Lemma page_number_checked_against_flash_witness :
  exists m', @process_msg attiny2313 read_last_page = Ok m'
    /\ exists params,
         replies (reply_to COMMAND_READ :: params) read_last_page m'.
Proof.
  destruct (@page_number_checked_against_flash attiny2313 read_last_page
              COMMAND_READ 63)
    as (m' & E & _ & _ & _ & Hlast & _).
  - wf_by_computation.
  - by_computation.
  - by_computation.
  - right. split; [left; reflexivity|by_computation].
  - exists m'. split; [exact E|]. apply Hlast. by_computation.
Defined.

(** The claim C1 as stated fails: on an ATmega8 (128 pages of 64 bytes) a
    [Write] request for page 127, the last page of the flash, is accepted:
    the page at 0x1fc0 is erased and programmed and the reply is [Success],
    although that page is outside the application's range wherever the
    bootloader's region starts at or below it. *)
Lemma bootloader_page_is_accepted :
  option_map (take 1)
    (trace_of (@loop atmega8 0 0 erased_flash
                 (sysex (COMMAND_WRITE :: 127 :: replicate 64 0xaa))))
  = Some [ev_page_erase 0x1fc0]
  /\ output_of (@loop atmega8 0 0 erased_flash
                  (sysex (COMMAND_WRITE :: 127 :: replicate 64 0xaa)))
     = Some (sysex [REPLY_SUCCESS])
  /\ forall boot_start, boot_start <= 0x1fc0 ->
       ~ @in_application_range atmega8 boot_start 127.
Proof.
  split; [by_computation|]. split; [by_computation|].
  intros boot_start Hb. unfold in_application_range.
  change (127 * @SPM_PAGESIZE atmega8) with 0x1fc0. lia.
Qed.

(** A [Write] that is one byte short: [Error(InvalidPayloadSize)], flash
    untouched. *)
Lemma write_validated_before_flash_witness :
  exists m', @process_msg attiny2313 short_write = Ok m'
    /\ trace m' = trace short_write ++ sent (sysex
         [REPLY_ERROR; error_value ERROR_INVALID_PAYLOAD_SIZE])
    /\ flash m' = flash short_write.
Proof.
  destruct (@write_validated_before_flash attiny2313 short_write 5)
    as (m' & E & Hsize & _).
  - wf_by_computation.
  - by_computation.
  - by_computation.
  - exists m'. split; [exact E|]. apply Hsize. by_computation.
Defined.

(** [after] names the state [loop] returns. *)
Lemma after_loop {dev : avr_io} input m :
  loop 0 0 erased_flash input = Ok m -> m = after input.
Proof. intros E. unfold after. now rewrite E. Qed.

(** After [F0 00], the byte 0x55 is not the second header byte. *)
Lemma malformed_frame_one_error_witness :
  aborts ERROR_HEADER_MISMATCH (@after attiny2313 [0xf0; 0x00])
    (@loop_body attiny2313 0x55 (@after attiny2313 [0xf0; 0x00])).
Proof.
  destruct (@malformed_frame_one_error attiny2313 0 0 erased_flash
              [0xf0; 0x00]) as (m & E & Hcases).
  apply after_loop in E. subst m.
  destruct (Hcases 0x55) as (Hmismatch & _).
  apply Hmismatch; by_computation.
Defined.

(** The claim C3 as stated fails: the frame [F0 00 70 01 02 01 F7] holds the
    command byte 0x21 and nothing else, so at the end delimiter the running
    checksum is 0x21, not zero; the reply is [Error(InvalidFormat)], not
    [Error(InvalidChecksum)]. *)
Lemma nonzero_checksum_reported_as_format :
  state lone_reply_byte = STATE_READING_BODY
  /\ payload_size lone_reply_byte = 1
  /\ checksum lone_reply_byte = 0x21
  /\ output_of (@loop_body attiny2313 0xf7 lone_reply_byte)
     = Some (sysex [REPLY_ERROR; error_value ERROR_INVALID_FORMAT])
  /\ ~ aborts ERROR_INVALID_CHECKSUM lone_reply_byte
        (@loop_body attiny2313 0xf7 lone_reply_byte).
Proof.
  repeat (split; [by_computation|]).
  intros (m' & E & _ & Ht & _).
  apply (f_equal trace_of) in E. cbn [trace_of] in E. rewrite Ht in E.
  vm_compute in E. discriminate.
Qed.

(** The end delimiter in the middle of the header, and the counters after
    the body [10 10]. *)
Lemma end_delimiter_finalizes_witness :
  aborts ERROR_INVALID_FORMAT (@after attiny2313 [0xf0; 0x00])
    (@loop_body attiny2313 0xf7 (@after attiny2313 [0xf0; 0x00]))
  /\ exists m', @loop_from attiny2313 (HEADER ++ nibbles [0x10; 0x10])
                  (@after attiny2313 [0xf0]) = Ok m'
       /\ payload_size m' = 2 /\ checksum m' = xor_bytes [0x10; 0x10].
Proof.
  destruct (@end_delimiter_finalizes attiny2313) as [Hstep Hbody]. split.
  - destruct (Hstep (@after attiny2313 [0xf0; 0x00]))
      as (m' & E & _ & Hformat & _).
    + wf_by_computation.
    + vm_compute. repeat split; (discriminate || reflexivity).
    + by_computation.
    + rewrite E. apply Hformat. left. by_computation.
  - destruct (Hbody (@after attiny2313 [0xf0]) [0x10; 0x10])
      as (m' & E & _ & _ & Hps & Hck & _).
    + wf_by_computation.
    + by_computation.
    + by_computation.
    + by_computation.
    + by_computation.
    + repeat constructor; by_computation.
    + by_computation.
    + exists m'. auto.
Defined.

(** The claim C4 as stated fails: after [F0 00 70 01 00 00] one byte, 0x00,
    has been decoded: the parser has left [STATE_MATCHING_HEADER], the decoded
    payload does not have fewer bytes than the command-code field, and the
    running checksum is zero, so the claim has the message dispatched (which
    would reply [Error(UnknownCommand)]); the code replies
    [Error(InvalidFormat)]. *)
Lemma one_byte_frame_is_not_dispatched :
  state lone_zero_byte = STATE_READING_BODY
  /\ ~ payload_size lone_zero_byte < sizeof_command
  /\ checksum lone_zero_byte = 0
  /\ output_of (@loop_body attiny2313 0xf7 lone_zero_byte)
     = Some (sysex [REPLY_ERROR; error_value ERROR_INVALID_FORMAT])
  /\ output_of
       (m' <- @process_msg attiny2313
                (set_payload_size
                   (uint16_t (payload_size lone_zero_byte
                              - (sizeof_command + sizeof_checksum)))
                   lone_zero_byte) ;;
        Ok (set_state STATE_IDLE m'))
     = Some (sysex [REPLY_ERROR; error_value ERROR_UNKNOWN_COMMAND]).
Proof.
  split; [by_computation|]. split; [by_computation|].
  repeat (split; [by_computation|]). by_computation.
Qed.

(** The payload [22 ab cd] survives the wire. *)
Lemma nibble_codec_roundtrip_witness :
  exists wire sum tx' rx',
    send_msg_loop UINT16_RANGE 3 0 0 sender = Ok (sum, tx')
    /\ trace tx' = trace sender ++ sent wire
    /\ @loop_from attiny2313 wire receiver = Ok rx'
    /\ take 3 (buffer (msg rx')) = [0x22; 0xab; 0xcd].
Proof.
  destruct (@nibble_codec_roundtrip attiny2313 [0x22; 0xab; 0xcd]
              sender receiver)
    as (wire & sum & tx' & rx' & Hsend & Htx & _ & Hrecv & Hbuf & _).
  - wf_by_computation.
  - by_computation.
  - wf_by_computation.
  - by_computation.
  - by_computation.
  - by_computation.
  - exists wire, sum, tx', rx'. auto.
Defined.

(** Page 3 written on an erased ATtiny2313 and read back. *)
Lemma write_then_read_and_verify_witness :
  exists m1,
    @loop_from attiny2313 (sysex (COMMAND_WRITE :: 3 :: page_3_data))
      (@loop_init attiny2313 0 0 erased_flash) = Ok m1
    /\ replies [REPLY_SUCCESS] (@loop_init attiny2313 0 0 erased_flash) m1
    /\ exists m3,
         @loop_from attiny2313 (sysex [COMMAND_READ; 3]) m1 = Ok m3
         /\ trace m3 = trace m1 ++ sent (sysex (REPLY_READ :: page_3_data)).
Proof.
  destruct (@write_then_read_and_verify attiny2313
              (@loop_init attiny2313 0 0 erased_flash) 3 page_3_data)
    as (m1 & E & H1 & S1 & Hreply & _ & Hlater).
  - wf_by_computation.
  - by_computation.
  - by_computation.
  - by_computation.
  - unfold page_3_data. apply Forall_app_2; apply Forall_replicate;
      by_computation.
  - by_computation.
  - destruct (Hlater m1 H1 S1 eq_refl) as [(m3 & E3 & _ & _ & Ht3) _].
    exists m1. split; [exact E|]. split; [exact Hreply|].
    exists m3. auto.
Defined.

(** A second start delimiter right after the first. *)
Lemma start_delimiter_restarts_witness :
  exists m', @loop_body attiny2313 0xf0 (@after attiny2313 [0xf0]) = Ok m'
    /\ trace m' = sent (sysex
         [REPLY_ERROR; error_value ERROR_INCOMPLETE_MESSAGE])
    /\ state m' = STATE_MATCHING_HEADER.
Proof.
  destruct (@start_delimiter_restarts attiny2313 (@after attiny2313 [0xf0]))
    as (m' & E & Ht & _ & Hs & _).
  - wf_by_computation.
  - by_computation.
  - exists m'. auto.
Defined.

(** The real-time byte 0xf8 in the middle of a header. *)
Lemma other_status_bytes_ignored_witness :
  @loop_body attiny2313 0xf8 (@after attiny2313 [0xf0; 0x00])
  = Ok (@after attiny2313 [0xf0; 0x00]).
Proof.
  apply (@other_status_bytes_ignored attiny2313); by_computation.
Defined.

(** One more nibble after a body that fills the buffer. *)
Lemma buffer_never_overrun_witness :
  exists m', @loop_body attiny2313 0x05 (@after attiny2313 full_frame) = Ok m'
    /\ state m' = STATE_IDLE
    /\ trace m' = sent (sysex
         [REPLY_ERROR; error_value ERROR_INVALID_PAYLOAD_SIZE]).
Proof.
  destruct (@buffer_never_overrun attiny2313 0 0 erased_flash full_frame)
    as (m & E & _ & _ & _ & _ & Hend).
  apply after_loop in E. subst m.
  destruct (Hend ltac:(by_computation) 0x05 ltac:(by_computation))
    as (m' & E' & Hs & Ht & _).
  exists m'. auto.
Defined.

(** A [Ping] frame with a stray nibble before its end delimiter. *)
Lemma unpaired_nibble_discarded_witness :
  exists m1 a b,
    @loop_body attiny2313 0x05 ping_body = Ok m1
    /\ @loop_body attiny2313 0xf7 ping_body = Ok a
    /\ @loop_body attiny2313 0xf7 m1 = Ok b
    /\ trace b = trace a /\ flash b = flash a.
Proof.
  destruct (@unpaired_nibble_discarded attiny2313 ping_body 0x05)
    as (m1 & E1 & _ & _ & _ & _ & _ & _ & a & b & Ea & Eb & _ & _ & Ht & Hf).
  - wf_by_computation.
  - vm_compute. repeat split; (discriminate || auto).
  - by_computation.
  - by_computation.
  - lia.
  - exists m1, a, b. auto.
Defined.

(** The claim C10 as stated fails: a [Write] frame of full length is answered
    by [Success] and programs its page, but the same frame with one more
    data nibble before the end delimiter is answered by
    [Error(InvalidPayloadSize)] and the flash is not touched: the nibble is
    not discarded. *)
Lemma extra_nibble_after_full_frame_is_rejected :
  output_of (@loop attiny2313 0 0 erased_flash (full_frame ++ [0xf7]))
  = Some (sysex [REPLY_SUCCESS])
  /\ option_map (existsb spm_event)
       (trace_of (@loop attiny2313 0 0 erased_flash (full_frame ++ [0xf7])))
     = Some true
  /\ trace_of (@loop attiny2313 0 0 erased_flash
                 (full_frame ++ [0x05; 0xf7]))
     = Some (sent (sysex
         [REPLY_ERROR; error_value ERROR_INVALID_PAYLOAD_SIZE])).
Proof. repeat split; by_computation. Qed.

(** ** Scenarios *)

(** A [Ping] frame with no parameters and the right checksum is answered by
    [Success]. *)
Example ping_scenario :
  output_of (@loop attiny2313 0 0 erased_flash (sysex [COMMAND_PING]))
  = Some (sysex [REPLY_SUCCESS]).
Proof. by_computation. Qed.

(** Two start delimiters in a row: [Error(IncompleteMessage)] at the second,
    and the frame that follows is parsed and answered. *)
Example double_start_scenario :
  output_of (@loop attiny2313 0 0 erased_flash
               (0xf0 :: sysex [COMMAND_PING]))
  = Some (sysex [REPLY_ERROR; error_value ERROR_INCOMPLETE_MESSAGE]
          ++ sysex [REPLY_SUCCESS]).
Proof. by_computation. Qed.

(** A page written and then read back and verified, on the wire. *)
Example write_read_verify_scenario :
  output_of (@loop atmega8 0 0 erased_flash
               (sysex (COMMAND_WRITE :: 9 :: replicate 64 0x5a)
                ++ sysex [COMMAND_READ; 9]
                ++ sysex [COMMAND_VERIFY; 9]))
  = Some (sysex [REPLY_SUCCESS]
          ++ sysex (REPLY_READ :: replicate 64 0x5a)
          ++ sysex [REPLY_VERIFY; 0]).
Proof. by_computation. Qed.

(** ** Further instances *)

(** Page 3 of an ATtiny2313 is programmed in sixteen words. *)
Lemma write_programming_sequence_witness :
  exists m',
    @loop_from attiny2313 (sysex (COMMAND_WRITE :: 3 :: page_3_data)) fresh
    = Ok m'
    /\ trace m' = trace fresh
         ++ [ev_page_erase (3 * @SPM_PAGESIZE attiny2313)]
         ++ fill_events 0 page_3_data
         ++ [ev_page_write (3 * @SPM_PAGESIZE attiny2313); ev_rww_enable]
         ++ sent (sysex [REPLY_SUCCESS]).
Proof.
  apply (@write_programming_sequence attiny2313 fresh 3 page_3_data).
  - wf_by_computation.
  - by_computation.
  - by_computation.
  - by_computation.
  - unfold page_3_data. apply Forall_app_2; apply Forall_replicate;
      by_computation.
  - by_computation.
  - by_computation.
Defined.

(** Writing page 3 leaves page 4 as it was. *)
Lemma write_leaves_other_pages_witness :
  exists m',
    @loop_from attiny2313 (sysex (COMMAND_WRITE :: 3 :: page_3_data)) fresh
    = Ok m'
    /\ @page_contents attiny2313 (flash m') (4 * @SPM_PAGESIZE attiny2313)
       = @page_contents attiny2313 (flash fresh)
           (4 * @SPM_PAGESIZE attiny2313).
Proof.
  destruct (@write_leaves_other_pages attiny2313 fresh 3 page_3_data)
    as (m' & E & _ & Hq).
  - wf_by_computation.
  - by_computation.
  - by_computation.
  - by_computation.
  - unfold page_3_data. apply Forall_app_2; apply Forall_replicate;
      by_computation.
  - by_computation.
  - exists m'. split; [exact E|]. apply Hq; lia.
Defined.


(** A reply code is not a command. *)
Lemma unknown_command_rejected_witness :
  exists m',
    @loop_from attiny2313 (sysex [REPLY_SUCCESS; 7]) fresh = Ok m'
    /\ trace m' = trace fresh
         ++ sent (sysex [REPLY_ERROR; error_value ERROR_UNKNOWN_COMMAND])
    /\ flash m' = flash fresh /\ state m' = STATE_IDLE.
Proof.
  apply (@unknown_command_rejected attiny2313 fresh REPLY_SUCCESS [7]);
    first [ discriminate | wf_by_computation | by_computation
          | repeat constructor; by_computation ].
Defined.

(** A [Read] that names two pages, the first of which does not exist. *)
Lemma wrong_size_rejected_witness :
  exists m',
    @loop_from attiny2313 (sysex [COMMAND_READ; 200; 1]) fresh = Ok m'
    /\ trace m' = trace fresh
         ++ sent (sysex [REPLY_ERROR; error_value ERROR_INVALID_PAYLOAD_SIZE])
    /\ flash m' = flash fresh /\ state m' = STATE_IDLE.
Proof.
  apply (@wrong_size_rejected attiny2313 fresh COMMAND_READ [200; 1]).
  - wf_by_computation.
  - by_computation.
  - repeat constructor; by_computation.
  - by_computation.
  - right. split; [left; reflexivity|discriminate].
Defined.

(** Three [Ping]s. *)
Lemma ping_any_number_of_times_witness :
  exists m',
    @loop_from attiny2313 (concat (replicate 3 (sysex [COMMAND_PING]))) fresh
    = Ok m'
    /\ trace m' = trace fresh
         ++ concat (replicate 3 (sent (sysex [REPLY_SUCCESS])))
    /\ flash m' = flash fresh /\ state m' = STATE_IDLE
    /\ @wf attiny2313 m'.
Proof.
  apply (@ping_any_number_of_times attiny2313 3 fresh).
  - wf_by_computation.
  - by_computation.
Defined.

(** The end delimiter of a full [Write] frame for page 63 changes the byte
    at 0x7e0. *)
Lemma flash_changes_only_by_valid_write_witness :
  0xf7 = 0xf7 /\ state full_write_pending = STATE_EXPECTING_END
  /\ checksum full_write_pending = 0
  /\ buffer (msg full_write_pending) !! 0%nat = Some COMMAND_WRITE
  /\ buffer (msg full_write_pending) !! 1%nat
     = Some (0x7e0 / @SPM_PAGESIZE attiny2313)
  /\ 0x7e0 / @SPM_PAGESIZE attiny2313 < @NUM_PAGES attiny2313.
Proof.
  eapply (@flash_changes_only_by_valid_write attiny2313 0xf7
            full_write_pending _ 0x7e0).
  - wf_by_computation.
  - by_computation.
  - vm_compute. reflexivity.
  - vm_compute. discriminate.
Defined.

(** Noise on the idle line. *)
Lemma idle_parser_ignores_noise_witness :
  @loop_from attiny2313 line_noise fresh = Ok fresh.
Proof.
  apply (@idle_parser_ignores_noise attiny2313 line_noise fresh).
  - by_computation.
  - unfold line_noise. cbn [In]. lia.
Defined.

(** The sender transmits its three bytes in a frame of thirteen. *)
Lemma send_msg_seven_bit_clean_witness :
  exists m' body,
    send_msg 2 sender = Ok m'
    /\ trace m' = trace sender ++ sent (0xf0 :: body ++ [0xf7])
    /\ Forall seven_bit body
    /\ Z.of_nat (length body)
       = 3 + 2 * (uint8_t (sizeof_command + uint8_t 2) + 1).
Proof.
  apply (@send_msg_seven_bit_clean attiny2313 2 sender).
  - wf_by_computation.
  - by_computation.
Defined.

(** A [Ping] frame reaches the dispatcher. *)
Lemma frame_reaches_dispatcher_witness :
  exists d,
    @loop_from attiny2313 (sysex [COMMAND_PING]) fresh
    = (m' <- @process_msg attiny2313 d ;; Ok (set_state STATE_IDLE m'))
    /\ buffer (msg d)
       = [COMMAND_PING] ++ [xor_bytes [COMMAND_PING]]
         ++ drop (length [COMMAND_PING] + 1) (buffer (msg fresh))
    /\ payload_size d = Z.of_nat (length [COMMAND_PING]) - 1
    /\ flash d = flash fresh /\ trace d = trace fresh /\ @wf attiny2313 d.
Proof.
  apply (@frame_reaches_dispatcher attiny2313 fresh [COMMAND_PING]).
  - wf_by_computation.
  - by_computation.
  - repeat constructor; by_computation.
  - by_computation.
  - by_computation.
Defined.

(** What the sender transmits, a fresh device accepts. *)
Lemma sent_frame_accepted_by_peer_witness :
  exists s' es d,
    send_msg 2 sender = Ok s' /\ trace s' = trace sender ++ es
    /\ @loop_from attiny2313 (uart_output es) fresh
       = (m' <- @process_msg attiny2313 d ;; Ok (set_state STATE_IDLE m'))
    /\ take (Z.to_nat (uint8_t (sizeof_command + uint8_t 2)))
         (buffer (msg d))
       = take (Z.to_nat (uint8_t (sizeof_command + uint8_t 2)))
           (buffer (msg sender))
    /\ payload_size d = uint8_t (sizeof_command + uint8_t 2) - 1
    /\ flash d = flash fresh /\ trace d = trace fresh.
Proof.
  apply (@sent_frame_accepted_by_peer attiny2313 2 sender fresh).
  - wf_by_computation.
  - wf_by_computation.
  - by_computation.
  - by_computation.
  - by_computation.
Defined.

(** At 8 MHz the divisor is 15: 8 MHz / (16 * 16) is the MIDI rate. *)
Lemma uart_init_divisor_witness :
  UBRRH (uart_init 8000000 4 3 io_reset) = 0
  /\ UBRRL (uart_init 8000000 4 3 io_reset) = 15
  /\ 16 * BAUD_RATE
       * (256 * UBRRH (uart_init 8000000 4 3 io_reset)
          + UBRRL (uart_init 8000000 4 3 io_reset) + 1)
     - 8 * BAUD_RATE
     <= 8000000.
Proof.
  destruct (uart_init_divisor 8000000 4 3 io_reset) as (_ & _ & Hlo & _).
  - by_computation.
  - by_computation.
  - split; [reflexivity|]. split; [reflexivity|exact Hlo].
Defined.

(** With [RXEN] = 4 and [TXEN] = 3 the receive-interrupt bit 7 stays
    clear. *)
Lemma uart_init_enables_rx_tx_witness :
  Z.testbit (UCSRB (uart_init 8000000 4 3 io_reset)) 7
  = (7 =? 4) || (7 =? 3).
Proof.
  apply (uart_init_enables_rx_tx 8000000 4 3 io_reset 7); lia.
Defined.

(** Both pins low: the bootloader answers a [Ping]. *)
Lemma main_enters_loop_witness :
  snd (@main attiny2313 8000000 4 3 io_reset 0x00 0 0 erased_flash
         (sysex [COMMAND_PING]))
  = @loop attiny2313 0 0 erased_flash (sysex [COMMAND_PING]).
Proof.
  apply (@main_enters_loop attiny2313); reflexivity.
Defined.

(** Pin 3 high: the resident program is called at once. *)
Lemma main_calls_program_first_witness :
  exists m rest,
    snd (@main attiny2313 8000000 4 3 io_reset 0x08 0 0 erased_flash
           (sysex [COMMAND_PING]))
    = Ok m
    /\ trace m = ev_program_main :: rest.
Proof.
  apply (@main_calls_program_first attiny2313). left. reflexivity.
Defined.

